(** * distortos: semaphores, thread signals and thread join

    A shallow embedding of
    - [source/synchronization/Semaphore.cpp],
    - [source/signals/ThisThread-Signals.cpp],
    - [source/threads/ThreadBase.cpp],
    - the fields of [include/distortos/scheduler/ThreadControlBlock.hpp]
      these three files read and write,
    together with the part of the scheduler they call into.

    The scheduler itself ([Scheduler], [ThreadControlBlockList], the bodies
    of the out-of-line members of [ThreadControlBlock]) is not among the
    sources; what the embedded code needs of it is modelled from the
    specification and marked as such.

    A kernel call that may suspend its caller is split at the suspension
    point: the first half runs up to [Scheduler::block] (and answers
    [Blocked] if the caller is taken off the runnable list), the second half
    (the [_resume] functions) is what the caller executes once the scheduler
    has switched back to it.  Every half runs with interrupts masked
    ([architecture::InterruptMaskingLock]) and is therefore one atomic
    transition of the kernel state. *)

From stdpp Require Import base option list gmap.
From Stdlib Require Import ZArith Lia.

Local Open Scope Z_scope.

(** ** Error codes ([<cerrno>], values of the newlib headers the ARM
    toolchain ships) *)

Definition EPERM : Z := 1.
Definition EINTR : Z := 4.
Definition EAGAIN : Z := 11.
Definition EINVAL : Z := 22.
Definition EDEADLK : Z := 45.
Definition ETIMEDOUT : Z := 116.
Definition EOVERFLOW : Z := 139.

(** ** Machine integers *)

(** [unsigned int] on the ARMv7-M target, the type behind [Semaphore::Value]. *)
Definition UINT_MAX : Z := 2 ^ 32 - 1.
Definition wrapValue (z : Z) : Z := z mod 2 ^ 32.

(** [TickClock::rep] is [uint64_t]; [time_point] and [duration] share it. *)
Definition wrapTick (z : Z) : Z := z mod 2 ^ 64.

(** conversion to [uint8_t] *)
Definition wrapU8 (z : Z) : Z := z mod 2 ^ 8.

(** ** Threads and thread lists *)

(** A thread is named by the address of its [ThreadControlBlock]. *)
Abbreviation ThreadId := nat (only parsing).

(** A [ThreadControlBlockList] is named by where it lives: the scheduler's
    list of runnable threads, a list that is a member of a kernel object at
    some address (the [blockedList_] of a semaphore), or the [waitingList]
    local to the activation of [waitImplementation] on a thread's stack. *)
Inductive ListId :=
  | RunnableList
  | ObjectList (address : nat)
  | StackList (thread : ThreadId).

#[global] Instance ListId_eq_dec : EqDecision ListId.
Proof. solve_decision. Defined.

#[global] Instance ListId_countable : Countable ListId.
Proof.
  refine (inj_countable'
    (fun l => match l with
              | RunnableList => inl tt
              | ObjectList a => inr (inl a)
              | StackList t => inr (inr t)
              end)
    (fun s => match s with
              | inl _ => RunnableList
              | inr (inl a) => ObjectList a
              | inr (inr t) => StackList t
              end) _).
  by intros [].
Defined.

(** [ThreadControlBlock::State] *)
Inductive State :=
  | New
  | Runnable
  | Sleeping
  | BlockedOnSemaphore
  | Suspended
  | Terminated
  | BlockedOnMutex
  | BlockedOnConditionVariable
  | WaitingForSignal.

#[global] Instance State_eq_dec : EqDecision State.
Proof. solve_decision. Defined.

(** [ThreadControlBlock::UnblockReason] *)
Inductive UnblockReason :=
  | UnblockRequest
  | Timeout.

(** The classes derived from [ThreadControlBlock::UnblockFunctor] in the
    modelled sources: only [SignalsWaitUnblockFunctor].  Its reference member
    [pendingSignalSet_] designates the local variable [pendingSignalSet] of
    the activation of [waitImplementation] that created it. *)
Inductive UnblockFunctor :=
  | SignalsWaitUnblockFunctor.

(** The anonymous union of the thread control block: the functor pointer is
    valid while the thread is blocked, the reason while it is not. *)
Inductive UnblockInfo :=
  | unblockFunctor_ (functor : option UnblockFunctor)
  | unblockReason_ (reason : UnblockReason).

(** What a suspended thread keeps on its stack: which kernel call it is
    suspended in, with the locals that call reads after the resume. *)
Inductive Frame :=
  | SemaphoreWaitFrame
  | SignalsWaitFrame (bitset : Z) (pendingSignalSet : Z).

(** [std::bitset<32>] inside [SignalSet], as the integer [to_ulong] gives. *)
Abbreviation SignalSet := Z (only parsing).

Definition validSignalSet (s : SignalSet) : Prop := 0 <= s < 2 ^ 32.

Record ThreadControlBlock := mkThreadControlBlock {
  (** the suspended kernel call held by [stack_], if any *)
  stack_ : option Frame;
  (** pointer to the list that has this object, [None] for [nullptr] *)
  list_ : option ListId;
  unblockInfo_ : UnblockInfo;
  pendingSignalSet_ : SignalSet;
  (** pointer to the constant set of "waited for" signals *)
  waitingSignalSet_ : option SignalSet;
  priority_ : Z;
  boostedPriority_ : Z;
  state_ : State;
}.

Definition setStack (f : option Frame) (tcb : ThreadControlBlock) :=
  mkThreadControlBlock f (list_ tcb) (unblockInfo_ tcb) (pendingSignalSet_ tcb)
    (waitingSignalSet_ tcb) (priority_ tcb) (boostedPriority_ tcb) (state_ tcb).

Definition setList (l : option ListId) (tcb : ThreadControlBlock) :=
  mkThreadControlBlock (stack_ tcb) l (unblockInfo_ tcb) (pendingSignalSet_ tcb)
    (waitingSignalSet_ tcb) (priority_ tcb) (boostedPriority_ tcb) (state_ tcb).

Definition setUnblockInfo (u : UnblockInfo) (tcb : ThreadControlBlock) :=
  mkThreadControlBlock (stack_ tcb) (list_ tcb) u (pendingSignalSet_ tcb)
    (waitingSignalSet_ tcb) (priority_ tcb) (boostedPriority_ tcb) (state_ tcb).

Definition setPendingSignalSet (p : SignalSet) (tcb : ThreadControlBlock) :=
  mkThreadControlBlock (stack_ tcb) (list_ tcb) (unblockInfo_ tcb) p
    (waitingSignalSet_ tcb) (priority_ tcb) (boostedPriority_ tcb) (state_ tcb).

Definition setWaitingSignalSet (w : option SignalSet) (tcb : ThreadControlBlock) :=
  mkThreadControlBlock (stack_ tcb) (list_ tcb) (unblockInfo_ tcb) (pendingSignalSet_ tcb)
    w (priority_ tcb) (boostedPriority_ tcb) (state_ tcb).

Definition setState (s : State) (tcb : ThreadControlBlock) :=
  mkThreadControlBlock (stack_ tcb) (list_ tcb) (unblockInfo_ tcb) (pendingSignalSet_ tcb)
    (waitingSignalSet_ tcb) (priority_ tcb) (boostedPriority_ tcb) s.

(** [ThreadControlBlock::getEffectivePriority] *)
Definition getEffectivePriority (tcb : ThreadControlBlock) : Z :=
  Z.max (priority_ tcb) (boostedPriority_ tcb).

(** [ThreadControlBlock::blockHook]: saves the pointer to the functor. *)
Definition blockHook (functor : option UnblockFunctor) (tcb : ThreadControlBlock) :=
  setUnblockInfo (unblockFunctor_ functor) tcb.

(** [SignalsWaitUnblockFunctor::operator()]: saves the pending signal set of
    the unblocked thread into the variable the functor refers to and clears
    the pointer to the "waited for" set. *)
Definition runUnblockFunctor (f : UnblockFunctor) (tcb : ThreadControlBlock) :=
  match f with
  | SignalsWaitUnblockFunctor =>
      let saved :=
        match stack_ tcb with
        | Some (SignalsWaitFrame bitset _) =>
            setStack (Some (SignalsWaitFrame bitset (pendingSignalSet_ tcb))) tcb
        | _ => tcb
        end in
      setWaitingSignalSet None saved
  end.

(** Modelled from the spec: [ThreadControlBlock::unblockHook] is declared in
    the header, its body is not among the sources.  It sets the unblock
    reason and executes the functor saved by [blockHook]; the functor is read
    before the reason overwrites the union.  (The round-robin quantum it also
    resets is not part of this development.) *)
Definition unblockHook (reason : UnblockReason) (tcb : ThreadControlBlock) :=
  let functor :=
    match unblockInfo_ tcb with
    | unblockFunctor_ f => f
    | unblockReason_ _ => None
    end in
  let tcb' := setUnblockInfo (unblockReason_ reason) tcb in
  match functor with
  | Some f => runUnblockFunctor f tcb'
  | None => tcb'
  end.

(** The object a [ThreadControlBlockList] is: its identity and the state its
    constructor was given, which every thread put on it takes. *)
Record ThreadControlBlockList := mkThreadControlBlockList {
  listId : ListId;
  listState : State;
}.

(** ** Scheduler *)

Record Scheduler := mkScheduler {
  threadControlBlocks : gmap nat ThreadControlBlock;
  (** contents of every thread list, a missing entry is an empty list *)
  lists : gmap ListId (list nat);
  tickCount_ : Z;
  (** running one-shot timers of [blockUntil]: deadline and thread *)
  softwareTimers_ : list (Z * nat);
}.

Definition getList (k : Scheduler) (l : ListId) : list nat :=
  default [] (lists k !! l).

Definition putList (l : ListId) (ts : list nat) (k : Scheduler) : Scheduler :=
  mkScheduler (threadControlBlocks k) (<[l := ts]> (lists k)) (tickCount_ k)
    (softwareTimers_ k).

Definition putThreadControlBlock (t : ThreadId) (tcb : ThreadControlBlock)
    (k : Scheduler) : Scheduler :=
  mkScheduler (<[t := tcb]> (threadControlBlocks k)) (lists k) (tickCount_ k)
    (softwareTimers_ k).

Definition putTickCount (n : Z) (k : Scheduler) : Scheduler :=
  mkScheduler (threadControlBlocks k) (lists k) n (softwareTimers_ k).

Definition putSoftwareTimers (ts : list (Z * nat)) (k : Scheduler) : Scheduler :=
  mkScheduler (threadControlBlocks k) (lists k) (tickCount_ k) ts.

(** Modelled from the spec: [TickClock::now] is declared in [TickClock.hpp],
    its body is not among the sources.  It reads the "monotonic tick
    counter" the tick hook advances. *)
Definition TickClock_now (k : Scheduler) : Z := tickCount_ k.

(** Modelled from the spec: [Scheduler::getCurrentThreadControlBlock]; the
    scheduler is not among the sources.  "The currently running thread is
    always the head" of the ready list.  The answer is the thread and its
    control block; there is none only when no thread is runnable, which the
    idle thread rules out in a running system. *)
Definition getCurrentThreadControlBlock (k : Scheduler)
    : option (nat * ThreadControlBlock) :=
  match getList k RunnableList with
  | [] => None
  | t :: _ =>
      match threadControlBlocks k !! t with
      | Some tcb => Some (t, tcb)
      | None => None
      end
  end.

Definition effectivePriority (k : Scheduler) (t : ThreadId) : Z :=
  match threadControlBlocks k !! t with
  | Some tcb => getEffectivePriority tcb
  | None => 0
  end.

(** Insertion into a list ordered by descending priority: behind every
    element whose priority is not lower, so that threads of equal priority
    stay in order of arrival. *)
Fixpoint sortedInsert (prio : nat -> Z) (t : nat) (l : list nat) : list nat :=
  match l with
  | [] => [t]
  | x :: l' =>
      if prio x <? prio t then t :: x :: l' else x :: sortedInsert prio t l'
  end.

(** erasing the node of [t] (its first occurrence) *)
Fixpoint eraseThread (t : nat) (l : list nat) : list nat :=
  match l with
  | [] => []
  | x :: l' => if Nat.eqb x t then l' else x :: eraseThread t l'
  end.

(** What unblocking makes of the control block of the woken thread: the
    unblock hook has run, the thread is [Runnable] and on the runnable
    list. *)
Definition unblockedThreadControlBlock (reason : UnblockReason)
    (tcb : ThreadControlBlock) : ThreadControlBlock :=
  setState Runnable (setList (Some RunnableList) (unblockHook reason tcb)).

(** Modelled from the spec: [Scheduler::unblockInternal]; the scheduler is not
    among the sources.  "Removes the TCB at iterator from its current blocked
    list, invokes the stored unblock_functor (if any) passing the TCB,
    transitions to Runnable, inserts into ready list"; the ready list is
    "ordered by effective priority, then by FIFO insertion order within each
    priority band".  The requested context switch needs no step of its own:
    the running thread is read off the head of the ready list. *)
Definition unblockInternal (t : ThreadId) (reason : UnblockReason)
    (k : Scheduler) : Scheduler :=
  match threadControlBlocks k !! t with
  | None => k
  | Some tcb =>
      let k1 :=
        match list_ tcb with
        | Some l => putList l (eraseThread t (getList k l)) k
        | None => k
        end in
      let k2 := putThreadControlBlock t (unblockedThreadControlBlock reason tcb) k1 in
      putList RunnableList
        (sortedInsert (effectivePriority k2) t (getList k2 RunnableList)) k2
  end.

(** Modelled from the spec: [Scheduler::unblock]; "unblock(iterator,
    reason=UnblockRequest)". *)
Definition Scheduler_unblock (t : ThreadId) (k : Scheduler) : Scheduler :=
  unblockInternal t UnblockRequest k.

(** What blocking makes of the control block of the caller: [frame] is what
    the caller leaves on its stack, [blockHook] saves the functor, the thread
    takes the state of the list and is on that list. *)
Definition blockedThreadControlBlock (container : ThreadControlBlockList)
    (functor : option UnblockFunctor) (frame : Frame)
    (tcb : ThreadControlBlock) : ThreadControlBlock :=
  setState (listState container)
    (setList (Some (listId container))
      (blockHook functor (setStack (Some frame) tcb))).

(** Modelled from the spec: [Scheduler::block]; the scheduler is not among the
    sources.  "Removes current thread from ready list, appends to list, sets
    its state from the list's tag, stores unblock_functor, picks a new head of
    ready".  Blocked lists are "priority-ordered containers" in which
    "threads of equal effective priority form FIFO groups": the thread is
    appended to the group of its effective priority.  The sources agree:
    [ThreadControlBlock::reposition] moves a thread to "the head" or "the
    tail of the group of threads with the new priority" on whatever list it
    is on, and the priority test cases start their waiters "in various order"
    and expect them served by priority.  Without a running thread there is no
    caller. *)
Definition Scheduler_block (container : ThreadControlBlockList)
    (functor : option UnblockFunctor) (frame : Frame) (k : Scheduler)
    : option Scheduler :=
  match getCurrentThreadControlBlock k with
  | None => None
  | Some (t, tcb) =>
      let k1 := putList RunnableList (eraseThread t (getList k RunnableList)) k in
      let k2 :=
        putThreadControlBlock t
          (blockedThreadControlBlock container functor frame tcb) k1 in
      Some (putList (listId container)
        (sortedInsert (effectivePriority k2) t (getList k2 (listId container))) k2)
  end.

(** Modelled from the spec: the value [Scheduler::block] and
    [Scheduler::blockUntil] return to the resumed thread, "0 if unblocked by a
    primitive, ETIMEDOUT if unblocked by timeout". *)
Definition blockResult (reason : UnblockReason) : Z :=
  match reason with
  | UnblockRequest => 0
  | Timeout => ETIMEDOUT
  end.

(** What a kernel call that may suspend answers at its suspension point. *)
Inductive Outcome (A : Type) :=
  | Returned (a : A)
  | Blocked.
Arguments Returned {A} a.
Arguments Blocked {A}.

(** Modelled from the spec: enrolment "with the timer/tick facility"; the
    software timers are not among the sources.  The new timer goes behind the
    timers that are due no later. *)
Fixpoint startTimer (timePoint : Z) (t : nat) (l : list (Z * nat)) : list (Z * nat) :=
  match l with
  | [] => [(timePoint, t)]
  | (d, u) :: l' =>
      if timePoint <? d then (timePoint, t) :: (d, u) :: l'
      else (d, u) :: startTimer timePoint t l'
  end.

(** Modelled from the spec: [Scheduler::blockUntil]; the scheduler is not
    among the sources.  "Like block, but also enrolls with the timer/tick
    facility so that at tick deadline the tick hook calls unblock(iterator,
    reason=Timeout) on this waiter"; with a deadline that is not in the
    future (the boundary case [tryWaitUntil(now() - 1)]) it "returns
    ETIMEDOUT immediately".  In that case the functor is executed on the
    caller, so that what it clears does not outlive the call. *)
Definition Scheduler_blockUntil (container : ThreadControlBlockList)
    (timePoint : Z) (functor : option UnblockFunctor) (frame : Frame)
    (k : Scheduler) : option (Outcome Z * Scheduler) :=
  match getCurrentThreadControlBlock k with
  | None => None
  | Some (t, tcb) =>
      if timePoint <=? TickClock_now k then
        match functor with
        | Some f =>
            Some (Returned ETIMEDOUT, putThreadControlBlock t (runUnblockFunctor f tcb) k)
        | None => Some (Returned ETIMEDOUT, k)
        end
      else
        match Scheduler_block container functor frame
                (putSoftwareTimers (startTimer timePoint t (softwareTimers_ k)) k) with
        | Some k' => Some (Blocked, k')
        | None => None
        end
  end.

(** Modelled from the spec: the return of [Scheduler::block] and
    [Scheduler::blockUntil] on the resumed thread, which finds the frame it
    left on its stack and the value of the call.  The frame is popped and
    the one-shot timer of [blockUntil], a local of that call, is stopped.
    There is nothing to resume unless the running thread is suspended in a
    kernel call and has been unblocked. *)
Definition Scheduler_block_resume (k : Scheduler)
    : option (nat * ThreadControlBlock * Frame * Z * Scheduler) :=
  match getCurrentThreadControlBlock k with
  | None => None
  | Some (t, tcb) =>
      match stack_ tcb, unblockInfo_ tcb with
      | Some frame, unblockReason_ reason =>
          let tcb' := setStack None tcb in
          let timers := filter (fun dt => dt.2 <> t) (softwareTimers_ k) in
          Some (t, tcb', frame, blockResult reason,
                putSoftwareTimers timers (putThreadControlBlock t tcb' k))
      | _, _ => None
      end
  end.

(** Modelled from the spec: the expiry of a timed wait, "unblock(iterator,
    reason=Timeout) on this waiter".  A thread that is runnable again by the
    time its deadline comes is left alone: "if the unblock functor executes
    before the tick-expiry routine reaches the waiter, the wait returns 0". *)
Definition timerCallback (t : ThreadId) (k : Scheduler) : Scheduler :=
  match threadControlBlocks k !! t with
  | Some tcb =>
      if decide (list_ tcb = Some RunnableList) then k
      else unblockInternal t Timeout k
  | None => k
  end.

(** the timers that are due, one after the other *)
Definition expireTimers (due : list (Z * nat)) (k : Scheduler) : Scheduler :=
  foldl (fun k' dt => timerCallback dt.2 k') k due.

(** Modelled from the spec: [Scheduler::tickInterruptHandler] ("tickHook");
    the scheduler is not among the sources.  "(1) Advances monotonic tick
    counter.  (2) Expires any sleeping/timed-waiting threads whose deadline
    equals now."  Step (3), the round-robin accounting of the running thread,
    and step (4), the software timers started by the user, are not part of
    this development. *)
Definition tickHook (k : Scheduler) : Scheduler :=
  let now := wrapTick (tickCount_ k + 1) in
  let due := filter (fun dt => dt.1 = now) (softwareTimers_ k) in
  let rest := filter (fun dt => dt.1 <> now) (softwareTimers_ k) in
  expireTimers due (putSoftwareTimers rest (putTickCount now k)).

(** [n] ticks in a row, nothing else happening in between *)
Fixpoint ticks (n : nat) (k : Scheduler) : Scheduler :=
  match n with
  | O => k
  | S n' => ticks n' (tickHook k)
  end.

(** Modelled from the spec: [Scheduler::add]; the scheduler is not among the
    sources.  "Inserts into ready list at its priority band (tail)", the
    thread becomes [Runnable]. *)
Definition Scheduler_add (t : ThreadId) (k : Scheduler) : Scheduler :=
  match threadControlBlocks k !! t with
  | None => k
  | Some tcb =>
      let k1 := putThreadControlBlock t (setState Runnable (setList (Some RunnableList) tcb)) k in
      putList RunnableList (sortedInsert (effectivePriority k1) t (getList k1 RunnableList)) k1
  end.

(** ** Semaphore ([source/synchronization/Semaphore.cpp]) *)

Record Semaphore := mkSemaphore {
  blockedList_ : ThreadControlBlockList;
  value_ : Z;
  maxValue_ : Z;
}.

Definition setValue (v : Z) (s : Semaphore) : Semaphore :=
  mkSemaphore (blockedList_ s) v (maxValue_ s).

(** [Semaphore::Semaphore]: the semaphore is built at [address], its
    [blockedList_] starts empty and is tagged [BlockedOnSemaphore]. *)
Definition Semaphore_Semaphore (address : nat) (value maxValue : Z)
    (k : Scheduler) : Semaphore * Scheduler :=
  (mkSemaphore (mkThreadControlBlockList (ObjectList address) BlockedOnSemaphore)
     (if value <=? maxValue then value else maxValue) maxValue,
   putList (ObjectList address) [] k).

Definition blockedThreads (s : Semaphore) (k : Scheduler) : list nat :=
  getList k (listId (blockedList_ s)).

(** [Semaphore::post] *)
Definition Semaphore_post (s : Semaphore) (k : Scheduler) : Z * Semaphore * Scheduler :=
  if value_ s =? maxValue_ s then (EOVERFLOW, s, k)
  else
    match blockedThreads s k with
    | t :: _ => (0, s, Scheduler_unblock t k)
    | [] => (0, setValue (wrapValue (value_ s + 1)) s, k)
    end.

(** [Semaphore::tryWaitInternal] *)
Definition Semaphore_tryWaitInternal (s : Semaphore) : Z * Semaphore :=
  if value_ s =? 0 then (EAGAIN, s)
  else (0, setValue (wrapValue (value_ s - 1)) s).

(** [Semaphore::tryWait] *)
Definition Semaphore_tryWait (s : Semaphore) (k : Scheduler) : Z * Semaphore * Scheduler :=
  let '(ret, s') := Semaphore_tryWaitInternal s in (ret, s', k).

(** [Semaphore::wait], up to the return of [tryWaitInternal] or the call of
    [Scheduler::block] *)
Definition Semaphore_wait (s : Semaphore) (k : Scheduler)
    : option (Outcome Z * Semaphore * Scheduler) :=
  let '(ret, s') := Semaphore_tryWaitInternal s in
  if negb (ret =? EAGAIN) then Some (Returned ret, s', k)
  else
    match Scheduler_block (blockedList_ s') None SemaphoreWaitFrame k with
    | Some k' => Some (Blocked, s', k')
    | None => None
    end.

(** [Semaphore::tryWaitUntil], up to the same point *)
Definition Semaphore_tryWaitUntil (s : Semaphore) (timePoint : Z) (k : Scheduler)
    : option (Outcome Z * Semaphore * Scheduler) :=
  let '(ret, s') := Semaphore_tryWaitInternal s in
  if negb (ret =? EAGAIN) then Some (Returned ret, s', k)
  else
    match Scheduler_blockUntil (blockedList_ s') timePoint None SemaphoreWaitFrame k with
    | Some (o, k') => Some (o, s', k')
    | None => None
    end.

(** [Semaphore::tryWaitFor] *)
Definition Semaphore_tryWaitFor (s : Semaphore) (duration : Z) (k : Scheduler)
    : option (Outcome Z * Semaphore * Scheduler) :=
  Semaphore_tryWaitUntil s (wrapTick (wrapTick (TickClock_now k + duration) + 1)) k.

(** The rest of [Semaphore::wait] and [Semaphore::tryWaitUntil]: the value
    of [block] / [blockUntil] is returned as it is. *)
Definition Semaphore_wait_resume (k : Scheduler) : option (Z * Scheduler) :=
  match Scheduler_block_resume k with
  | Some (_, _, SemaphoreWaitFrame, ret, k') => Some (ret, k')
  | _ => None
  end.

(** ** ThreadBase ([source/threads/ThreadBase.cpp]) *)

Record ThreadBase := mkThreadBase {
  (** address of the member [threadControlBlock_] *)
  threadControlBlock_ : nat;
  joinSemaphore_ : Semaphore;
}.

Definition setJoinSemaphore (s : Semaphore) (tb : ThreadBase) : ThreadBase :=
  mkThreadBase (threadControlBlock_ tb) s.

(** The loop [while ((ret = joinSemaphore_.wait()) == EINTR);] of
    [ThreadBase::join], entered at its head.  Each turn calls
    [Semaphore::wait]; [fuel] bounds the turns taken before the caller is
    suspended or the loop is left. *)
Fixpoint ThreadBase_join_loop (fuel : nat) (tb : ThreadBase) (k : Scheduler)
    : option (Outcome Z * ThreadBase * Scheduler) :=
  match fuel with
  | O => None
  | S fuel' =>
      match Semaphore_wait (joinSemaphore_ tb) k with
      | Some (Returned ret, s', k') =>
          if ret =? EINTR then ThreadBase_join_loop fuel' (setJoinSemaphore s' tb) k'
          else Some (Returned ret, setJoinSemaphore s' tb, k')
      | Some (Blocked, s', k') => Some (Blocked, setJoinSemaphore s' tb, k')
      | None => None
      end
  end.

(** [ThreadBase::join] *)
Definition ThreadBase_join (fuel : nat) (tb : ThreadBase) (k : Scheduler)
    : option (Outcome Z * ThreadBase * Scheduler) :=
  match getCurrentThreadControlBlock k with
  | None => None
  | Some (t, _) =>
      if Nat.eqb (threadControlBlock_ tb) t then Some (Returned EDEADLK, tb, k)
      else ThreadBase_join_loop fuel tb k
  end.

(** [ThreadBase::join] after the resume inside [joinSemaphore_.wait()]: the
    loop condition is tested on the value [wait] returned. *)
Definition ThreadBase_join_resume (fuel : nat) (tb : ThreadBase) (k : Scheduler)
    : option (Outcome Z * ThreadBase * Scheduler) :=
  match Semaphore_wait_resume k with
  | Some (ret, k') =>
      if ret =? EINTR then ThreadBase_join_loop fuel tb k'
      else Some (Returned ret, tb, k')
  | None => None
  end.

(** [ThreadBase::start]; the thread control block is a member of the object,
    so it is there. *)
Definition ThreadBase_start (tb : ThreadBase) (k : Scheduler) : option (Z * Scheduler) :=
  match threadControlBlocks k !! threadControlBlock_ tb with
  | None => None
  | Some tcb =>
      if decide (state_ tcb = New) then Some (0, Scheduler_add (threadControlBlock_ tb) k)
      else Some (EINVAL, k)
  end.

(** [ThreadBase::terminationHook] *)
Definition ThreadBase_terminationHook (tb : ThreadBase) (k : Scheduler)
    : ThreadBase * Scheduler :=
  let '(_, s', k') := Semaphore_post (joinSemaphore_ tb) k in
  (setJoinSemaphore s' tb, k').

(** ** Signals ([source/signals/ThisThread-Signals.cpp]) *)

(** [__builtin_ffsl]: one plus the index of the least significant set bit,
    0 for 0; [unsigned long] has 32 bits on the target. *)
Fixpoint ffsFrom (n : nat) (i : Z) (x : Z) : Z :=
  match n with
  | O => 0
  | S n' => if Z.testbit x i then i + 1 else ffsFrom n' (i + 1) x
  end.

Definition builtin_ffsl (x : Z) : Z := ffsFrom 32 0 x.

(** Modelled from the spec: [ThreadControlBlock::acceptPendingSignal] is
    declared in the header, its body is not among the sources.  "Clear bit n;
    EINVAL if out of range or bit is clear."  The parameter is a [uint8_t]. *)
Definition acceptPendingSignal (signalNumber : Z) (tcb : ThreadControlBlock)
    : Z * ThreadControlBlock :=
  if (signalNumber <? 32) && Z.testbit (pendingSignalSet_ tcb) signalNumber then
    (0, setPendingSignalSet (Z.clearbit (pendingSignalSet_ tcb) signalNumber) tcb)
  else (EINVAL, tcb).

(** Modelled from the spec: [ThreadControlBlock::generateSignal] is declared
    in the header, its body is not among the sources.  "0 <= n <= 31 else
    EINVAL.  Set bit n in target.pending.  If target.state ==
    WaitingForSignal and target.waiting_mask & pending != 0, unblock
    target." *)
Definition ThreadControlBlock_generateSignal (t : ThreadId) (signalNumber : Z)
    (k : Scheduler) : option (Z * Scheduler) :=
  match threadControlBlocks k !! t with
  | None => None
  | Some tcb =>
      if 32 <=? signalNumber then Some (EINVAL, k)
      else
        let pending := Z.setbit (pendingSignalSet_ tcb) signalNumber in
        let k' := putThreadControlBlock t (setPendingSignalSet pending tcb) k in
        match state_ tcb, waitingSignalSet_ tcb with
        | WaitingForSignal, Some waiting =>
            if Z.land waiting pending =? 0 then Some (0, k')
            else Some (0, Scheduler_unblock t k')
        | _, _ => Some (0, k')
        end
  end.

(** [ThisThread::Signals::generateSignal] *)
Definition Signals_generateSignal (signalNumber : Z) (k : Scheduler)
    : option (Z * Scheduler) :=
  match getCurrentThreadControlBlock k with
  | Some (t, _) => ThreadControlBlock_generateSignal t signalNumber k
  | None => None
  end.

(** [ThisThread::Signals::getPendingSignalSet] *)
Definition Signals_getPendingSignalSet (k : Scheduler) : option SignalSet :=
  match getCurrentThreadControlBlock k with
  | Some (_, tcb) => Some (pendingSignalSet_ tcb)
  | None => None
  end.

(** The last four statements of [waitImplementation]: the lowest signal of
    [bitset & pendingBitset] is accepted on the thread control block of the
    caller.  The [int] signal number becomes a [uint8_t] both as the argument
    of [acceptPendingSignal] and in the returned pair. *)
Definition waitImplementation_accept (bitset pendingBitset : Z) (t : ThreadId)
    (tcb : ThreadControlBlock) (k : Scheduler) : (Z * Z) * Scheduler :=
  let intersection := Z.land bitset pendingBitset in
  let signalNumber := builtin_ffsl intersection - 1 in
  let '(ret, tcb') := acceptPendingSignal (wrapU8 signalNumber) tcb in
  ((ret, wrapU8 signalNumber), putThreadControlBlock t tcb' k).

(** [waitImplementation] from the return of [block] / [blockUntil] on:
    [pendingSignalSet] is the local variable the functor wrote to. *)
Definition waitImplementation_afterBlock (ret : Z) (bitset pendingSignalSet : Z)
    (t : ThreadId) (tcb : ThreadControlBlock) (k : Scheduler) : (Z * Z) * Scheduler :=
  if negb (ret =? 0) then ((ret, 0), k)
  else waitImplementation_accept bitset pendingSignalSet t tcb k.

(** [waitImplementation], up to its return or the suspension in [block] /
    [blockUntil]; [timePoint = None] stands for [nullptr]. *)
Definition waitImplementation (signalSet : SignalSet) (nonBlocking : bool)
    (timePoint : option Z) (k : Scheduler)
    : option (Outcome (Z * Z) * Scheduler) :=
  match getCurrentThreadControlBlock k with
  | None => None
  | Some (t, tcb) =>
      let bitset := signalSet in
      let pendingSignalSet := pendingSignalSet_ tcb in
      let intersection := Z.land bitset pendingSignalSet in
      if intersection =? 0 then
        if nonBlocking then Some (Returned (EAGAIN, 0), k)
        else
          let waitingList := mkThreadControlBlockList (StackList t) WaitingForSignal in
          let k1 :=
            putThreadControlBlock t (setWaitingSignalSet (Some signalSet) tcb)
              (putList (StackList t) [] k) in
          let frame := SignalsWaitFrame bitset pendingSignalSet in
          match timePoint with
          | None =>
              match Scheduler_block waitingList (Some SignalsWaitUnblockFunctor) frame k1 with
              | Some k' => Some (Blocked, k')
              | None => None
              end
          | Some timePoint' =>
              match Scheduler_blockUntil waitingList timePoint'
                      (Some SignalsWaitUnblockFunctor) frame k1 with
              | Some (Blocked, k') => Some (Blocked, k')
              | Some (Returned ret, k') =>
                  match threadControlBlocks k' !! t with
                  | Some tcb' =>
                      let '(r, k'') :=
                        waitImplementation_afterBlock ret bitset (pendingSignalSet_ tcb') t tcb' k' in
                      Some (Returned r, k'')
                  | None => None
                  end
              | None => None
              end
          end
      else
        let '(r, k') := waitImplementation_accept bitset pendingSignalSet t tcb k in
        Some (Returned r, k')
  end.

(** [waitImplementation] on the resumed thread *)
Definition waitImplementation_resume (k : Scheduler) : option ((Z * Z) * Scheduler) :=
  match Scheduler_block_resume k with
  | Some (t, tcb, SignalsWaitFrame bitset pendingSignalSet, ret, k') =>
      Some (waitImplementation_afterBlock ret bitset pendingSignalSet t tcb k')
  | _ => None
  end.

(** [ThisThread::Signals::tryWait]: non-blocking mode *)
Definition Signals_tryWait (signalSet : SignalSet) (k : Scheduler) :=
  waitImplementation signalSet true None k.

(** [ThisThread::Signals::tryWaitUntil]: blocking mode, with timeout *)
Definition Signals_tryWaitUntil (signalSet : SignalSet) (timePoint : Z) (k : Scheduler) :=
  waitImplementation signalSet false (Some timePoint) k.

(** [ThisThread::Signals::tryWaitFor] *)
Definition Signals_tryWaitFor (signalSet : SignalSet) (duration : Z) (k : Scheduler) :=
  Signals_tryWaitUntil signalSet (wrapTick (wrapTick (TickClock_now k + duration) + 1)) k.

(** [ThisThread::Signals::wait]: blocking mode, no timeout *)
Definition Signals_wait (signalSet : SignalSet) (k : Scheduler) :=
  waitImplementation signalSet false None k.

(** ** Sequences of semaphore operations *)

(** [n] calls of [Semaphore::post] in a row, with the values they return *)
Fixpoint Semaphore_posts (n : nat) (s : Semaphore) (k : Scheduler)
    : list Z * Semaphore * Scheduler :=
  match n with
  | O => ([], s, k)
  | S n' =>
      let '(ret, s1, k1) := Semaphore_post s k in
      let '(rets, s2, k2) := Semaphore_posts n' s1 k1 in
      (ret :: rets, s2, k2)
  end.

(** [n] calls of [Semaphore::tryWait] in a row, with the values they return *)
Fixpoint Semaphore_tryWaits (n : nat) (s : Semaphore) (k : Scheduler)
    : list Z * Semaphore * Scheduler :=
  match n with
  | O => ([], s, k)
  | S n' =>
      let '(ret, s1, k1) := Semaphore_tryWait s k in
      let '(rets, s2, k2) := Semaphore_tryWaits n' s1 k1 in
      (ret :: rets, s2, k2)
  end.

(** the two operations of a semaphore that never suspend their caller *)
Inductive SemaphoreCall :=
  | CallPost
  | CallTryWait.

(** A sequence of such calls on one semaphore, in program order; the log has
    one entry per call: whether it was a [post] and what it returned. *)
Fixpoint Semaphore_calls (calls : list SemaphoreCall) (s : Semaphore) (k : Scheduler)
    : list (bool * Z) * Semaphore * Scheduler :=
  match calls with
  | [] => ([], s, k)
  | CallPost :: calls' =>
      let '(ret, s1, k1) := Semaphore_post s k in
      let '(log, s2, k2) := Semaphore_calls calls' s1 k1 in
      ((true, ret) :: log, s2, k2)
  | CallTryWait :: calls' =>
      let '(ret, s1, k1) := Semaphore_tryWait s k in
      let '(log, s2, k2) := Semaphore_calls calls' s1 k1 in
      ((false, ret) :: log, s2, k2)
  end.

(** the number of calls of one kind in the log that returned 0 *)
Fixpoint successfulCalls (post : bool) (log : list (bool * Z)) : Z :=
  match log with
  | [] => 0
  | (isPost, ret) :: log' =>
      (if Bool.eqb isPost post && (ret =? 0) then 1 else 0) + successfulCalls post log'
  end.

(** The control block of a thread suspended in [waitImplementation]: it
    waits for [signalSet] on the list local to the call, with the functor
    installed and the pending set of the moment in its local variable. *)
Definition signalsWaitingThreadControlBlock (t : ThreadId) (signalSet : SignalSet)
    (tcb : ThreadControlBlock) : ThreadControlBlock :=
  blockedThreadControlBlock
    (mkThreadControlBlockList (StackList t) WaitingForSignal)
    (Some SignalsWaitUnblockFunctor)
    (SignalsWaitFrame signalSet (pendingSignalSet_ tcb))
    (setWaitingSignalSet (Some signalSet) tcb).

(** ** Predicates on the state *)

(** The range of [Semaphore::Value] together with what the constructor
    establishes about the two members. *)
Definition valueBounded (s : Semaphore) : Prop :=
  0 <= value_ s /\ value_ s <= maxValue_ s /\ maxValue_ s <= UINT_MAX.

(** The list of a semaphore is a member of the semaphore, never the
    scheduler's list of runnable threads. *)
Definition ownList (s : Semaphore) : Prop :=
  exists address, listId (blockedList_ s) = ObjectList address.

(** Every thread on a list has a control block whose [list_] points back at
    that list. *)
Definition listsConsistent (k : Scheduler) : Prop :=
  forall l t, t ∈ getList k l ->
    exists tcb, threadControlBlocks k !! t = Some tcb /\ list_ tcb = Some l.


(** [value == 0] or the blocked list is empty *)
Definition semaphoreInvariant (s : Semaphore) (k : Scheduler) : Prop :=
  value_ s = 0 \/ blockedThreads s k = [].

(** [n] is the lowest-numbered member of the signal set [x] *)
Definition lowestSignal (n : Z) (x : Z) : Prop :=
  0 <= n < 32 /\ Z.testbit x n = true /\
  forall j, 0 <= j < n -> Z.testbit x j = false.

(** The codes section 6 of the specification lists, and a status that is
    zero or one of them. *)
Definition kernelErrorCodes : list Z :=
  [EINVAL; EAGAIN; ETIMEDOUT; EDEADLK; EPERM; EOVERFLOW; EINTR].

Definition listedStatus (ret : Z) : Prop := ret = 0 \/ ret ∈ kernelErrorCodes.

(** no one-shot timer of thread [t] is running *)
Definition noTimerOf (t : nat) (k : Scheduler) : Prop :=
  forall dt, dt ∈ softwareTimers_ k -> dt.2 <> t.

(** The states a semaphore and the scheduler go through: the semaphore is
    constructed, then operated on, while ticks pass and suspended callers are
    resumed.  Each step is one kernel critical section. *)
Inductive reachable : Semaphore -> Scheduler -> Prop :=
  | reachable_construct address value maxValue k0 s k :
      Semaphore_Semaphore address value maxValue k0 = (s, k) -> reachable s k
  | reachable_post s k ret s' k' :
      reachable s k -> Semaphore_post s k = (ret, s', k') -> reachable s' k'
  | reachable_tryWait s k ret s' k' :
      reachable s k -> Semaphore_tryWait s k = (ret, s', k') -> reachable s' k'
  | reachable_wait s k o s' k' :
      reachable s k -> Semaphore_wait s k = Some (o, s', k') -> reachable s' k'
  | reachable_tryWaitUntil s k timePoint o s' k' :
      reachable s k -> Semaphore_tryWaitUntil s timePoint k = Some (o, s', k') ->
      reachable s' k'
  | reachable_tryWaitFor s k duration o s' k' :
      reachable s k -> Semaphore_tryWaitFor s duration k = Some (o, s', k') ->
      reachable s' k'
  | reachable_resume s k ret k' :
      reachable s k -> Semaphore_wait_resume k = Some (ret, k') -> reachable s k'
  | reachable_tick s k :
      reachable s k -> reachable s (tickHook k).

(** The thread [t], suspended with control block [tcb], has a timer running
    for [deadline] and for no other time, and the clock shows [now]. *)
Definition waitingUntil (t : nat) (tcb : ThreadControlBlock) (deadline now : Z)
    (k : Scheduler) : Prop :=
  tickCount_ k = now
  /\ threadControlBlocks k !! t = Some tcb
  /\ (deadline, t) ∈ softwareTimers_ k
  /\ (forall dt, dt ∈ softwareTimers_ k -> dt.2 = t -> dt.1 = deadline).

(** ** Example states *)

(** a thread that has not been started *)
Definition newThread (priority : Z) : ThreadControlBlock :=
  mkThreadControlBlock None None (unblockReason_ UnblockRequest) 0 None priority 0 New.

(** a thread on the runnable list, executing or ready to execute its code *)
Definition runnableThread (priority : Z) (pending : Z) : ThreadControlBlock :=
  mkThreadControlBlock None (Some RunnableList) (unblockReason_ UnblockRequest)
    pending None priority 0 Runnable.

(** a thread suspended in [Semaphore::wait] on the list [l] *)
Definition waitingThread (priority : Z) (pending : Z) (l : ListId)
    : ThreadControlBlock :=
  mkThreadControlBlock (Some SemaphoreWaitFrame) (Some l) (unblockFunctor_ None)
    pending None priority 0 BlockedOnSemaphore.

(** Thread 1 (priority 1) runs, thread 0 (priority 0) is ready, thread 2
    (priority 2) has not been started; signals 5 and 7 are pending for
    thread 1; the list of the semaphore at address 100 is empty. *)
Definition exampleRunning : Scheduler :=
  mkScheduler
    (<[2%nat := newThread 2]>
      (<[1%nat := runnableThread 1 160]> {[0%nat := runnableThread 0 0]}))
    (<[ObjectList 100 := []]> {[RunnableList := [1%nat; 0%nat]]})
    0 [].

(** Thread 0 runs; threads 2 and 1 wait, in this order, on the list of the
    semaphore at address 100. *)
Definition exampleWaiters : Scheduler :=
  mkScheduler
    (<[2%nat := waitingThread 2 0 (ObjectList 100)]>
      (<[1%nat := waitingThread 1 160 (ObjectList 100)]> {[0%nat := runnableThread 0 0]}))
    (<[ObjectList 100 := [2%nat; 1%nat]]> {[RunnableList := [0%nat]]})
    0 [].

(** the semaphore at address 100, with the given value and no bound but that
    of its type *)
Definition exampleSemaphore (value : Z) : Semaphore :=
  mkSemaphore (mkThreadControlBlockList (ObjectList 100) BlockedOnSemaphore)
    value UINT_MAX.

(** the semaphore [Semaphore(0, 0)] at address 100: its maximum is 0 *)
Definition zeroSemaphore : Semaphore :=
  mkSemaphore (mkThreadControlBlockList (ObjectList 100) BlockedOnSemaphore) 0 0.

(** The run that leads from [exampleRunning] to [exampleWaiters]: thread 1
    waits for the semaphore, thread 0 starts thread 2, thread 2 waits for the
    semaphore. *)
Definition afterFirstWait : Scheduler :=
  match Semaphore_wait (exampleSemaphore 0) exampleRunning with
  | Some (_, _, k) => k
  | None => exampleRunning
  end.

Definition afterStart : Scheduler :=
  match ThreadBase_start (mkThreadBase 2 (exampleSemaphore 0)) afterFirstWait with
  | Some (_, k) => k
  | None => afterFirstWait
  end.

Definition afterSecondWait : Scheduler :=
  match Semaphore_wait (exampleSemaphore 0) afterStart with
  | Some (_, _, k) => k
  | None => afterStart
  end.

(** Scenario 4 of the specification: thread 1, with no signal pending,
    waits for signals 3 and 7; signal 5 is generated for it, then signal 7. *)
Definition exampleQuiet : Scheduler :=
  mkScheduler
    (<[1%nat := runnableThread 1 0]> {[0%nat := runnableThread 0 0]})
    {[RunnableList := [1%nat; 0%nat]]}
    0 [].

Definition afterSignalsWait : Scheduler :=
  match Signals_wait 136 exampleQuiet with
  | Some (_, k) => k
  | None => exampleQuiet
  end.

Definition afterSignal5 : Scheduler :=
  match ThreadControlBlock_generateSignal 1 5 afterSignalsWait with
  | Some (_, k) => k
  | None => afterSignalsWait
  end.

Definition afterSignal7 : Scheduler :=
  match ThreadControlBlock_generateSignal 1 7 afterSignal5 with
  | Some (_, k) => k
  | None => afterSignal5
  end.

(** The thread lists are consistent with the control blocks and no thread
    is twice on a list. *)
Definition kernelInvariant (k : Scheduler) : Prop :=
  listsConsistent k /\ forall l, NoDup (getList k l).

(** ** The order of arrival of the waiters *)







(** * Properties *)

(** ** Reading the scheduler after an update *)

(** closes a goal that has a thread on the empty list *)
Ltac in_nil :=
  match goal with
  | H : _ ∈ [] |- _ => by apply elem_of_nil in H
  end.

Lemma getList_putList (l l' : ListId) (ts : list nat) (k : Scheduler) :
  getList (putList l ts k) l' = if decide (l = l') then ts else getList k l'.
Proof.
  unfold getList, putList; simpl.
  rewrite lookup_insert. by case_decide.
Qed.

Lemma getList_putList_eq (l : ListId) (ts : list nat) (k : Scheduler) :
  getList (putList l ts k) l = ts.
Proof. rewrite getList_putList. by case_decide. Qed.

Lemma getList_putList_ne (l l' : ListId) (ts : list nat) (k : Scheduler) :
  l <> l' -> getList (putList l ts k) l' = getList k l'.
Proof. intros. rewrite getList_putList. by case_decide. Qed.

Lemma getList_putThreadControlBlock t tcb k l :
  getList (putThreadControlBlock t tcb k) l = getList k l.
Proof. reflexivity. Qed.

Lemma lookup_putThreadControlBlock t u tcb k :
  threadControlBlocks (putThreadControlBlock t tcb k) !! u
  = if decide (t = u) then Some tcb else threadControlBlocks k !! u.
Proof. unfold putThreadControlBlock; simpl. by rewrite lookup_insert. Qed.

Lemma lookup_putThreadControlBlock_eq t tcb k :
  threadControlBlocks (putThreadControlBlock t tcb k) !! t = Some tcb.
Proof. rewrite lookup_putThreadControlBlock. by case_decide. Qed.

Lemma lookup_putThreadControlBlock_ne t u tcb k :
  t <> u ->
  threadControlBlocks (putThreadControlBlock t tcb k) !! u = threadControlBlocks k !! u.
Proof. intros. rewrite lookup_putThreadControlBlock. by case_decide. Qed.

Lemma getCurrentThreadControlBlock_Some k t tcb :
  getCurrentThreadControlBlock k = Some (t, tcb) <->
  (exists rest, getList k RunnableList = t :: rest)
  /\ threadControlBlocks k !! t = Some tcb.
Proof.
  unfold getCurrentThreadControlBlock. split.
  - destruct (getList k RunnableList) as [|t0 rest]; [done|].
    destruct (threadControlBlocks k !! t0) as [tcb0|] eqn:E; [|done].
    intros [= <- <-]. split; [by exists rest|done].
  - intros [[rest ->] ->]. done.
Qed.

(** ** Machine integers *)

Lemma wrapValue_small (z : Z) : 0 <= z <= UINT_MAX -> wrapValue z = z.
Proof. unfold wrapValue, UINT_MAX. intros. apply Z.mod_small. lia. Qed.

Lemma wrapTick_small (z : Z) : 0 <= z < 2 ^ 64 -> wrapTick z = z.
Proof. unfold wrapTick. intros. by apply Z.mod_small. Qed.

Lemma wrapU8_signalNumber n : 0 <= n < 32 -> wrapU8 (n + 1 - 1) = n.
Proof. intros. unfold wrapU8. replace (n + 1 - 1) with n by lia. apply Z.mod_small. lia. Qed.

(** ** Thread lists *)

Lemma eraseThread_head t l : eraseThread t (t :: l) = l.
Proof. simpl. by rewrite Nat.eqb_refl. Qed.

Lemma eraseThread_elem t u l : u ∈ eraseThread t l -> u ∈ l.
Proof.
  induction l as [|x l IH]; simpl; [done|].
  destruct (Nat.eqb_spec x t); rewrite ?elem_of_cons; [tauto|].
  intros [->|H]; [by left|right; by apply IH].
Qed.

Lemma eraseThread_NoDup t l : NoDup l -> NoDup (eraseThread t l).
Proof.
  induction l as [|x l IH]; simpl; [done|].
  rewrite NoDup_cons. intros [Hx Hl].
  destruct (Nat.eqb_spec x t); [done|].
  apply NoDup_cons. split; [|by apply IH].
  intros H. by apply Hx, (eraseThread_elem t).
Qed.

Lemma eraseThread_gone t l : NoDup l -> t ∉ eraseThread t l.
Proof.
  induction l as [|x l IH]; simpl; [intros _ H; in_nil|].
  rewrite NoDup_cons. intros [Hx Hl].
  destruct (Nat.eqb_spec x t) as [->|Hne]; [done|].
  rewrite not_elem_of_cons. split; [done|by apply IH].
Qed.

Lemma sortedInsert_elem prio t l u : u ∈ sortedInsert prio t l <-> u = t \/ u ∈ l.
Proof.
  induction l as [|x l IH]; simpl.
  - rewrite list_elem_of_singleton. split; [by left|].
    intros [H|H]; [done|]. by apply elem_of_nil in H.
  - destruct (prio x <? prio t); rewrite ?elem_of_cons, ?IH; tauto.
Qed.

Lemma sortedInsert_NoDup prio t l :
  t ∉ l -> NoDup l -> NoDup (sortedInsert prio t l).
Proof.
  induction l as [|x l IH]; simpl; intros Ht Hl.
  - apply NoDup_cons. split; [done|apply NoDup_nil_2].
  - destruct (prio x <? prio t); [by apply NoDup_cons|].
    apply not_elem_of_cons in Ht as [Hne Ht].
    apply NoDup_cons in Hl as [Hx Hl].
    apply NoDup_cons. split; [|by apply IH].
    rewrite sortedInsert_elem. intros [->|H]; done.
Qed.



(** ** Blocking and unblocking *)

Lemma unblockHook_unblockInfo reason tcb :
  unblockInfo_ (unblockHook reason tcb) = unblockReason_ reason.
Proof.
  unfold unblockHook.
  destruct (unblockInfo_ tcb) as [[[]|]|]; simpl; try reflexivity.
  by destruct (stack_ tcb) as [[]|].
Qed.

Lemma unblockHook_SignalsWait reason tcb bitset old :
  stack_ tcb = Some (SignalsWaitFrame bitset old) ->
  unblockInfo_ tcb = unblockFunctor_ (Some SignalsWaitUnblockFunctor) ->
  unblockHook reason tcb
  = setWaitingSignalSet None
      (setStack (Some (SignalsWaitFrame bitset (pendingSignalSet_ tcb)))
        (setUnblockInfo (unblockReason_ reason) tcb)).
Proof.
  intros Hs Hu. unfold unblockHook. rewrite Hu. simpl. by rewrite Hs.
Qed.

Lemma unblockedThreadControlBlock_fields reason tcb :
  state_ (unblockedThreadControlBlock reason tcb) = Runnable
  /\ list_ (unblockedThreadControlBlock reason tcb) = Some RunnableList
  /\ unblockInfo_ (unblockedThreadControlBlock reason tcb) = unblockReason_ reason.
Proof.
  unfold unblockedThreadControlBlock. simpl.
  repeat split. apply unblockHook_unblockInfo.
Qed.

Lemma unblockInternal_lookup_eq t reason k tcb :
  threadControlBlocks k !! t = Some tcb ->
  threadControlBlocks (unblockInternal t reason k) !! t
  = Some (unblockedThreadControlBlock reason tcb).
Proof.
  intros H. unfold unblockInternal. rewrite H. simpl.
  by rewrite lookup_insert_eq.
Qed.

Lemma unblockInternal_lookup_ne t u reason k :
  t <> u ->
  threadControlBlocks (unblockInternal t reason k) !! u = threadControlBlocks k !! u.
Proof.
  intros Hne. unfold unblockInternal.
  destruct (threadControlBlocks k !! t) as [tcb|] eqn:E; [|done].
  simpl. rewrite lookup_insert_ne by done.
  by destruct (list_ tcb).
Qed.

Lemma unblockInternal_runnable t reason k tcb :
  threadControlBlocks k !! t = Some tcb ->
  t ∈ getList (unblockInternal t reason k) RunnableList.
Proof.
  intros H. unfold unblockInternal. rewrite H.
  rewrite getList_putList_eq. apply sortedInsert_elem. by left.
Qed.

Lemma unblockInternal_list_head t reason k tcb l rest :
  threadControlBlocks k !! t = Some tcb -> list_ tcb = Some l ->
  l <> RunnableList -> getList k l = t :: rest ->
  getList (unblockInternal t reason k) l = rest.
Proof.
  intros H Hl Hne Hg. unfold unblockInternal. rewrite H, Hl, Hg.
  rewrite getList_putList_ne by done.
  rewrite getList_putThreadControlBlock, getList_putList_eq.
  apply eraseThread_head.
Qed.

(** A timeout takes threads off blocked lists, it never puts one there. *)
Lemma unblockInternal_list_nil t reason k l :
  l <> RunnableList -> getList k l = [] ->
  getList (unblockInternal t reason k) l = [].
Proof.
  intros Hne Hl. unfold unblockInternal.
  destruct (threadControlBlocks k !! t) as [tcb|]; [|done].
  rewrite getList_putList_ne by done.
  rewrite getList_putThreadControlBlock.
  destruct (list_ tcb) as [l0|]; [|done].
  rewrite getList_putList. case_decide; [|done].
  subst l0. by rewrite Hl.
Qed.

Lemma unblockInternal_softwareTimers t reason k :
  softwareTimers_ (unblockInternal t reason k) = softwareTimers_ k.
Proof.
  unfold unblockInternal.
  destruct (threadControlBlocks k !! t) as [tcb|]; [|done].
  by destruct (list_ tcb).
Qed.

Lemma unblockInternal_tickCount t reason k :
  tickCount_ (unblockInternal t reason k) = tickCount_ k.
Proof.
  unfold unblockInternal.
  destruct (threadControlBlocks k !! t) as [tcb|]; [|done].
  by destruct (list_ tcb).
Qed.

Lemma Scheduler_block_current container functor frame k t tcb :
  getCurrentThreadControlBlock k = Some (t, tcb) ->
  exists k',
    Scheduler_block container functor frame k = Some k'
    /\ threadControlBlocks k' !! t
       = Some (blockedThreadControlBlock container functor frame tcb)
    /\ (forall u, u <> t -> threadControlBlocks k' !! u = threadControlBlocks k !! u)
    /\ t ∈ getList k' (listId container)
    /\ softwareTimers_ k' = softwareTimers_ k
    /\ tickCount_ k' = tickCount_ k.
Proof.
  intros Hc. unfold Scheduler_block. rewrite Hc.
  eexists. split; [reflexivity|]. repeat split.
  - simpl. by rewrite lookup_insert_eq.
  - intros u Hu. simpl. by rewrite lookup_insert_ne.
  - rewrite getList_putList_eq. apply sortedInsert_elem. by left.
Qed.

Lemma Scheduler_blockUntil_returned container timePoint functor frame k ret k' :
  Scheduler_blockUntil container timePoint functor frame k = Some (Returned ret, k') ->
  ret = ETIMEDOUT.
Proof.
  unfold Scheduler_blockUntil.
  destruct (getCurrentThreadControlBlock k) as [[t tcb]|]; [|done].
  destruct (timePoint <=? TickClock_now k).
  - destruct functor; by intros [= <- <-].
  - by destruct (Scheduler_block _ _ _ _).
Qed.

Lemma Scheduler_block_resume_lists k t tcb frame ret k' l :
  Scheduler_block_resume k = Some (t, tcb, frame, ret, k') ->
  getList k' l = getList k l.
Proof.
  unfold Scheduler_block_resume.
  destruct (getCurrentThreadControlBlock k) as [[t0 tcb0]|]; [|done].
  destruct (stack_ tcb0); [|done].
  destruct (unblockInfo_ tcb0); [done|].
  by intros [= <- <- <- <- <-].
Qed.

(** ** The thread lists stay consistent *)

(** Moving a thread: its node is erased from the list its control block
    names and inserted into the list [l'], and the control block is replaced
    by one that names [l']. *)
Lemma moveThread_invariant k t tcb tcb' l' prio :
  kernelInvariant k ->
  threadControlBlocks k !! t = Some tcb ->
  list_ tcb' = Some l' ->
  let k1 :=
    match list_ tcb with
    | Some l => putList l (eraseThread t (getList k l)) k
    | None => k
    end in
  let k2 := putThreadControlBlock t tcb' k1 in
  kernelInvariant (putList l' (sortedInsert prio t (getList k2 l')) k2).
Proof.
  intros [Hc Hd] Ht Hl' k1 k2.
  assert (Hgone : forall l, t ∉ getList k1 l).
  { intros l Hin. unfold k1 in Hin.
    destruct (list_ tcb) as [l0|] eqn:E.
    - rewrite getList_putList in Hin. case_decide as El.
      + by apply (eraseThread_gone t (getList k l0)).
      + destruct (Hc l t Hin) as (tcb0 & H0 & Hl0). congruence.
    - destruct (Hc l t Hin) as (tcb0 & H0 & Hl0). congruence. }
  assert (Hsub : forall l u, u ∈ getList k1 l -> u ∈ getList k l).
  { intros l u. unfold k1. destruct (list_ tcb) as [l0|]; [|done].
    rewrite getList_putList. case_decide; [subst l0; apply eraseThread_elem|done]. }
  assert (Hd1 : forall l, NoDup (getList k1 l)).
  { intros l. unfold k1. destruct (list_ tcb) as [l0|]; [|done].
    rewrite getList_putList. case_decide; [by apply eraseThread_NoDup|done]. }
  assert (Ht1 : forall u, u <> t ->
            threadControlBlocks k2 !! u = threadControlBlocks k !! u).
  { intros u Hu. unfold k2. rewrite lookup_putThreadControlBlock_ne by done.
    unfold k1. by destruct (list_ tcb). }
  split.
  - intros l u Hin. rewrite getList_putList in Hin.
    destruct (decide (u = t)) as [->|Hu].
    + exists tcb'. split; [apply lookup_putThreadControlBlock_eq|].
      case_decide as El; [by subst|]. by destruct (Hgone l).
    + destruct (Hc l u) as (tcbu & Hu1 & Hu2).
      { apply Hsub. case_decide; [|done].
        subst l'. apply sortedInsert_elem in Hin as [|]; done. }
      exists tcbu. split; [|done].
      change (threadControlBlocks k2 !! u = Some tcbu). by rewrite Ht1.
  - intros l. rewrite getList_putList.
    case_decide; [|apply Hd1].
    apply sortedInsert_NoDup; [apply Hgone|apply Hd1].
Qed.

Lemma unblockInternal_invariant t reason k :
  kernelInvariant k -> kernelInvariant (unblockInternal t reason k).
Proof.
  intros Hk. unfold unblockInternal.
  destruct (threadControlBlocks k !! t) as [tcb|] eqn:E; [|done].
  by eapply moveThread_invariant.
Qed.



Lemma Scheduler_block_invariant container functor frame k k' :
  kernelInvariant k ->
  Scheduler_block container functor frame k = Some k' -> kernelInvariant k'.
Proof.
  intros Hk. unfold Scheduler_block.
  destruct (getCurrentThreadControlBlock k) as [[t tcb]|] eqn:Hc; [|done].
  intros [= <-].
  apply getCurrentThreadControlBlock_Some in Hc as [[rest Hr] Ht].
  destruct (proj1 Hk RunnableList t) as (tcb0 & Ht0 & Hl0).
  { rewrite Hr. by left. }
  assert (tcb0 = tcb) as -> by congruence.
  pose proof (moveThread_invariant k t tcb
                (blockedThreadControlBlock container functor frame tcb)
                (listId container)) as H.
  rewrite Hl0 in H. by apply H.
Qed.

Lemma Scheduler_add_invariant t k tcb :
  kernelInvariant k ->
  threadControlBlocks k !! t = Some tcb -> list_ tcb = None ->
  kernelInvariant (Scheduler_add t k).
Proof.
  intros Hk Ht Hl. unfold Scheduler_add. rewrite Ht.
  pose proof (moveThread_invariant k t tcb
                (setState Runnable (setList (Some RunnableList) tcb))
                RunnableList) as H.
  rewrite Hl in H. by apply H.
Qed.

(** ** The tick *)

Lemma startTimer_elem timePoint t l dt :
  dt ∈ startTimer timePoint t l <-> dt = (timePoint, t) \/ dt ∈ l.
Proof.
  induction l as [|[d u] l IH]; simpl.
  - rewrite list_elem_of_singleton. split; [by left|].
    intros [H|H]; [done|in_nil].
  - destruct (timePoint <? d); rewrite ?elem_of_cons, ?IH; tauto.
Qed.

Lemma timerCallback_lookup_ne u t k :
  u <> t ->
  threadControlBlocks (timerCallback u k) !! t = threadControlBlocks k !! t.
Proof.
  intros Hne. unfold timerCallback.
  destruct (threadControlBlocks k !! u) as [tcb|]; [|done].
  case_decide; [done|]. by apply unblockInternal_lookup_ne.
Qed.

Lemma timerCallback_runnable t k tcb :
  threadControlBlocks k !! t = Some tcb -> list_ tcb = Some RunnableList ->
  timerCallback t k = k.
Proof.
  intros H Hl. unfold timerCallback. rewrite H. by case_decide.
Qed.

Lemma timerCallback_blocked t k tcb :
  threadControlBlocks k !! t = Some tcb -> list_ tcb <> Some RunnableList ->
  threadControlBlocks (timerCallback t k) !! t
  = Some (unblockedThreadControlBlock Timeout tcb).
Proof.
  intros H Hl. unfold timerCallback. rewrite H.
  case_decide; [done|]. by apply unblockInternal_lookup_eq.
Qed.

Lemma timerCallback_softwareTimers t k :
  softwareTimers_ (timerCallback t k) = softwareTimers_ k.
Proof.
  unfold timerCallback.
  destruct (threadControlBlocks k !! t) as [tcb|]; [|done].
  case_decide; [done|]. apply unblockInternal_softwareTimers.
Qed.

Lemma timerCallback_tickCount t k :
  tickCount_ (timerCallback t k) = tickCount_ k.
Proof.
  unfold timerCallback.
  destruct (threadControlBlocks k !! t) as [tcb|]; [|done].
  case_decide; [done|]. apply unblockInternal_tickCount.
Qed.

Lemma timerCallback_list_nil t k l :
  l <> RunnableList -> getList k l = [] -> getList (timerCallback t k) l = [].
Proof.
  intros Hne Hl. unfold timerCallback.
  destruct (threadControlBlocks k !! t) as [tcb|]; [|done].
  case_decide; [done|]. by apply unblockInternal_list_nil.
Qed.

Lemma expireTimers_softwareTimers due k :
  softwareTimers_ (expireTimers due k) = softwareTimers_ k.
Proof.
  revert k. induction due as [|dt due IH]; intros k; [done|].
  unfold expireTimers in *. simpl. rewrite IH. apply timerCallback_softwareTimers.
Qed.

Lemma expireTimers_tickCount due k :
  tickCount_ (expireTimers due k) = tickCount_ k.
Proof.
  revert k. induction due as [|dt due IH]; intros k; [done|].
  unfold expireTimers in *. simpl. rewrite IH. apply timerCallback_tickCount.
Qed.

(** Timers of other threads leave the control block of [t] alone. *)
Lemma expireTimers_others due k t :
  (forall dt, dt ∈ due -> dt.2 <> t) ->
  threadControlBlocks (expireTimers due k) !! t = threadControlBlocks k !! t.
Proof.
  revert k. induction due as [|dt due IH]; intros k Hd; [done|].
  unfold expireTimers in *. simpl. rewrite IH.
  - apply timerCallback_lookup_ne. apply Hd. by left.
  - intros dt' H. apply Hd. by right.
Qed.

(** No timer touches a thread that is runnable. *)
Lemma expireTimers_runnable due k t tcb :
  threadControlBlocks k !! t = Some tcb -> list_ tcb = Some RunnableList ->
  threadControlBlocks (expireTimers due k) !! t = Some tcb.
Proof.
  revert k. induction due as [|dt due IH]; intros k H Hl; [done|].
  unfold expireTimers in *. simpl. apply IH; [|done].
  destruct (decide (dt.2 = t)) as [->|Hne].
  - by rewrite (timerCallback_runnable _ _ _ H Hl).
  - by rewrite timerCallback_lookup_ne.
Qed.

(** A due timer of a blocked thread unblocks it with reason [Timeout]. *)
Lemma expireTimers_blocked due k t tcb :
  threadControlBlocks k !! t = Some tcb -> list_ tcb <> Some RunnableList ->
  (exists dt, dt ∈ due /\ dt.2 = t) ->
  threadControlBlocks (expireTimers due k) !! t
  = Some (unblockedThreadControlBlock Timeout tcb).
Proof.
  revert k. induction due as [|dt due IH]; intros k H Hl (dt' & Hin & Ht).
  - in_nil.
  - unfold expireTimers in *. simpl.
    destruct (decide (dt.2 = t)) as [E|Hne].
    + rewrite E. eapply expireTimers_runnable.
      * by apply timerCallback_blocked.
      * apply unblockedThreadControlBlock_fields.
    + apply IH; [by rewrite timerCallback_lookup_ne|done|].
      apply elem_of_cons in Hin as [->|Hin]; [done|]. by exists dt'.
Qed.

Lemma tickHook_list_nil k l :
  l <> RunnableList -> getList k l = [] -> getList (tickHook k) l = [].
Proof.
  intros Hne Hl. unfold tickHook, expireTimers.
  set (k0 := putSoftwareTimers _ _).
  assert (H0 : getList k0 l = []) by done.
  clearbody k0. revert k0 H0.
  induction (filter _ (softwareTimers_ k)) as [|dt due IH]; intros k0 H0; [done|].
  simpl. apply IH. by apply timerCallback_list_nil.
Qed.

Lemma tickHook_before t tcb deadline now k :
  waitingUntil t tcb deadline now k ->
  0 <= now -> now + 1 < deadline -> deadline < 2 ^ 64 ->
  waitingUntil t tcb deadline (now + 1) (tickHook k).
Proof.
  intros (Hn & Ht & Hin & Hall) H0 Hlt Hd. unfold tickHook.
  rewrite Hn, wrapTick_small by lia.
  repeat split.
  - by rewrite expireTimers_tickCount.
  - rewrite expireTimers_others; [done|].
    intros dt Hdt E. apply list_elem_of_filter in Hdt as [Hdue Hdt].
    specialize (Hall dt Hdt E). lia.
  - rewrite expireTimers_softwareTimers. simpl.
    apply list_elem_of_filter. split; [simpl; lia|done].
  - rewrite expireTimers_softwareTimers. simpl.
    intros dt Hdt. apply list_elem_of_filter in Hdt as [_ Hdt]. by apply Hall.
Qed.

Lemma tickHook_deadline t tcb deadline now k :
  waitingUntil t tcb deadline now k ->
  list_ tcb <> Some RunnableList ->
  0 <= now -> now + 1 = deadline -> deadline < 2 ^ 64 ->
  tickCount_ (tickHook k) = deadline
  /\ threadControlBlocks (tickHook k) !! t
     = Some (unblockedThreadControlBlock Timeout tcb).
Proof.
  intros (Hn & Ht & Hin & Hall) Hl H0 He Hd. unfold tickHook.
  rewrite Hn, wrapTick_small by lia. split.
  - rewrite expireTimers_tickCount. simpl. lia.
  - apply expireTimers_blocked; [done..|].
    exists (deadline, t). split; [|done].
    apply list_elem_of_filter. split; [simpl; lia|done].
Qed.

Lemma ticks_before t tcb deadline now k (j : nat) :
  waitingUntil t tcb deadline now k ->
  0 <= now -> now + Z.of_nat j < deadline -> deadline < 2 ^ 64 ->
  waitingUntil t tcb deadline (now + Z.of_nat j) (ticks j k).
Proof.
  revert now k. induction j as [|j IH]; intros now k Hw H0 Hlt Hd.
  - simpl. rewrite Z.add_0_r. exact Hw.
  - simpl ticks.
    replace (now + Z.of_nat (S j)) with (now + 1 + Z.of_nat j) by lia.
    apply IH; [|lia..]. apply tickHook_before; [done|lia..].
Qed.

Lemma ticks_S j k : ticks (S j) k = tickHook (ticks j k).
Proof.
  revert k. induction j as [|j IH]; intros k; [done|].
  change (ticks (S (S j)) k) with (ticks (S j) (tickHook k)).
  rewrite IH. reflexivity.
Qed.

(** ** Semaphore: the paths through each operation *)

Lemma setValue_id (s : Semaphore) : setValue (value_ s) s = s.
Proof. by destruct s. Qed.

Lemma Semaphore_tryWaitInternal_zero s :
  value_ s = 0 -> Semaphore_tryWaitInternal s = (EAGAIN, s).
Proof. unfold Semaphore_tryWaitInternal. intros ->. reflexivity. Qed.

Lemma Semaphore_tryWaitInternal_pos s :
  0 <= value_ s <= UINT_MAX -> value_ s <> 0 ->
  Semaphore_tryWaitInternal s = (0, setValue (value_ s - 1) s).
Proof.
  unfold Semaphore_tryWaitInternal. intros Hr Hv.
  destruct (Z.eqb_spec (value_ s) 0) as [|_]; [done|].
  rewrite wrapValue_small by lia. reflexivity.
Qed.

Lemma Semaphore_tryWaitInternal_cases s :
  (Semaphore_tryWaitInternal s = (EAGAIN, s) /\ value_ s = 0)
  \/ (Semaphore_tryWaitInternal s = (0, setValue (wrapValue (value_ s - 1)) s)
      /\ value_ s <> 0).
Proof.
  unfold Semaphore_tryWaitInternal.
  destruct (Z.eqb_spec (value_ s) 0); [left | right]; done.
Qed.

Lemma Semaphore_post_overflow s k :
  value_ s = maxValue_ s -> Semaphore_post s k = (EOVERFLOW, s, k).
Proof. unfold Semaphore_post. intros ->. by rewrite Z.eqb_refl. Qed.

Lemma Semaphore_post_increment s k :
  valueBounded s -> value_ s <> maxValue_ s -> blockedThreads s k = [] ->
  Semaphore_post s k = (0, setValue (value_ s + 1) s, k).
Proof.
  unfold Semaphore_post. intros (H0 & Hle & Hmax) Hne ->.
  destruct (Z.eqb_spec (value_ s) (maxValue_ s)); [done|].
  rewrite wrapValue_small by lia. reflexivity.
Qed.

Lemma Semaphore_post_unblock s k t rest :
  value_ s <> maxValue_ s -> blockedThreads s k = t :: rest ->
  Semaphore_post s k = (0, s, Scheduler_unblock t k).
Proof.
  unfold Semaphore_post. intros Hne ->.
  by destruct (Z.eqb_spec (value_ s) (maxValue_ s)).
Qed.

Lemma Semaphore_post_cases s k :
  Semaphore_post s k = (EOVERFLOW, s, k) /\ value_ s = maxValue_ s
  \/ (exists t rest, blockedThreads s k = t :: rest /\ value_ s <> maxValue_ s
        /\ Semaphore_post s k = (0, s, Scheduler_unblock t k))
  \/ (blockedThreads s k = [] /\ value_ s <> maxValue_ s
        /\ Semaphore_post s k = (0, setValue (wrapValue (value_ s + 1)) s, k)).
Proof.
  unfold Semaphore_post.
  destruct (Z.eqb_spec (value_ s) (maxValue_ s)) as [E|E]; [by left|right].
  destruct (blockedThreads s k) as [|t rest]; [by right|left]. by exists t, rest.
Qed.

(** The two ways through [Semaphore::wait]. *)
Lemma Semaphore_wait_cases s k o s' k' :
  Semaphore_wait s k = Some (o, s', k') ->
  (value_ s <> 0 /\ o = Returned 0 /\ k' = k
   /\ s' = setValue (wrapValue (value_ s - 1)) s)
  \/ (value_ s = 0 /\ o = Blocked /\ s' = s
      /\ Scheduler_block (blockedList_ s) None SemaphoreWaitFrame k = Some k').
Proof.
  unfold Semaphore_wait.
  destruct (Semaphore_tryWaitInternal_cases s) as [[-> Hv]|[-> Hv]]; simpl.
  - destruct (Scheduler_block _ _ _ _) as [k1|]; [|done].
    intros [= <- <- <-]. by right.
  - intros [= <- <- <-]. by left.
Qed.

(** The two ways through [Semaphore::tryWaitUntil]. *)
Lemma Semaphore_tryWaitUntil_cases s timePoint k o s' k' :
  Semaphore_tryWaitUntil s timePoint k = Some (o, s', k') ->
  (value_ s <> 0 /\ o = Returned 0 /\ k' = k
   /\ s' = setValue (wrapValue (value_ s - 1)) s)
  \/ (value_ s = 0 /\ s' = s
      /\ Scheduler_blockUntil (blockedList_ s) timePoint None SemaphoreWaitFrame k
         = Some (o, k')).
Proof.
  unfold Semaphore_tryWaitUntil.
  destruct (Semaphore_tryWaitInternal_cases s) as [[-> Hv]|[-> Hv]]; simpl.
  - destruct (Scheduler_blockUntil _ _ _ _ _) as [[o1 k1]|]; [|done].
    intros [= <- <- <-]. by right.
  - intros [= <- <- <-]. by left.
Qed.

Lemma Semaphore_tryWaitFor_tryWaitUntil s duration k :
  Semaphore_tryWaitFor s duration k
  = Semaphore_tryWaitUntil s (wrapTick (TickClock_now k + duration + 1)) k.
Proof.
  unfold Semaphore_tryWaitFor, wrapTick.
  by rewrite Z.add_mod_idemp_l.
Qed.

Lemma Semaphore_wait_resume_lists k ret k' l :
  Semaphore_wait_resume k = Some (ret, k') -> getList k' l = getList k l.
Proof.
  unfold Semaphore_wait_resume.
  destruct (Scheduler_block_resume k) as [[[[[t tcb] frame] r] k1]|] eqn:E; [|done].
  destruct frame; [|done].
  intros [= <- <-]. by eapply Scheduler_block_resume_lists.
Qed.

(** [post] keeps the thread lists consistent. *)
Lemma Semaphore_post_invariant s k :
  kernelInvariant k -> kernelInvariant (Semaphore_post s k).2.
Proof.
  intros Hk.
  destruct (Semaphore_post_cases s k)
    as [[-> _]|[(t & rest & _ & _ & ->)|(_ & _ & ->)]]; simpl; try done.
  by apply unblockInternal_invariant.
Qed.

(** [wait] keeps the thread lists consistent. *)
Lemma Semaphore_wait_invariant s k o s' k' :
  kernelInvariant k -> Semaphore_wait s k = Some (o, s', k') -> kernelInvariant k'.
Proof.
  intros Hk H.
  apply Semaphore_wait_cases in H as [(_ & _ & -> & _)|(_ & _ & _ & H)]; [done|].
  by eapply Scheduler_block_invariant.
Qed.

(** ** Semaphore: post, tryWait and the round trip *)

(** C6: [Semaphore::tryWait] never blocks: the scheduler, with its runnable
    and blocked lists, comes back as it was.  With [value == 0] it answers
    [EAGAIN] and leaves the semaphore unchanged, otherwise it takes exactly 1
    off the value and answers 0. *)
Theorem Semaphore_tryWait_spec (s : Semaphore) (k : Scheduler) :
  0 <= value_ s <= UINT_MAX ->
  (value_ s = 0 -> Semaphore_tryWait s k = (EAGAIN, s, k))
  /\ (value_ s <> 0 -> Semaphore_tryWait s k = (0, setValue (value_ s - 1) s, k))
  /\ (Semaphore_tryWait s k).2 = k.
Proof.
  intros Hr. unfold Semaphore_tryWait. repeat split.
  - intros H. by rewrite Semaphore_tryWaitInternal_zero.
  - intros H. by rewrite Semaphore_tryWaitInternal_pos.
  - by destruct (Semaphore_tryWaitInternal s).
Qed.

(** C7: on a semaphore with an empty blocked list and a value below its
    maximum, [post(); wait()] answers 0 twice, [wait] does not block, and the
    semaphore is left with the value it had before. *)
Theorem Semaphore_post_wait (s : Semaphore) (k : Scheduler) :
  0 <= value_ s -> value_ s < maxValue_ s -> maxValue_ s <= UINT_MAX ->
  blockedThreads s k = [] ->
  exists s1,
    Semaphore_post s k = (0, s1, k)
    /\ Semaphore_wait s1 k = Some (Returned 0, s, k)
    /\ value_ s1 = value_ s + 1.
Proof.
  intros H0 Hlt Hmax Hl.
  exists (setValue (value_ s + 1) s). split; [|split; [|done]].
  - apply Semaphore_post_increment; [|lia|done]. unfold valueBounded. lia.
  - unfold Semaphore_wait.
    rewrite Semaphore_tryWaitInternal_pos by (simpl; lia). simpl.
    replace (value_ s + 1 - 1) with (value_ s) by lia.
    by destruct s.
Qed.

(** ** Semaphore: the value never exceeds the maximum *)

Lemma valueBounded_decrement s :
  valueBounded s -> value_ s <> 0 ->
  valueBounded (setValue (wrapValue (value_ s - 1)) s).
Proof.
  intros (H0 & Hle & Hmax) Hne. unfold valueBounded; simpl.
  rewrite wrapValue_small by lia. lia.
Qed.

Lemma valueBounded_constructor address value maxValue k :
  0 <= value <= UINT_MAX -> 0 <= maxValue <= UINT_MAX ->
  valueBounded (Semaphore_Semaphore address value maxValue k).1.
Proof.
  intros Hv Hm. unfold valueBounded; simpl.
  destruct (Z.leb_spec value maxValue); lia.
Qed.

Lemma valueBounded_post s k :
  valueBounded s -> valueBounded (Semaphore_post s k).1.2.
Proof.
  intros Hb.
  destruct (Semaphore_post_cases s k)
    as [[-> _]|[(t & rest & _ & _ & ->)|(_ & Hne & ->)]]; simpl; try done.
  destruct Hb as (H0 & Hle & Hmax). unfold valueBounded; simpl.
  rewrite wrapValue_small by lia. lia.
Qed.

Lemma valueBounded_tryWait s k :
  valueBounded s -> valueBounded (Semaphore_tryWait s k).1.2.
Proof.
  intros Hb. unfold Semaphore_tryWait.
  destruct (Semaphore_tryWaitInternal_cases s) as [[-> Hv]|[-> Hv]]; simpl;
    [done | by apply valueBounded_decrement].
Qed.

Lemma valueBounded_wait s k o s' k' :
  valueBounded s -> Semaphore_wait s k = Some (o, s', k') -> valueBounded s'.
Proof.
  intros Hb H.
  apply Semaphore_wait_cases in H as [(Hv & _ & _ & ->)|(_ & _ & -> & _)];
    [by apply valueBounded_decrement | done].
Qed.

Lemma valueBounded_tryWaitUntil s timePoint k o s' k' :
  valueBounded s -> Semaphore_tryWaitUntil s timePoint k = Some (o, s', k') ->
  valueBounded s'.
Proof.
  intros Hb H.
  apply Semaphore_tryWaitUntil_cases in H as [(Hv & _ & _ & ->)|(_ & -> & _)];
    [by apply valueBounded_decrement | done].
Qed.

(** C10: the constructor stores [maxValue] for an initial value above it, so
    [value <= maxValue] holds from the start, and every operation of the
    semaphore keeps it: [post] answers [EOVERFLOW] without touching the value
    once it has reached [maxValue]. *)
Theorem Semaphore_value_le_maxValue :
  (forall address value maxValue k,
     0 <= value <= UINT_MAX -> 0 <= maxValue <= UINT_MAX ->
     let s := (Semaphore_Semaphore address value maxValue k).1 in
     valueBounded s /\ maxValue_ s = maxValue
     /\ (maxValue < value -> value_ s = maxValue)
     /\ (value <= maxValue -> value_ s = value))
  /\ (forall s k, valueBounded s ->
        valueBounded (Semaphore_post s k).1.2
        /\ (value_ s = maxValue_ s -> Semaphore_post s k = (EOVERFLOW, s, k)))
  /\ (forall s k, valueBounded s -> valueBounded (Semaphore_tryWait s k).1.2)
  /\ (forall s k o s' k', valueBounded s ->
        Semaphore_wait s k = Some (o, s', k') -> valueBounded s')
  /\ (forall s timePoint k o s' k', valueBounded s ->
        Semaphore_tryWaitUntil s timePoint k = Some (o, s', k') -> valueBounded s')
  /\ (forall s duration k o s' k', valueBounded s ->
        Semaphore_tryWaitFor s duration k = Some (o, s', k') -> valueBounded s').
Proof.
  split.
  { intros address value maxValue k Hv Hm s.
    split; [by apply valueBounded_constructor|]. split; [done|].
    subst s; simpl. destruct (Z.leb_spec value maxValue); split; intros; lia. }
  split.
  { intros s k Hb. split; [by apply valueBounded_post|].
    apply Semaphore_post_overflow. }
  split; [apply valueBounded_tryWait|].
  split; [apply valueBounded_wait|].
  split; [apply valueBounded_tryWaitUntil|].
  intros s duration k. apply valueBounded_tryWaitUntil.
Qed.

(** ** Semaphore: value 0 or no waiter *)

Lemma semaphoreInvariant_post s k ret s' k' :
  semaphoreInvariant s k -> Semaphore_post s k = (ret, s', k') ->
  semaphoreInvariant s' k'.
Proof.
  intros Hi Hp.
  destruct (Semaphore_post_cases s k) as [[E _]|[(t & rest & Hl & _ & E)|(Hl & _ & E)]];
    rewrite E in Hp; injection Hp as <- <- <-.
  - done.
  - left. destruct Hi as [Hv|Hn]; [done|]. by rewrite Hl in Hn.
  - by right.
Qed.

Lemma semaphoreInvariant_tryWait s k ret s' k' :
  semaphoreInvariant s k -> Semaphore_tryWait s k = (ret, s', k') ->
  semaphoreInvariant s' k'.
Proof.
  unfold Semaphore_tryWait. intros Hi.
  destruct (Semaphore_tryWaitInternal_cases s) as [[-> Hv]|[-> Hv]];
    intros [= <- <- <-]; [done|].
  right. by destruct Hi.
Qed.

Lemma semaphoreInvariant_wait s k o s' k' :
  semaphoreInvariant s k -> Semaphore_wait s k = Some (o, s', k') ->
  semaphoreInvariant s' k'.
Proof.
  intros Hi Hw.
  apply Semaphore_wait_cases in Hw as [(Hv & _ & -> & ->)|(Hv & _ & -> & _)].
  - right. by destruct Hi.
  - by left.
Qed.

Lemma semaphoreInvariant_tryWaitUntil s timePoint k o s' k' :
  semaphoreInvariant s k -> Semaphore_tryWaitUntil s timePoint k = Some (o, s', k') ->
  semaphoreInvariant s' k'.
Proof.
  intros Hi Hw.
  apply Semaphore_tryWaitUntil_cases in Hw as [(Hv & _ & -> & ->)|(Hv & -> & _)].
  - right. by destruct Hi.
  - by left.
Qed.

Lemma reachable_invariant s k :
  reachable s k -> semaphoreInvariant s k /\ ownList s.
Proof.
  induction 1 as
    [a v m k0 s k Hc
    |s k ret s' k' _ [Hi Ho] Hp
    |s k ret s' k' _ [Hi Ho] Hp
    |s k o s' k' _ [Hi Ho] Hp
    |s k tp o s' k' _ [Hi Ho] Hp
    |s k d o s' k' _ [Hi Ho] Hp
    |s k ret k' _ [Hi Ho] Hp
    |s k _ [Hi Ho]].
  - injection Hc as <- <-. split.
    + right. unfold blockedThreads; simpl. apply getList_putList_eq.
    + by exists a.
  - split; [by eapply semaphoreInvariant_post|].
    destruct (Semaphore_post_cases s k) as [[E _]|[(t & rest & _ & _ & E)|(_ & _ & E)]];
      rewrite E in Hp; by injection Hp as <- <- <-.
  - split; [by eapply semaphoreInvariant_tryWait|].
    revert Hp. unfold Semaphore_tryWait.
    destruct (Semaphore_tryWaitInternal_cases s) as [[-> _]|[-> _]];
      by intros [= <- <- <-].
  - split; [by eapply semaphoreInvariant_wait|].
    by apply Semaphore_wait_cases in Hp as [(_ & _ & _ & ->)|(_ & _ & -> & _)].
  - split; [by eapply semaphoreInvariant_tryWaitUntil|].
    by apply Semaphore_tryWaitUntil_cases in Hp as [(_ & _ & _ & ->)|(_ & -> & _)].
  - split; [by eapply semaphoreInvariant_tryWaitUntil|].
    by apply Semaphore_tryWaitUntil_cases in Hp as [(_ & _ & _ & ->)|(_ & -> & _)].
  - split; [|done]. destruct Hi as [Hv|Hl]; [by left|right].
    unfold blockedThreads in *. by rewrite (Semaphore_wait_resume_lists _ _ _ _ Hp).
  - split; [|done]. destruct Hi as [Hv|Hl]; [by left|right].
    destruct Ho as [a Ha]. unfold blockedThreads in *.
    apply tickHook_list_nil; [by rewrite Ha|done].
Qed.

(** C5, as amended: [value == 0] or the blocked list is empty, in every
    state a semaphore reaches from its construction through its own
    operations, the resumes of its waiters and the ticks of the clock; and
    each of [post], [tryWait], [wait] and [tryWaitUntil] takes a state with
    this property to a state with this property.  While there are waiters
    [post] leaves the value alone; it unblocks the head waiter unless
    [value == maxValue], which with waiters present is the case exactly on
    a semaphore whose maximum is 0: there [post] answers [EOVERFLOW] and
    unblocks nobody.  [wait] and [tryWaitUntil] suspend the caller only at
    value 0. *)
Theorem Semaphore_invariant :
  (forall s k, reachable s k -> semaphoreInvariant s k)
  /\ (forall s k ret s' k', semaphoreInvariant s k ->
        Semaphore_post s k = (ret, s', k') -> semaphoreInvariant s' k')
  /\ (forall s k ret s' k', semaphoreInvariant s k ->
        Semaphore_tryWait s k = (ret, s', k') -> semaphoreInvariant s' k')
  /\ (forall s k o s' k', semaphoreInvariant s k ->
        Semaphore_wait s k = Some (o, s', k') -> semaphoreInvariant s' k')
  /\ (forall s timePoint k o s' k', semaphoreInvariant s k ->
        Semaphore_tryWaitUntil s timePoint k = Some (o, s', k') ->
        semaphoreInvariant s' k')
  /\ (forall s k, blockedThreads s k <> [] -> (Semaphore_post s k).1.2 = s)
  /\ (forall s k t rest, blockedThreads s k = t :: rest ->
        value_ s <> maxValue_ s ->
        Semaphore_post s k = (0, s, Scheduler_unblock t k))
  /\ (forall s k s' k', Semaphore_wait s k = Some (Blocked, s', k') ->
        value_ s = 0 /\ s' = s)
  /\ (forall s timePoint k s' k',
        Semaphore_tryWaitUntil s timePoint k = Some (Blocked, s', k') ->
        value_ s = 0 /\ s' = s)
  /\ (forall s k t rest, reachable s k -> blockedThreads s k = t :: rest ->
        value_ s = 0
        /\ (maxValue_ s <> 0 ->
            Semaphore_post s k = (0, s, Scheduler_unblock t k))
        /\ (maxValue_ s = 0 -> Semaphore_post s k = (EOVERFLOW, s, k))).
Proof.
  split; [intros s k H; by apply reachable_invariant|].
  split; [apply semaphoreInvariant_post|].
  split; [apply semaphoreInvariant_tryWait|].
  split; [apply semaphoreInvariant_wait|].
  split; [apply semaphoreInvariant_tryWaitUntil|].
  split; [|split; [|split; [|split]]].
  - intros s k Hne.
    by destruct (Semaphore_post_cases s k)
      as [[-> _]|[(t & rest & _ & _ & ->)|(Hl & _ & _)]].
  - intros s k t rest Hl Hne. by eapply Semaphore_post_unblock.
  - intros s k s' k' H.
    by apply Semaphore_wait_cases in H as [(_ & [=] & _)|(Hv & _ & -> & _)].
  - intros s timePoint k s' k' H.
    by apply Semaphore_tryWaitUntil_cases in H as [(_ & [=] & _)|(Hv & -> & _)].
  - intros s k t rest Hr Hl.
    assert (Hv : value_ s = 0).
    { destruct (proj1 (reachable_invariant s k Hr)) as [Hv|He]; [done|].
      by rewrite He in Hl. }
    split; [done|]. split.
    + intros Hm. eapply Semaphore_post_unblock; [|done]. by rewrite Hv.
    + intros Hm. apply Semaphore_post_overflow. by rewrite Hv.
Qed.

(** ** Semaphore: timed wait *)

(** A caller that finds the semaphore at 0 and a deadline in the future is
    suspended with its timer running. *)
Lemma Semaphore_tryWaitUntil_blocks s timePoint k t tcb :
  value_ s = 0 -> getCurrentThreadControlBlock k = Some (t, tcb) ->
  noTimerOf t k -> TickClock_now k < timePoint ->
  exists k1,
    Semaphore_tryWaitUntil s timePoint k = Some (Blocked, s, k1)
    /\ waitingUntil t
         (blockedThreadControlBlock (blockedList_ s) None SemaphoreWaitFrame tcb)
         timePoint (TickClock_now k) k1.
Proof.
  intros Hv Hc Hno Hlt.
  set (k0 := putSoftwareTimers (startTimer timePoint t (softwareTimers_ k)) k).
  assert (Hc0 : getCurrentThreadControlBlock k0 = Some (t, tcb)) by exact Hc.
  destruct (Scheduler_block_current (blockedList_ s) None SemaphoreWaitFrame k0 t tcb Hc0)
    as (k1 & Hb & Ht & _ & _ & Htimers & Htick).
  exists k1. split.
  - unfold Semaphore_tryWaitUntil. rewrite Semaphore_tryWaitInternal_zero by done.
    simpl. unfold Scheduler_blockUntil. rewrite Hc.
    destruct (Z.leb_spec timePoint (TickClock_now k)); [lia|].
    fold k0. by rewrite Hb.
  - repeat split; [done|done|..]; rewrite Htimers; simpl.
    + apply startTimer_elem. by left.
    + intros dt Hdt E. apply startTimer_elem in Hdt as [->|Hdt]; [done|].
      by destruct (Hno dt Hdt).
Qed.

(** C2, as amended: [tryWaitFor(d)] is [tryWaitUntil(now() + d + 1)], the sum
    being taken in the 64-bit type of the tick counter.  When that sum does
    not overflow, a caller that finds the semaphore at 0 is suspended; if
    the semaphore is not posted it is still suspended after each of the next
    [d] ticks and is unblocked with reason [Timeout] by tick [d + 1] exactly,
    so that the call returns [ETIMEDOUT] once the thread runs again. *)
Theorem Semaphore_tryWaitFor_timeout :
  (forall s duration k,
     Semaphore_tryWaitFor s duration k
     = Semaphore_tryWaitUntil s (wrapTick (TickClock_now k + duration + 1)) k)
  /\ (forall s duration k t tcb,
        value_ s = 0 -> ownList s ->
        getCurrentThreadControlBlock k = Some (t, tcb) -> noTimerOf t k ->
        0 <= TickClock_now k -> 0 <= duration ->
        TickClock_now k + duration + 1 < 2 ^ 64 ->
        let blocked :=
          blockedThreadControlBlock (blockedList_ s) None SemaphoreWaitFrame tcb in
        let timedOut := unblockedThreadControlBlock Timeout blocked in
        exists k1,
          Semaphore_tryWaitFor s duration k = Some (Blocked, s, k1)
          /\ (forall j : nat, Z.of_nat j <= duration ->
                threadControlBlocks (ticks j k1) !! t = Some blocked
                /\ TickClock_now (ticks j k1) = TickClock_now k + Z.of_nat j)
          /\ threadControlBlocks (ticks (S (Z.to_nat duration)) k1) !! t = Some timedOut
          /\ TickClock_now (ticks (S (Z.to_nat duration)) k1)
             = TickClock_now k + duration + 1
          /\ state_ timedOut = Runnable
          /\ (forall k2, getCurrentThreadControlBlock k2 = Some (t, timedOut) ->
                exists k3, Semaphore_wait_resume k2 = Some (ETIMEDOUT, k3))).
Proof.
  split; [apply Semaphore_tryWaitFor_tryWaitUntil|].
  intros s duration k t tcb Hv [a Ha] Hc Hno H0 Hd Hmax blocked timedOut.
  set (deadline := TickClock_now k + duration + 1) in *.
  destruct (Semaphore_tryWaitUntil_blocks s deadline k t tcb) as (k1 & Hw & Hwait);
    [done..|unfold deadline; lia|].
  fold blocked in Hwait.
  assert (Hlast :
    tickCount_ (ticks (S (Z.to_nat duration)) k1) = deadline
    /\ threadControlBlocks (ticks (S (Z.to_nat duration)) k1) !! t = Some timedOut).
  { rewrite ticks_S.
    apply tickHook_deadline with (now := TickClock_now k + Z.of_nat (Z.to_nat duration)).
    - apply ticks_before; [done|done|unfold deadline; lia|done].
    - unfold blocked. simpl. rewrite Ha. discriminate.
    - lia.
    - unfold deadline. lia.
    - done. }
  exists k1. split; [|split; [|split; [|split; [|split]]]].
  - rewrite Semaphore_tryWaitFor_tryWaitUntil.
    fold deadline. by rewrite wrapTick_small by lia.
  - intros j Hj.
    destruct (ticks_before t blocked deadline (TickClock_now k) k1 j)
      as (Hn & Ht & _); [done|done|unfold deadline; lia|done|].
    by split.
  - apply Hlast.
  - apply Hlast.
  - reflexivity.
  - intros k2 Hc2. eexists.
    unfold Semaphore_wait_resume, Scheduler_block_resume. rewrite Hc2.
    reflexivity.
Qed.

(** ** Thread join *)

(** C8: [join] called on the running thread itself answers [EDEADLK] at
    once: the caller is not suspended, the scheduler and the join semaphore
    are left as they were, whatever the number of turns allowed to the loop
    that is never entered. *)
Theorem ThreadBase_join_self (fuel : nat) (tb : ThreadBase) (k : Scheduler)
    (tcb : ThreadControlBlock) :
  getCurrentThreadControlBlock k = Some (threadControlBlock_ tb, tcb) ->
  ThreadBase_join fuel tb k = Some (Returned EDEADLK, tb, k).
Proof.
  intros H. unfold ThreadBase_join. rewrite H.
  by rewrite Nat.eqb_refl.
Qed.

(** ** Signals *)

Lemma ffsFrom_lowest (n : nat) (i x : Z) :
  0 <= i ->
  (forall j, 0 <= j < i -> Z.testbit x j = false) ->
  (exists j, i <= j < i + Z.of_nat n /\ Z.testbit x j = true) ->
  exists m, i <= m < i + Z.of_nat n /\ ffsFrom n i x = m + 1
    /\ Z.testbit x m = true /\ forall j, 0 <= j < m -> Z.testbit x j = false.
Proof.
  revert i. induction n as [|n IH]; intros i Hi Hlow (j & Hj & Hbit).
  - lia.
  - simpl ffsFrom. destruct (Z.testbit x i) eqn:E.
    + exists i. repeat split; try lia; done.
    + destruct (IH (i + 1)) as (m & Hm & Hf & Hb & Hl).
      * lia.
      * intros j' Hj'. destruct (decide (j' = i)) as [->|]; [done|]. apply Hlow. lia.
      * exists j. split; [|done].
        destruct (decide (j = i)) as [->|]; [congruence|]. lia.
      * exists m. repeat split; try lia; done.
Qed.

Lemma builtin_ffsl_zero : builtin_ffsl 0 = 0.
Proof. reflexivity. Qed.

(** On a non-empty intersection with a valid signal set [__builtin_ffsl]
    finds the lowest-numbered common signal. *)
Lemma builtin_ffsl_lowest (mask pending : Z) :
  validSignalSet mask -> Z.land mask pending <> 0 ->
  exists n, builtin_ffsl (Z.land mask pending) = n + 1
    /\ lowestSignal n (Z.land mask pending).
Proof.
  intros [H0 H32] Hne.
  set (x := Z.land mask pending) in *.
  assert (Hx : 0 < x).
  { assert (0 <= x) by (apply Z.land_nonneg; by left). lia. }
  destruct (ffsFrom_lowest 32 0 x) as (m & Hm & Hf & Hb & Hl).
  - lia.
  - intros; lia.
  - exists (Z.log2 x). split; [|by apply Z.bit_log2].
    split; [apply Z.log2_nonneg|].
    destruct (Z.lt_ge_cases (Z.log2 x) 32) as [|Hge]; [lia|].
    assert (Hbit : Z.testbit (Z.land mask pending) (Z.log2 x) = true)
      by by apply Z.bit_log2.
    rewrite Z.land_spec in Hbit.
    apply andb_true_iff in Hbit as [Hbit _].
    rewrite Z.bits_above_log2 in Hbit; [done|lia|].
    assert (Hm : 0 < mask).
    { destruct (decide (mask = 0)) as [E|]; [|lia].
      unfold x in Hx. rewrite E, Z.land_0_l in Hx. lia. }
    assert (Z.log2 mask < 32) by (apply Z.log2_lt_pow2; lia). lia.
  - exists m. split; [done|]. repeat split; try lia; done.
Qed.

Lemma waitImplementation_accept_lowest bitset pendingBitset t tcb k :
  validSignalSet bitset -> Z.land bitset pendingBitset <> 0 ->
  (forall i, Z.testbit pendingBitset i = true ->
             Z.testbit (pendingSignalSet_ tcb) i = true) ->
  exists n, lowestSignal n (Z.land bitset pendingBitset)
    /\ waitImplementation_accept bitset pendingBitset t tcb k
       = ((0, n),
          putThreadControlBlock t
            (setPendingSignalSet (Z.clearbit (pendingSignalSet_ tcb) n) tcb) k).
Proof.
  intros Hv Hne Hsub.
  destruct (builtin_ffsl_lowest _ _ Hv Hne) as (n & Hf & Hlow).
  exists n. split; [done|].
  destruct Hlow as (Hn & Hbit & _).
  unfold waitImplementation_accept. rewrite Hf, wrapU8_signalNumber by done.
  unfold acceptPendingSignal.
  rewrite Z.land_spec in Hbit. apply andb_true_iff in Hbit as [_ Hbit].
  rewrite (Hsub _ Hbit).
  destruct (Z.ltb_spec n 32); [done|lia].
Qed.

(** With a wanted signal pending, [waitImplementation] accepts the lowest one
    and returns, in every mode. *)
Lemma waitImplementation_pending signalSet nonBlocking timePoint k t tcb :
  getCurrentThreadControlBlock k = Some (t, tcb) ->
  validSignalSet signalSet ->
  Z.land signalSet (pendingSignalSet_ tcb) <> 0 ->
  exists n, lowestSignal n (Z.land signalSet (pendingSignalSet_ tcb))
    /\ waitImplementation signalSet nonBlocking timePoint k
       = Some (Returned (0, n),
               putThreadControlBlock t
                 (setPendingSignalSet (Z.clearbit (pendingSignalSet_ tcb) n) tcb) k).
Proof.
  intros Hc Hv Hne.
  destruct (waitImplementation_accept_lowest signalSet (pendingSignalSet_ tcb) t tcb k)
    as (n & Hlow & Ha); [done..|].
  exists n. split; [done|].
  unfold waitImplementation. rewrite Hc.
  destruct (Z.eqb_spec (Z.land signalSet (pendingSignalSet_ tcb)) 0); [done|].
  by rewrite Ha.
Qed.

(** C9: [ThisThread::Signals::tryWait] never suspends the caller; it answers
    [EAGAIN] exactly when no signal of the set is pending for the running
    thread, and otherwise accepts the lowest-numbered pending signal of the
    set and answers 0. *)
Theorem Signals_tryWait_spec (signalSet : Z) (k : Scheduler) (t : nat)
    (tcb : ThreadControlBlock) :
  getCurrentThreadControlBlock k = Some (t, tcb) ->
  validSignalSet signalSet ->
  (exists ret n k',
     Signals_tryWait signalSet k = Some (Returned (ret, n), k')
     /\ getList k' RunnableList = getList k RunnableList
     /\ (ret = EAGAIN <-> Z.land signalSet (pendingSignalSet_ tcb) = 0))
  /\ (Z.land signalSet (pendingSignalSet_ tcb) = 0 ->
      Signals_tryWait signalSet k = Some (Returned (EAGAIN, 0), k))
  /\ (Z.land signalSet (pendingSignalSet_ tcb) <> 0 ->
      exists n, lowestSignal n (Z.land signalSet (pendingSignalSet_ tcb))
        /\ Signals_tryWait signalSet k
           = Some (Returned (0, n),
                   putThreadControlBlock t
                     (setPendingSignalSet (Z.clearbit (pendingSignalSet_ tcb) n) tcb) k)).
Proof.
  intros Hc Hv.
  assert (Hz : Z.land signalSet (pendingSignalSet_ tcb) = 0 ->
               Signals_tryWait signalSet k = Some (Returned (EAGAIN, 0), k)).
  { intros E. unfold Signals_tryWait, waitImplementation. by rewrite Hc, E. }
  split; [|split; [done|]].
  - destruct (decide (Z.land signalSet (pendingSignalSet_ tcb) = 0)) as [E|E].
    + exists EAGAIN, 0, k. by rewrite Hz.
    + destruct (waitImplementation_pending signalSet true None k t tcb)
        as (n & _ & Hw); [done..|].
      exists 0, n. eexists. split; [apply Hw|]. split; [done|].
      split; [discriminate|done].
  - intros E. by apply waitImplementation_pending.
Qed.

(** C4: with a signal of the set pending, [ThisThread::Signals::wait] does
    not block: it picks the lowest-numbered signal [n] of [mask & pending],
    clears bit [n] of the pending set and returns [(0, n)].  With none
    pending the caller is suspended with the functor installed; on the
    unblock the functor copies the pending set into the caller's local
    variable and clears the pointer to the waited-for set; the resumed caller
    picks the lowest-numbered signal of [mask & copy] and accepts it on its
    control block. *)
Theorem Signals_wait_spec :
  (forall signalSet k t tcb,
     getCurrentThreadControlBlock k = Some (t, tcb) ->
     validSignalSet signalSet ->
     (Z.land signalSet (pendingSignalSet_ tcb) <> 0 ->
      exists n, lowestSignal n (Z.land signalSet (pendingSignalSet_ tcb))
        /\ Signals_wait signalSet k
           = Some (Returned (0, n),
                   putThreadControlBlock t
                     (setPendingSignalSet (Z.clearbit (pendingSignalSet_ tcb) n) tcb) k))
     /\ (Z.land signalSet (pendingSignalSet_ tcb) = 0 ->
         exists k' tcb',
           Signals_wait signalSet k = Some (Blocked, k')
           /\ threadControlBlocks k' !! t = Some tcb'
           /\ stack_ tcb' = Some (SignalsWaitFrame signalSet (pendingSignalSet_ tcb))
           /\ unblockInfo_ tcb' = unblockFunctor_ (Some SignalsWaitUnblockFunctor)
           /\ waitingSignalSet_ tcb' = Some signalSet
           /\ state_ tcb' = WaitingForSignal
           /\ pendingSignalSet_ tcb' = pendingSignalSet_ tcb))
  /\ (forall reason tcb bitset old,
        stack_ tcb = Some (SignalsWaitFrame bitset old) ->
        unblockInfo_ tcb = unblockFunctor_ (Some SignalsWaitUnblockFunctor) ->
        stack_ (unblockedThreadControlBlock reason tcb)
        = Some (SignalsWaitFrame bitset (pendingSignalSet_ tcb))
        /\ waitingSignalSet_ (unblockedThreadControlBlock reason tcb) = None
        /\ pendingSignalSet_ (unblockedThreadControlBlock reason tcb)
           = pendingSignalSet_ tcb
        /\ unblockInfo_ (unblockedThreadControlBlock reason tcb)
           = unblockReason_ reason)
  /\ (forall k t tcb signalSet copy,
        getCurrentThreadControlBlock k = Some (t, tcb) ->
        stack_ tcb = Some (SignalsWaitFrame signalSet copy) ->
        unblockInfo_ tcb = unblockReason_ UnblockRequest ->
        validSignalSet signalSet ->
        Z.land signalSet copy <> 0 ->
        (forall i, Z.testbit copy i = true ->
                   Z.testbit (pendingSignalSet_ tcb) i = true) ->
        exists n k',
          lowestSignal n (Z.land signalSet copy)
          /\ waitImplementation_resume k = Some ((0, n), k')
          /\ threadControlBlocks k' !! t
             = Some (setPendingSignalSet (Z.clearbit (pendingSignalSet_ tcb) n)
                       (setStack None tcb))).
Proof.
  split; [|split].
  - intros signalSet k t tcb Hc Hv. split.
    + intros Hne. by apply waitImplementation_pending.
    + intros E.
      set (k1 := putThreadControlBlock t (setWaitingSignalSet (Some signalSet) tcb)
                   (putList (StackList t) [] k)).
      assert (Hc1 : getCurrentThreadControlBlock k1
                    = Some (t, setWaitingSignalSet (Some signalSet) tcb)).
      { apply getCurrentThreadControlBlock_Some in Hc as [[rest Hr] _].
        apply getCurrentThreadControlBlock_Some. split.
        - exists rest. unfold k1.
          by rewrite getList_putThreadControlBlock, getList_putList_ne.
        - apply lookup_putThreadControlBlock_eq. }
      destruct (Scheduler_block_current
                  (mkThreadControlBlockList (StackList t) WaitingForSignal)
                  (Some SignalsWaitUnblockFunctor)
                  (SignalsWaitFrame signalSet (pendingSignalSet_ tcb)) k1 _ _ Hc1)
        as (k' & Hb & Ht & _).
      exists k'. eexists. split; [|split; [apply Ht|by repeat split]].
      unfold Signals_wait, waitImplementation. rewrite Hc, E. simpl.
      fold k1. by rewrite Hb.
  - intros reason tcb bitset old Hs Hu.
    unfold unblockedThreadControlBlock.
    by rewrite (unblockHook_SignalsWait _ _ _ _ Hs Hu).
  - intros k t tcb signalSet copy Hc Hs Hu Hv Hne Hsub.
    set (tcb' := setStack None tcb).
    set (k1 := putSoftwareTimers (filter (fun dt => dt.2 <> t) (softwareTimers_ k))
                 (putThreadControlBlock t tcb' k)).
    destruct (waitImplementation_accept_lowest signalSet copy t tcb' k1 Hv Hne Hsub)
      as (n & Hlow & Ha).
    exists n. eexists. split; [done|]. split.
    + unfold waitImplementation_resume, Scheduler_block_resume.
      rewrite Hc, Hs, Hu. simpl. unfold waitImplementation_afterBlock. simpl.
      fold tcb'. fold k1. by rewrite Ha.
    + by rewrite lookup_putThreadControlBlock_eq.
Qed.

(** ** Status codes *)

(** proves that a given code is zero or on the list *)
Ltac listed :=
  first
    [ by left
    | right; unfold kernelErrorCodes; rewrite !elem_of_cons; tauto ].

Lemma blockResult_listed reason : listedStatus (blockResult reason).
Proof. destruct reason; simpl; listed. Qed.

Lemma Semaphore_post_listed s k : listedStatus (Semaphore_post s k).1.1.
Proof.
  destruct (Semaphore_post_cases s k) as [[-> _]|[(t & rest & _ & _ & ->)|(_ & _ & ->)]];
    simpl; listed.
Qed.

Lemma Semaphore_tryWait_listed s k : listedStatus (Semaphore_tryWait s k).1.1.
Proof.
  unfold Semaphore_tryWait.
  destruct (Semaphore_tryWaitInternal_cases s) as [[-> _]|[-> _]]; simpl; listed.
Qed.

Lemma Semaphore_wait_listed s k ret s' k' :
  Semaphore_wait s k = Some (Returned ret, s', k') -> listedStatus ret.
Proof.
  intros H. apply Semaphore_wait_cases in H as [(_ & [= ->] & _)|(_ & [=] & _)].
  listed.
Qed.

Lemma Semaphore_tryWaitUntil_listed s timePoint k ret s' k' :
  Semaphore_tryWaitUntil s timePoint k = Some (Returned ret, s', k') -> listedStatus ret.
Proof.
  intros H. apply Semaphore_tryWaitUntil_cases in H as [(_ & [= ->] & _)|(_ & _ & H)].
  - listed.
  - apply Scheduler_blockUntil_returned in H as ->. listed.
Qed.

Lemma Semaphore_wait_resume_listed k ret k' :
  Semaphore_wait_resume k = Some (ret, k') -> listedStatus ret.
Proof.
  unfold Semaphore_wait_resume, Scheduler_block_resume.
  destruct (getCurrentThreadControlBlock k) as [[t tcb]|]; [|done].
  destruct (stack_ tcb) as [[]|]; try done;
    destruct (unblockInfo_ tcb) as [|reason]; try done.
  intros [= <- <-]. apply blockResult_listed.
Qed.

Lemma ThreadBase_join_loop_listed fuel tb k ret tb' k' :
  ThreadBase_join_loop fuel tb k = Some (Returned ret, tb', k') -> listedStatus ret.
Proof.
  revert tb k. induction fuel as [|fuel IH]; intros tb k; [done|].
  simpl.
  destruct (Semaphore_wait (joinSemaphore_ tb) k) as [[[[r|] s1] k1]|] eqn:E; try done.
  destruct (r =? EINTR); [apply IH|].
  intros [= <- <- <-]. by eapply Semaphore_wait_listed.
Qed.

Lemma ThreadBase_join_listed fuel tb k ret tb' k' :
  ThreadBase_join fuel tb k = Some (Returned ret, tb', k') -> listedStatus ret.
Proof.
  unfold ThreadBase_join.
  destruct (getCurrentThreadControlBlock k) as [[t tcb]|]; [|done].
  destruct (Nat.eqb _ _); [|apply ThreadBase_join_loop_listed].
  intros [= <- <- <-]. listed.
Qed.

Lemma ThreadBase_join_resume_listed fuel tb k ret tb' k' :
  ThreadBase_join_resume fuel tb k = Some (Returned ret, tb', k') -> listedStatus ret.
Proof.
  unfold ThreadBase_join_resume.
  destruct (Semaphore_wait_resume k) as [[r k1]|] eqn:E; [|done].
  destruct (r =? EINTR); [apply ThreadBase_join_loop_listed|].
  intros [= <- <- <-]. by eapply Semaphore_wait_resume_listed.
Qed.

Lemma ThreadBase_start_listed tb k ret k' :
  ThreadBase_start tb k = Some (ret, k') -> listedStatus ret.
Proof.
  unfold ThreadBase_start.
  destruct (threadControlBlocks k !! threadControlBlock_ tb); [|done].
  case_decide; intros [= <- <-]; listed.
Qed.

Lemma waitImplementation_accept_listed bitset pendingBitset t tcb k :
  listedStatus (waitImplementation_accept bitset pendingBitset t tcb k).1.1.
Proof.
  unfold waitImplementation_accept, acceptPendingSignal.
  destruct (_ && _); simpl; listed.
Qed.

Lemma waitImplementation_afterBlock_listed ret bitset pendingSignalSet t tcb k :
  listedStatus ret ->
  listedStatus (waitImplementation_afterBlock ret bitset pendingSignalSet t tcb k).1.1.
Proof.
  intros H. unfold waitImplementation_afterBlock.
  destruct (negb (ret =? 0)); [done|apply waitImplementation_accept_listed].
Qed.

Lemma waitImplementation_listed signalSet nonBlocking timePoint k ret n k' :
  waitImplementation signalSet nonBlocking timePoint k = Some (Returned (ret, n), k') ->
  listedStatus ret.
Proof.
  unfold waitImplementation.
  destruct (getCurrentThreadControlBlock k) as [[t tcb]|]; [|done].
  destruct (Z.land signalSet (pendingSignalSet_ tcb) =? 0).
  - destruct nonBlocking; [intros [= <- <- <-]; listed|].
    destruct timePoint as [timePoint|].
    + destruct (Scheduler_blockUntil _ _ _ _ _) as [[[r|] k1]|] eqn:E; try done.
      apply Scheduler_blockUntil_returned in E as ->.
      destruct (threadControlBlocks k1 !! t) as [tcb1|]; [|done].
      pose proof (waitImplementation_afterBlock_listed ETIMEDOUT signalSet
                    (pendingSignalSet_ tcb1) t tcb1 k1) as H.
      destruct (waitImplementation_afterBlock _ _ _ _ _ _) as [[r m] k2].
      intros [= <- <- <-]. apply H. listed.
    + by destruct (Scheduler_block _ _ _ _).
  - pose proof (waitImplementation_accept_listed signalSet (pendingSignalSet_ tcb) t tcb k)
      as H.
    destruct (waitImplementation_accept _ _ _ _ _) as [[r m] k2].
    by intros [= <- <- <-].
Qed.

Lemma waitImplementation_resume_listed k ret n k' :
  waitImplementation_resume k = Some ((ret, n), k') -> listedStatus ret.
Proof.
  unfold waitImplementation_resume, Scheduler_block_resume.
  destruct (getCurrentThreadControlBlock k) as [[t tcb]|]; [|done].
  destruct (stack_ tcb) as [[|bitset pendingSignalSet]|]; try done;
    destruct (unblockInfo_ tcb) as [|reason]; try done.
  intros [= H].
  match type of H with
  | waitImplementation_afterBlock ?r ?b ?p ?t ?c ?k0 = _ =>
      pose proof (waitImplementation_afterBlock_listed r b p t c k0
                    (blockResult_listed reason)) as Hl;
      by rewrite H in Hl
  end.
Qed.

Lemma ThreadControlBlock_generateSignal_listed t signalNumber k ret k' :
  ThreadControlBlock_generateSignal t signalNumber k = Some (ret, k') -> listedStatus ret.
Proof.
  unfold ThreadControlBlock_generateSignal.
  destruct (threadControlBlocks k !! t) as [tcb|]; [|done].
  destruct (32 <=? signalNumber); [intros [= <- <-]; listed|].
  destruct (state_ tcb); try (intros [= <- <-]; listed).
  destruct (waitingSignalSet_ tcb); [|intros [= <- <-]; listed].
  destruct (_ =? 0); intros [= <- <-]; listed.
Qed.

(** X17: what the operations answer.  [tryWait], on a semaphore and on
    signals, answers [EAGAIN] where the blocking call would suspend the
    caller, and every status the operations of semaphores, signals and
    threads return is 0 or one of [EINVAL], [EAGAIN], [ETIMEDOUT],
    [EDEADLK], [EPERM], [EOVERFLOW], [EINTR]. *)
Theorem status_codes_listed :
  (forall s k, value_ s = 0 -> Semaphore_tryWait s k = (EAGAIN, s, k))
  /\ (forall signalSet k t tcb,
        getCurrentThreadControlBlock k = Some (t, tcb) ->
        Z.land signalSet (pendingSignalSet_ tcb) = 0 ->
        Signals_tryWait signalSet k = Some (Returned (EAGAIN, 0), k))
  /\ (forall s k, listedStatus (Semaphore_post s k).1.1)
  /\ (forall s k, listedStatus (Semaphore_tryWait s k).1.1)
  /\ (forall s k ret s' k',
        Semaphore_wait s k = Some (Returned ret, s', k') -> listedStatus ret)
  /\ (forall s timePoint k ret s' k',
        Semaphore_tryWaitUntil s timePoint k = Some (Returned ret, s', k') ->
        listedStatus ret)
  /\ (forall s duration k ret s' k',
        Semaphore_tryWaitFor s duration k = Some (Returned ret, s', k') ->
        listedStatus ret)
  /\ (forall k ret k', Semaphore_wait_resume k = Some (ret, k') -> listedStatus ret)
  /\ (forall fuel tb k ret tb' k',
        ThreadBase_join fuel tb k = Some (Returned ret, tb', k') -> listedStatus ret)
  /\ (forall fuel tb k ret tb' k',
        ThreadBase_join_resume fuel tb k = Some (Returned ret, tb', k') ->
        listedStatus ret)
  /\ (forall tb k ret k', ThreadBase_start tb k = Some (ret, k') -> listedStatus ret)
  /\ (forall signalSet nonBlocking timePoint k ret n k',
        waitImplementation signalSet nonBlocking timePoint k
        = Some (Returned (ret, n), k') -> listedStatus ret)
  /\ (forall k ret n k',
        waitImplementation_resume k = Some ((ret, n), k') -> listedStatus ret)
  /\ (forall t signalNumber k ret k',
        ThreadControlBlock_generateSignal t signalNumber k = Some (ret, k') ->
        listedStatus ret).
Proof.
  split.
  { intros s k H. unfold Semaphore_tryWait.
    by rewrite Semaphore_tryWaitInternal_zero. }
  split.
  { intros signalSet k t tcb Hc E.
    unfold Signals_tryWait, waitImplementation. by rewrite Hc, E. }
  split; [apply Semaphore_post_listed|].
  split; [apply Semaphore_tryWait_listed|].
  split; [apply Semaphore_wait_listed|].
  split; [apply Semaphore_tryWaitUntil_listed|].
  split; [intros s duration k; apply Semaphore_tryWaitUntil_listed|].
  split; [apply Semaphore_wait_resume_listed|].
  split; [apply ThreadBase_join_listed|].
  split; [apply ThreadBase_join_resume_listed|].
  split; [apply ThreadBase_start_listed|].
  split; [apply waitImplementation_listed|].
  split; [apply waitImplementation_resume_listed|].
  apply ThreadControlBlock_generateSignal_listed.
Qed.

(** ** The example states *)

Lemma exampleRunning_current :
  getCurrentThreadControlBlock exampleRunning = Some (1%nat, runnableThread 1 160).
Proof. reflexivity. Qed.

Lemma exampleRunning_noTimer : noTimerOf 1 exampleRunning.
Proof. intros dt H. simpl in H. in_nil. Qed.

Lemma exampleWaiters_consistent : listsConsistent exampleWaiters.
Proof.
  intros l t H. unfold getList, exampleWaiters in H. simpl in H.
  rewrite lookup_insert in H. case_decide as E.
  - subst l. simpl in H. rewrite !elem_of_cons, elem_of_nil in H.
    destruct H as [->|[->|[]]]; eexists; split; reflexivity.
  - rewrite lookup_singleton in H. case_decide as E'.
    + subst l. simpl in H. rewrite !elem_of_cons, elem_of_nil in H.
      destruct H as [->|[]]. eexists; split; reflexivity.
    + simpl in H. in_nil.
Qed.

(** The state of the counterexample to C1 is one the operations lead to. *)
Lemma afterSecondWait_exampleWaiters : afterSecondWait = exampleWaiters.
Proof. vm_compute. reflexivity. Qed.

Lemma exampleSemaphore_bounded value :
  0 <= value <= UINT_MAX -> valueBounded (exampleSemaphore value).
Proof. unfold valueBounded; simpl. lia. Qed.

Lemma exampleSemaphore_ownList value : ownList (exampleSemaphore value).
Proof. by exists 100%nat. Qed.

Lemma validSignalSet_136 : validSignalSet 136.
Proof. unfold validSignalSet. lia. Qed.

(** Scenario 4 of the specification runs as described: the wait for signals
    3 and 7 suspends thread 1, signal 5 leaves it waiting, signal 7 makes it
    runnable with the pending set copied, and the resumed call returns
    [(0, 7)] with signal 5 still pending. *)
Lemma Signals_wait_scenario :
  Signals_wait 136 exampleQuiet = Some (Blocked, afterSignalsWait)
  /\ getList afterSignalsWait RunnableList = [0%nat]
  /\ ThreadControlBlock_generateSignal 1 5 afterSignalsWait = Some (0, afterSignal5)
  /\ getList afterSignal5 RunnableList = [0%nat]
  /\ ThreadControlBlock_generateSignal 1 7 afterSignal5 = Some (0, afterSignal7)
  /\ getList afterSignal7 RunnableList = [1%nat; 0%nat]
  /\ threadControlBlocks afterSignal7 !! 1%nat
     = Some (mkThreadControlBlock (Some (SignalsWaitFrame 136 160))
               (Some RunnableList) (unblockReason_ UnblockRequest) 160 None 1 0
               Runnable)
  /\ exists k,
       waitImplementation_resume afterSignal7 = Some ((0, 7), k)
       /\ threadControlBlocks k !! 1%nat = Some (runnableThread 1 32).
Proof.
  repeat (split; [vm_compute; reflexivity|]).
  exists (putThreadControlBlock 1 (runnableThread 1 32) afterSignal7).
  split; vm_compute; reflexivity.
Qed.

(** ** Instances of the theorems, and inputs on which the statements they amend fail *)


Lemma Semaphore_tryWaitFor_timeout_witness :
  value_ (exampleSemaphore 0) = 0 /\ ownList (exampleSemaphore 0)
  /\ getCurrentThreadControlBlock exampleRunning = Some (1%nat, runnableThread 1 160)
  /\ noTimerOf 1 exampleRunning
  /\ 0 <= TickClock_now exampleRunning /\ 0 <= 10
  /\ TickClock_now exampleRunning + 10 + 1 < 2 ^ 64
  /\ exists k1,
       Semaphore_tryWaitFor (exampleSemaphore 0) 10 exampleRunning
       = Some (Blocked, exampleSemaphore 0, k1)
       /\ threadControlBlocks (ticks 10 k1) !! 1%nat
          = Some (waitingThread 1 160 (ObjectList 100))
       /\ threadControlBlocks (ticks 11 k1) !! 1%nat
          = Some (unblockedThreadControlBlock Timeout
                    (waitingThread 1 160 (ObjectList 100)))
       /\ TickClock_now (ticks 11 k1) = 11.
Proof.
  assert (H0 : 0 <= TickClock_now exampleRunning) by (simpl; lia).
  assert (H1 : 0 <= 10) by lia.
  assert (H2 : TickClock_now exampleRunning + 10 + 1 < 2 ^ 64) by (simpl; lia).
  destruct (proj2 Semaphore_tryWaitFor_timeout (exampleSemaphore 0) 10 exampleRunning
              1%nat (runnableThread 1 160) eq_refl (exampleSemaphore_ownList 0)
              exampleRunning_current exampleRunning_noTimer H0 H1 H2)
    as (k1 & Hw & Hbefore & Hat & Hnow & _).
  split; [reflexivity|]. split; [apply exampleSemaphore_ownList|].
  split; [reflexivity|]. split; [apply exampleRunning_noTimer|].
  split; [exact H0|]. split; [exact H1|]. split; [exact H2|].
  exists k1. split; [exact Hw|].
  split; [exact (proj1 (Hbefore 10%nat ltac:(lia)))|].
  split; [exact Hat|exact Hnow].
Defined.

(** C2 as stated fails for a duration that overflows the tick counter: at
    tick 1, [tryWaitFor(2^64 - 2)] on a semaphore at 0 computes the deadline
    0, which is past, and answers [ETIMEDOUT] within the call, not [2^64 - 1]
    ticks later. *)
Lemma Semaphore_tryWaitFor_overflow :
  Semaphore_tryWaitFor (exampleSemaphore 0) (2 ^ 64 - 2) (putTickCount 1 exampleRunning)
  = Some (Returned ETIMEDOUT, exampleSemaphore 0, putTickCount 1 exampleRunning).
Proof. vm_compute. reflexivity. Qed.

Lemma status_codes_listed_witness :
  getCurrentThreadControlBlock exampleRunning = Some (1%nat, runnableThread 1 160)
  /\ Z.land 8 (pendingSignalSet_ (runnableThread 1 160)) = 0
  /\ Signals_tryWait 8 exampleRunning = Some (Returned (EAGAIN, 0), exampleRunning)
  /\ listedStatus (Semaphore_post (exampleSemaphore 0) exampleRunning).1.1.
Proof.
  split; [reflexivity|]. split; [reflexivity|]. split.
  - exact (proj1 (proj2 status_codes_listed) 8 exampleRunning 1%nat
             (runnableThread 1 160) exampleRunning_current eq_refl).
  - exact (proj1 (proj2 (proj2 status_codes_listed)) (exampleSemaphore 0)
             exampleRunning).
Defined.

Lemma Signals_wait_spec_witness :
  getCurrentThreadControlBlock exampleRunning = Some (1%nat, runnableThread 1 160)
  /\ validSignalSet 136 /\ Z.land 136 160 <> 0
  /\ exists n, lowestSignal n (Z.land 136 160)
       /\ Signals_wait 136 exampleRunning
          = Some (Returned (0, n),
                  putThreadControlBlock 1
                    (setPendingSignalSet (Z.clearbit 160 n) (runnableThread 1 160))
                    exampleRunning).
Proof.
  assert (Hne : Z.land 136 160 <> 0) by discriminate.
  destruct (proj1 (proj1 Signals_wait_spec 136 exampleRunning 1%nat
                     (runnableThread 1 160) exampleRunning_current validSignalSet_136)
              Hne) as (n & Hlow & Hw).
  split; [reflexivity|]. split; [apply validSignalSet_136|]. split; [exact Hne|].
  exists n. by split.
Defined.

(** Thread 1 waiting on the semaphore is a state the operations lead to. *)
Lemma afterFirstWait_reachable : reachable (exampleSemaphore 0) afterFirstWait.
Proof.
  eapply reachable_wait with (s := exampleSemaphore 0) (k := exampleRunning).
  - eapply (reachable_construct 100 0 UINT_MAX exampleRunning).
    vm_compute. reflexivity.
  - vm_compute. reflexivity.
Qed.

Lemma Semaphore_invariant_witness :
  reachable (exampleSemaphore 0) afterFirstWait
  /\ blockedThreads (exampleSemaphore 0) afterFirstWait = [1%nat]
  /\ semaphoreInvariant (exampleSemaphore 0) afterFirstWait
  /\ value_ (exampleSemaphore 0) = 0
  /\ Semaphore_post (exampleSemaphore 0) afterFirstWait
     = (0, exampleSemaphore 0, Scheduler_unblock 1 afterFirstWait).
Proof.
  assert (Hl : blockedThreads (exampleSemaphore 0) afterFirstWait = [1%nat])
    by reflexivity.
  assert (Hm : maxValue_ (exampleSemaphore 0) <> 0) by discriminate.
  destruct (proj2 (proj2 (proj2 (proj2 (proj2 (proj2 (proj2 (proj2 (proj2
              Semaphore_invariant))))))))
              (exampleSemaphore 0) afterFirstWait 1%nat [] afterFirstWait_reachable Hl)
    as (Hv & Hp & _).
  split; [exact afterFirstWait_reachable|]. split; [exact Hl|].
  split; [exact (proj1 Semaphore_invariant _ _ afterFirstWait_reachable)|].
  split; [exact Hv|exact (Hp Hm)].
Defined.

(** C5 as stated fails on [Semaphore(0, 0)]: thread 1 waits on it and is
    suspended, the state is one the operations lead to and the invariant
    holds, but [post] finds [value == maxValue], answers [EOVERFLOW] and
    leaves thread 1 on the blocked list: with a waiter there it unblocks
    nobody. *)
Lemma Semaphore_post_leaves_waiter :
  Semaphore_Semaphore 100 0 0 exampleRunning = (zeroSemaphore, exampleRunning)
  /\ Semaphore_wait zeroSemaphore exampleRunning
     = Some (Blocked, zeroSemaphore, afterFirstWait)
  /\ reachable zeroSemaphore afterFirstWait
  /\ blockedThreads zeroSemaphore afterFirstWait = [1%nat]
  /\ Semaphore_post zeroSemaphore afterFirstWait
     = (EOVERFLOW, zeroSemaphore, afterFirstWait)
  /\ threadControlBlocks afterFirstWait !! 1%nat
     = Some (waitingThread 1 160 (ObjectList 100)).
Proof.
  assert (Hc : Semaphore_Semaphore 100 0 0 exampleRunning
               = (zeroSemaphore, exampleRunning)) by (vm_compute; reflexivity).
  assert (Hw : Semaphore_wait zeroSemaphore exampleRunning
               = Some (Blocked, zeroSemaphore, afterFirstWait))
    by (vm_compute; reflexivity).
  split; [exact Hc|]. split; [exact Hw|]. split.
  - eapply reachable_wait; [|exact Hw]. by eapply reachable_construct.
  - repeat split; vm_compute; reflexivity.
Qed.

Lemma Semaphore_tryWait_spec_witness :
  0 <= value_ (exampleSemaphore 1) <= UINT_MAX
  /\ value_ (exampleSemaphore 1) <> 0
  /\ Semaphore_tryWait (exampleSemaphore 1) exampleRunning
     = (0, exampleSemaphore 0, exampleRunning).
Proof.
  assert (Hr : 0 <= value_ (exampleSemaphore 1) <= UINT_MAX)
    by (unfold UINT_MAX; simpl; lia).
  assert (Hne : value_ (exampleSemaphore 1) <> 0) by discriminate.
  split; [exact Hr|]. split; [exact Hne|].
  exact (proj1 (proj2 (Semaphore_tryWait_spec (exampleSemaphore 1) exampleRunning Hr)) Hne).
Defined.

Lemma Semaphore_post_wait_witness :
  0 <= value_ (exampleSemaphore 0)
  /\ value_ (exampleSemaphore 0) < maxValue_ (exampleSemaphore 0)
  /\ maxValue_ (exampleSemaphore 0) <= UINT_MAX
  /\ blockedThreads (exampleSemaphore 0) exampleRunning = []
  /\ exists s1,
       Semaphore_post (exampleSemaphore 0) exampleRunning = (0, s1, exampleRunning)
       /\ Semaphore_wait s1 exampleRunning
          = Some (Returned 0, exampleSemaphore 0, exampleRunning)
       /\ value_ s1 = 1.
Proof.
  assert (H0 : 0 <= value_ (exampleSemaphore 0)) by (simpl; lia).
  assert (H1 : value_ (exampleSemaphore 0) < maxValue_ (exampleSemaphore 0))
    by (simpl; unfold UINT_MAX; lia).
  assert (H2 : maxValue_ (exampleSemaphore 0) <= UINT_MAX) by (simpl; lia).
  destruct (Semaphore_post_wait (exampleSemaphore 0) exampleRunning H0 H1 H2 eq_refl)
    as (s1 & Hp & Hw & Hv).
  split; [exact H0|]. split; [exact H1|]. split; [exact H2|]. split; [reflexivity|].
  exists s1. split; [exact Hp|]. split; [exact Hw|exact Hv].
Defined.

Lemma ThreadBase_join_self_witness :
  getCurrentThreadControlBlock exampleRunning
  = Some (threadControlBlock_ (mkThreadBase 1 (exampleSemaphore 0)), runnableThread 1 160)
  /\ ThreadBase_join 5 (mkThreadBase 1 (exampleSemaphore 0)) exampleRunning
     = Some (Returned EDEADLK, mkThreadBase 1 (exampleSemaphore 0), exampleRunning).
Proof.
  split; [reflexivity|].
  exact (ThreadBase_join_self 5 (mkThreadBase 1 (exampleSemaphore 0)) exampleRunning
           (runnableThread 1 160) exampleRunning_current).
Defined.

Lemma Signals_tryWait_spec_witness :
  getCurrentThreadControlBlock exampleRunning = Some (1%nat, runnableThread 1 160)
  /\ validSignalSet 136
  /\ exists ret n k',
       Signals_tryWait 136 exampleRunning = Some (Returned (ret, n), k')
       /\ getList k' RunnableList = getList exampleRunning RunnableList
       /\ (ret = EAGAIN <-> Z.land 136 (pendingSignalSet_ (runnableThread 1 160)) = 0).
Proof.
  split; [reflexivity|]. split; [apply validSignalSet_136|].
  exact (proj1 (Signals_tryWait_spec 136 exampleRunning 1%nat (runnableThread 1 160)
                  exampleRunning_current validSignalSet_136)).
Defined.

Lemma Semaphore_value_le_maxValue_witness :
  0 <= 5 <= UINT_MAX /\ 0 <= 3 <= UINT_MAX /\ 3 < 5
  /\ value_ (Semaphore_Semaphore 100 5 3 exampleRunning).1 = 3.
Proof.
  assert (H5 : 0 <= 5 <= UINT_MAX) by (unfold UINT_MAX; lia).
  assert (H3 : 0 <= 3 <= UINT_MAX) by (unfold UINT_MAX; lia).
  assert (Hlt : 3 < 5) by lia.
  destruct (proj1 Semaphore_value_le_maxValue 100%nat 5 3 exampleRunning H5 H3)
    as (_ & _ & H & _).
  split; [exact H5|]. split; [exact H3|]. split; [exact Hlt|exact (H Hlt)].
Defined.

(** * Further properties *)

(** ** Semaphore: an available semaphore, filling, draining, balance *)

(** X1: on a semaphore whose value is not 0, [wait], [tryWaitUntil] with any
    time point (one in the past included) and [tryWaitFor] with any duration
    do what [tryWait] does: they answer 0, take 1 off the value, and leave
    the scheduler alone, so the caller is not suspended. *)
Theorem Semaphore_available (s : Semaphore) (k : Scheduler) (timePoint duration : Z) :
  0 < value_ s <= UINT_MAX ->
  Semaphore_tryWait s k = (0, setValue (value_ s - 1) s, k)
  /\ Semaphore_wait s k = Some (Returned 0, setValue (value_ s - 1) s, k)
  /\ Semaphore_tryWaitUntil s timePoint k
     = Some (Returned 0, setValue (value_ s - 1) s, k)
  /\ Semaphore_tryWaitFor s duration k
     = Some (Returned 0, setValue (value_ s - 1) s, k).
Proof.
  intros Hv.
  assert (Hi : Semaphore_tryWaitInternal s = (0, setValue (value_ s - 1) s))
    by (apply Semaphore_tryWaitInternal_pos; lia).
  unfold Semaphore_tryWait, Semaphore_wait, Semaphore_tryWaitFor, Semaphore_tryWaitUntil.
  by rewrite Hi.
Qed.

Lemma Semaphore_posts_below (n : nat) s k :
  valueBounded s -> blockedThreads s k = [] ->
  value_ s + Z.of_nat n <= maxValue_ s ->
  Semaphore_posts n s k = (replicate n 0, setValue (value_ s + Z.of_nat n) s, k).
Proof.
  revert s. induction n as [|n IH]; intros s Hb Hl Hle.
  - simpl. by rewrite Z.add_0_r, setValue_id.
  - simpl Semaphore_posts.
    rewrite Semaphore_post_increment by (try done; lia).
    rewrite IH.
    + unfold setValue; simpl.
      by replace (value_ s + 1 + Z.of_nat n) with (value_ s + Z.of_nat (S n)) by lia.
    + destruct Hb as (H0 & H1 & H2). unfold valueBounded; simpl. lia.
    + done.
    + simpl. lia.
Qed.

Lemma Semaphore_posts_full (m : nat) s k :
  value_ s = maxValue_ s ->
  Semaphore_posts m s k = (replicate m EOVERFLOW, s, k).
Proof.
  intros Hv. induction m as [|m IH]; [done|].
  simpl. by rewrite Semaphore_post_overflow, IH.
Qed.

Lemma Semaphore_posts_app (n m : nat) s k :
  Semaphore_posts (n + m) s k
  = let '(rets1, s1, k1) := Semaphore_posts n s k in
    let '(rets2, s2, k2) := Semaphore_posts m s1 k1 in
    (rets1 ++ rets2, s2, k2).
Proof.
  revert s k. induction n as [|n IH]; intros s k; simpl.
  - by destruct (Semaphore_posts m s k) as [[rets s2] k2].
  - destruct (Semaphore_post s k) as [[ret s1] k1]. rewrite IH.
    destruct (Semaphore_posts n s1 k1) as [[rets1 s2] k2].
    by destruct (Semaphore_posts m s2 k2) as [[rets2 s3] k3].
Qed.

(** X2: a semaphore without waiters accepts posts until it is full: the
    [maxValue - value] first posts answer 0 and bring the value to
    [maxValue], every post after that answers [EOVERFLOW] and changes
    nothing. *)
Theorem Semaphore_posts_saturate (n m : nat) (s : Semaphore) (k : Scheduler) :
  valueBounded s -> blockedThreads s k = [] ->
  value_ s + Z.of_nat n = maxValue_ s ->
  Semaphore_posts (n + m) s k
  = (replicate n 0 ++ replicate m EOVERFLOW, setValue (maxValue_ s) s, k).
Proof.
  intros Hb Hl Hn.
  rewrite Semaphore_posts_app, Semaphore_posts_below by (try done; lia).
  rewrite Hn, Semaphore_posts_full by done. reflexivity.
Qed.

Lemma Semaphore_tryWaits_positive (n : nat) s k :
  0 <= value_ s <= UINT_MAX -> Z.of_nat n <= value_ s ->
  Semaphore_tryWaits n s k = (replicate n 0, setValue (value_ s - Z.of_nat n) s, k).
Proof.
  revert s. induction n as [|n IH]; intros s Hr Hle.
  - simpl. by rewrite Z.sub_0_r, setValue_id.
  - simpl Semaphore_tryWaits. unfold Semaphore_tryWait.
    rewrite Semaphore_tryWaitInternal_pos by lia.
    rewrite IH by (simpl; lia).
    unfold setValue; simpl.
    by replace (value_ s - 1 - Z.of_nat n) with (value_ s - Z.of_nat (S n)) by lia.
Qed.

Lemma Semaphore_tryWaits_zero (m : nat) s k :
  value_ s = 0 -> Semaphore_tryWaits m s k = (replicate m EAGAIN, s, k).
Proof.
  intros Hv. induction m as [|m IH]; [done|].
  simpl. unfold Semaphore_tryWait.
  by rewrite Semaphore_tryWaitInternal_zero, IH.
Qed.

Lemma Semaphore_tryWaits_app (n m : nat) s k :
  Semaphore_tryWaits (n + m) s k
  = let '(rets1, s1, k1) := Semaphore_tryWaits n s k in
    let '(rets2, s2, k2) := Semaphore_tryWaits m s1 k1 in
    (rets1 ++ rets2, s2, k2).
Proof.
  revert s k. induction n as [|n IH]; intros s k; simpl.
  - by destruct (Semaphore_tryWaits m s k) as [[rets s2] k2].
  - destruct (Semaphore_tryWait s k) as [[ret s1] k1]. rewrite IH.
    destruct (Semaphore_tryWaits n s1 k1) as [[rets1 s2] k2].
    by destruct (Semaphore_tryWaits m s2 k2) as [[rets2 s3] k3].
Qed.

(** X3: [tryWait] succeeds exactly as many times as the value says: of
    [value + m] calls in a row the first [value] answer 0, the other [m]
    answer [EAGAIN], the value ends at 0 and the scheduler is never
    touched. *)
Theorem Semaphore_tryWaits_drain (m : nat) (s : Semaphore) (k : Scheduler) :
  0 <= value_ s <= UINT_MAX ->
  Semaphore_tryWaits (Z.to_nat (value_ s) + m) s k
  = (replicate (Z.to_nat (value_ s)) 0 ++ replicate m EAGAIN, setValue 0 s, k).
Proof.
  intros Hr.
  rewrite Semaphore_tryWaits_app, Semaphore_tryWaits_positive by lia.
  rewrite Semaphore_tryWaits_zero by (simpl; lia).
  unfold setValue; simpl.
  by replace (value_ s - Z.of_nat (Z.to_nat (value_ s))) with 0 by lia.
Qed.

(** X4: posts and waits balance.  Over any sequence of [post] and [tryWait]
    calls on a semaphore without waiters, the final value plus the number of
    successful [tryWait]s is the initial value plus the number of successful
    [post]s; the value stays within its bounds and the scheduler is not
    touched. *)
Theorem Semaphore_calls_balance (calls : list SemaphoreCall) (s : Semaphore)
    (k : Scheduler) :
  valueBounded s -> blockedThreads s k = [] ->
  exists log s',
    Semaphore_calls calls s k = (log, s', k)
    /\ valueBounded s'
    /\ length log = length calls
    /\ value_ s' + successfulCalls false log = value_ s + successfulCalls true log.
Proof.
  revert s. induction calls as [|call calls IH]; intros s Hb Hl.
  - exists [], s. simpl. split; [done|]. split; [done|]. split; [done|lia].
  - destruct call; simpl Semaphore_calls.
    + destruct (Semaphore_post_cases s k)
        as [[E Hv]|[(t & rest & Hne & _)|(_ & Hv & E)]];
        [| by rewrite Hl in Hne |]; rewrite E.
      * destruct (IH s Hb Hl) as (log & s' & -> & Hb' & Hlen & Hbal).
        exists ((true, EOVERFLOW) :: log), s'. simpl.
        split; [done|]. split; [done|]. split; [by rewrite Hlen|lia].
      * assert (Hw : wrapValue (value_ s + 1) = value_ s + 1).
        { destruct Hb as (H0 & H1 & H2). apply wrapValue_small. lia. }
        rewrite Hw.
        destruct (IH (setValue (value_ s + 1) s)) as (log & s' & -> & Hb' & Hlen & Hbal).
        { destruct Hb as (H0 & H1 & H2). unfold valueBounded; simpl. lia. }
        { done. }
        exists ((true, 0) :: log), s'. simpl in *.
        split; [done|]. split; [done|]. split; [by rewrite Hlen|lia].
    + unfold Semaphore_tryWait.
      destruct (Semaphore_tryWaitInternal_cases s) as [[E Hv]|[E Hv]]; rewrite E.
      * destruct (IH s Hb Hl) as (log & s' & -> & Hb' & Hlen & Hbal).
        exists ((false, EAGAIN) :: log), s'. simpl.
        split; [done|]. split; [done|]. split; [by rewrite Hlen|lia].
      * assert (Hw : wrapValue (value_ s - 1) = value_ s - 1).
        { destruct Hb as (H0 & H1 & H2). apply wrapValue_small. lia. }
        rewrite Hw.
        destruct (IH (setValue (value_ s - 1) s)) as (log & s' & -> & Hb' & Hlen & Hbal).
        { destruct Hb as (H0 & H1 & H2). unfold valueBounded; simpl. lia. }
        { done. }
        exists ((false, 0) :: log), s'. simpl in *.
        split; [done|]. split; [done|]. split; [by rewrite Hlen|lia].
Qed.

(** ** Semaphore: a post hands the semaphore to the waiter *)

Lemma Scheduler_block_empty container functor frame k t tcb :
  getCurrentThreadControlBlock k = Some (t, tcb) ->
  listId container <> RunnableList -> getList k (listId container) = [] ->
  exists k',
    Scheduler_block container functor frame k = Some k'
    /\ getList k' (listId container) = [t]
    /\ getList k' RunnableList = eraseThread t (getList k RunnableList)
    /\ threadControlBlocks k' !! t
       = Some (blockedThreadControlBlock container functor frame tcb).
Proof.
  intros Hc Hne Hl. unfold Scheduler_block. rewrite Hc.
  eexists. split; [reflexivity|]. split; [|split].
  - rewrite getList_putList_eq, getList_putThreadControlBlock.
    rewrite getList_putList_ne by done. by rewrite Hl.
  - rewrite getList_putList_ne by done.
    by rewrite getList_putThreadControlBlock, getList_putList_eq.
  - simpl. by rewrite lookup_insert_eq.
Qed.

Lemma Semaphore_wait_blocks s k t tcb :
  value_ s = 0 -> ownList s -> blockedThreads s k = [] ->
  getCurrentThreadControlBlock k = Some (t, tcb) ->
  exists k1,
    Semaphore_wait s k = Some (Blocked, s, k1)
    /\ blockedThreads s k1 = [t]
    /\ getList k1 RunnableList = eraseThread t (getList k RunnableList)
    /\ threadControlBlocks k1 !! t
       = Some (blockedThreadControlBlock (blockedList_ s) None SemaphoreWaitFrame tcb).
Proof.
  intros Hv [a Ha] Hl Hc.
  destruct (Scheduler_block_empty (blockedList_ s) None SemaphoreWaitFrame k t tcb)
    as (k1 & Hb & H1 & H2 & H3); [done|by rewrite Ha|done|].
  exists k1. split; [|done].
  unfold Semaphore_wait. rewrite Semaphore_tryWaitInternal_zero by done.
  simpl. by rewrite Hb.
Qed.

Lemma Semaphore_post_wakes s k t tcb :
  value_ s <> maxValue_ s -> ownList s -> blockedThreads s k = [t] ->
  threadControlBlocks k !! t = Some tcb ->
  list_ tcb = Some (listId (blockedList_ s)) ->
  exists k',
    Semaphore_post s k = (0, s, k')
    /\ blockedThreads s k' = []
    /\ threadControlBlocks k' !! t
       = Some (unblockedThreadControlBlock UnblockRequest tcb)
    /\ t ∈ getList k' RunnableList.
Proof.
  intros Hne [a Ha] Hl Ht Hlist.
  exists (Scheduler_unblock t k).
  split; [by eapply Semaphore_post_unblock|].
  split; [|split].
  - unfold blockedThreads, Scheduler_unblock.
    eapply unblockInternal_list_head; eauto. by rewrite Ha.
  - by apply unblockInternal_lookup_eq.
  - by eapply unblockInternal_runnable.
Qed.

Lemma Semaphore_wait_resume_value k t tcb reason :
  getCurrentThreadControlBlock k = Some (t, tcb) ->
  stack_ tcb = Some SemaphoreWaitFrame ->
  unblockInfo_ tcb = unblockReason_ reason ->
  exists k',
    Semaphore_wait_resume k = Some (blockResult reason, k')
    /\ threadControlBlocks k' !! t = Some (setStack None tcb)
    /\ forall l, getList k' l = getList k l.
Proof.
  intros Hc Hs Hu. eexists.
  unfold Semaphore_wait_resume, Scheduler_block_resume. rewrite Hc, Hs, Hu.
  split; [reflexivity|]. split; [|done].
  simpl. by rewrite lookup_insert_eq.
Qed.

(** X5: the hand-over between [wait] and [post].  On a semaphore at value 0
    whose blocked list, a list of its own, is empty, [wait] suspends the
    running thread: it leaves the head of the runnable list and becomes the
    only thread on the blocked list.  If the maximum of the semaphore is not
    0, the next [post] answers 0, leaves the value at 0 and the blocked list
    empty again, and makes that thread runnable; when it runs again its
    [wait] returns 0.  If the maximum is 0, the next [post] answers
    [EOVERFLOW] and changes nothing: the thread stays suspended. *)
Theorem Semaphore_wait_post_handshake (s : Semaphore) (k : Scheduler) (t : nat)
    (tcb : ThreadControlBlock) (rest : list nat) :
  value_ s = 0 -> ownList s -> blockedThreads s k = [] ->
  getCurrentThreadControlBlock k = Some (t, tcb) ->
  getList k RunnableList = t :: rest ->
  exists k1,
    Semaphore_wait s k = Some (Blocked, s, k1)
    /\ blockedThreads s k1 = [t]
    /\ getList k1 RunnableList = rest
    /\ (maxValue_ s <> 0 ->
        exists k2 woken,
          Semaphore_post s k1 = (0, s, k2)
          /\ blockedThreads s k2 = []
          /\ t ∈ getList k2 RunnableList
          /\ threadControlBlocks k2 !! t = Some woken
          /\ state_ woken = Runnable
          /\ forall k3, getCurrentThreadControlBlock k3 = Some (t, woken) ->
               exists k4, Semaphore_wait_resume k3 = Some (0, k4))
    /\ (maxValue_ s = 0 ->
        Semaphore_post s k1 = (EOVERFLOW, s, k1)
        /\ blockedThreads s k1 = [t]
        /\ threadControlBlocks k1 !! t
           = Some (blockedThreadControlBlock (blockedList_ s) None
                     SemaphoreWaitFrame tcb)).
Proof.
  intros Hv Ho Hl Hc Hr.
  destruct (Semaphore_wait_blocks s k t tcb) as (k1 & Hw & Hl1 & Hr1 & Ht1); [done..|].
  exists k1.
  split; [done|]. split; [done|].
  split; [by rewrite Hr1, Hr, eraseThread_head|]. split.
  - intros Hmax.
    destruct (Semaphore_post_wakes s k1 t _ ltac:(congruence) Ho Hl1 Ht1 eq_refl)
      as (k2 & Hp & Hl2 & Ht2 & Hin).
    exists k2. eexists.
    split; [done|]. split; [done|]. split; [done|]. split; [exact Ht2|].
    split; [reflexivity|].
    intros k3 Hc3.
    destruct (Semaphore_wait_resume_value k3 t _ UnblockRequest Hc3 eq_refl eq_refl)
      as (k4 & H4 & _).
    by exists k4.
  - intros Hmax. split; [|done].
    apply Semaphore_post_overflow. congruence.
Qed.

(** ** ThreadBase: start and join *)

(** X6: [start] works once.  On a thread in state [New] it answers 0 and the
    thread becomes [Runnable] on the runnable list; on a thread in any other
    state, a started one included, it answers [EINVAL] and changes
    nothing. *)
Theorem ThreadBase_start_once (tb : ThreadBase) (k : Scheduler)
    (tcb : ThreadControlBlock) :
  threadControlBlocks k !! threadControlBlock_ tb = Some tcb ->
  (state_ tcb <> New -> ThreadBase_start tb k = Some (EINVAL, k))
  /\ (state_ tcb = New ->
      exists k',
        ThreadBase_start tb k = Some (0, k')
        /\ threadControlBlocks k' !! threadControlBlock_ tb
           = Some (setState Runnable (setList (Some RunnableList) tcb))
        /\ threadControlBlock_ tb ∈ getList k' RunnableList
        /\ ThreadBase_start tb k' = Some (EINVAL, k')).
Proof.
  intros Ht. split.
  - intros Hs. unfold ThreadBase_start. rewrite Ht. by case_decide.
  - intros Hs. exists (Scheduler_add (threadControlBlock_ tb) k).
    assert (Hl : threadControlBlocks (Scheduler_add (threadControlBlock_ tb) k)
                   !! threadControlBlock_ tb
                 = Some (setState Runnable (setList (Some RunnableList) tcb))).
    { unfold Scheduler_add. rewrite Ht. simpl. by rewrite lookup_insert_eq. }
    split; [|split; [done|split]].
    + unfold ThreadBase_start. rewrite Ht. by case_decide.
    + unfold Scheduler_add. rewrite Ht, getList_putList_eq.
      apply sortedInsert_elem. by left.
    + unfold ThreadBase_start. rewrite Hl. by case_decide.
Qed.

Lemma ThreadBase_join_loop_once fuel tb k :
  ThreadBase_join_loop (S fuel) tb k
  = match Semaphore_wait (joinSemaphore_ tb) k with
    | Some (o, s', k') => Some (o, setJoinSemaphore s' tb, k')
    | None => None
    end.
Proof.
  simpl.
  destruct (Semaphore_wait (joinSemaphore_ tb) k) as [[[o s'] k']|] eqn:E; [|done].
  destruct o as [ret|]; [|done].
  apply Semaphore_wait_cases in E as [(_ & [= ->] & _)|(_ & [=] & _)].
  reflexivity.
Qed.

Lemma ThreadBase_join_not_self fuel tb k t tcb :
  getCurrentThreadControlBlock k = Some (t, tcb) -> t <> threadControlBlock_ tb ->
  ThreadBase_join fuel tb k = ThreadBase_join_loop fuel tb k.
Proof.
  intros Hc Hne. unfold ThreadBase_join. rewrite Hc.
  destruct (Nat.eqb_spec (threadControlBlock_ tb) t); [congruence|done].
Qed.

(** X7: [join] on a thread other than the caller is one call of [wait] on
    the join semaphore; the loop around it takes a single turn, whatever
    number of turns it is allowed.  With the join semaphore above 0 it
    answers 0 at once and takes 1 off the semaphore, at 0 the caller is
    suspended on the join semaphore. *)
Theorem ThreadBase_join_other (fuel : nat) (tb : ThreadBase) (k : Scheduler)
    (t : nat) (tcb : ThreadControlBlock) :
  getCurrentThreadControlBlock k = Some (t, tcb) -> t <> threadControlBlock_ tb ->
  0 <= value_ (joinSemaphore_ tb) <= UINT_MAX ->
  (value_ (joinSemaphore_ tb) <> 0 ->
   ThreadBase_join (S fuel) tb k
   = Some (Returned 0,
           setJoinSemaphore
             (setValue (value_ (joinSemaphore_ tb) - 1) (joinSemaphore_ tb)) tb, k))
  /\ (value_ (joinSemaphore_ tb) = 0 ->
      exists k',
        ThreadBase_join (S fuel) tb k = Some (Blocked, tb, k')
        /\ threadControlBlocks k' !! t
           = Some (blockedThreadControlBlock (blockedList_ (joinSemaphore_ tb))
                     None SemaphoreWaitFrame tcb)
        /\ t ∈ blockedThreads (joinSemaphore_ tb) k').
Proof.
  intros Hc Hne Hr.
  rewrite (ThreadBase_join_not_self _ _ _ _ _ Hc Hne), ThreadBase_join_loop_once.
  split.
  - intros Hv. unfold Semaphore_wait.
    by rewrite Semaphore_tryWaitInternal_pos.
  - intros Hv.
    destruct (Scheduler_block_current (blockedList_ (joinSemaphore_ tb)) None
                SemaphoreWaitFrame k t tcb Hc) as (k' & Hb & Ht & _ & Hin & _).
    exists k'. split; [|by split].
    unfold Semaphore_wait. rewrite Semaphore_tryWaitInternal_zero by done.
    simpl. rewrite Hb. by destruct tb.
Qed.

(** X8: a thread that has terminated can be joined at once.  When the
    termination hook runs with nobody waiting on the join semaphore (value
    0), it leaves the semaphore at 1; a later [join] by another thread
    answers 0 without suspending the caller and the semaphore is back at
    0. *)
Theorem ThreadBase_terminate_then_join (fuel : nat) (tb : ThreadBase)
    (k : Scheduler) (t : nat) (tcb : ThreadControlBlock) :
  value_ (joinSemaphore_ tb) = 0 ->
  0 < maxValue_ (joinSemaphore_ tb) <= UINT_MAX ->
  blockedThreads (joinSemaphore_ tb) k = [] ->
  getCurrentThreadControlBlock k = Some (t, tcb) -> t <> threadControlBlock_ tb ->
  exists tb',
    ThreadBase_terminationHook tb k = (tb', k)
    /\ value_ (joinSemaphore_ tb') = 1
    /\ ThreadBase_join (S fuel) tb' k = Some (Returned 0, tb, k).
Proof.
  intros Hv Hmax Hl Hc Hne.
  exists (setJoinSemaphore (setValue 1 (joinSemaphore_ tb)) tb).
  assert (Hp : Semaphore_post (joinSemaphore_ tb) k
               = (0, setValue 1 (joinSemaphore_ tb), k)).
  { rewrite Semaphore_post_increment; [by rewrite Hv| |lia|done].
    unfold valueBounded. lia. }
  split; [|split; [done|]].
  - unfold ThreadBase_terminationHook. by rewrite Hp.
  - rewrite (ThreadBase_join_not_self _ _ _ t tcb) by done.
    rewrite ThreadBase_join_loop_once. simpl.
    destruct tb as [a js]. destruct js as [bl v mx].
    simpl in *. by subst v.
Qed.

(** X9: a thread that waits in [join] is released by the termination of the
    thread it joins.  The join semaphore is as the constructor of the thread
    made it, at value 0 with a maximum that is not 0, and no other thread is
    waiting on it.  Then [join], called by a thread other than the joined
    one, suspends the caller on the join semaphore; the termination hook of
    the joined thread makes the caller runnable and leaves the semaphore at
    0; once the caller runs again its [join] returns 0. *)
Theorem ThreadBase_join_then_terminate (fuel fuel' : nat) (tb : ThreadBase)
    (k : Scheduler) (t : nat) (tcb : ThreadControlBlock) :
  value_ (joinSemaphore_ tb) = 0 -> maxValue_ (joinSemaphore_ tb) <> 0 ->
  ownList (joinSemaphore_ tb) ->
  blockedThreads (joinSemaphore_ tb) k = [] ->
  getCurrentThreadControlBlock k = Some (t, tcb) -> t <> threadControlBlock_ tb ->
  exists k1 k2 woken,
    ThreadBase_join (S fuel) tb k = Some (Blocked, tb, k1)
    /\ blockedThreads (joinSemaphore_ tb) k1 = [t]
    /\ ThreadBase_terminationHook tb k1 = (tb, k2)
    /\ blockedThreads (joinSemaphore_ tb) k2 = []
    /\ t ∈ getList k2 RunnableList
    /\ threadControlBlocks k2 !! t = Some woken
    /\ forall k3, getCurrentThreadControlBlock k3 = Some (t, woken) ->
         exists k4, ThreadBase_join_resume fuel' tb k3 = Some (Returned 0, tb, k4).
Proof.
  intros Hv Hmax Ho Hl Hc Hne.
  destruct (Semaphore_wait_blocks (joinSemaphore_ tb) k t tcb)
    as (k1 & Hw & Hl1 & _ & Ht1); [done..|].
  destruct (Semaphore_post_wakes (joinSemaphore_ tb) k1 t _ ltac:(congruence)
              Ho Hl1 Ht1 eq_refl) as (k2 & Hp & Hl2 & Ht2 & Hin).
  exists k1, k2. eexists.
  split.
  { rewrite (ThreadBase_join_not_self _ _ _ t tcb) by done.
    rewrite ThreadBase_join_loop_once, Hw. by destruct tb. }
  split; [done|]. split.
  { unfold ThreadBase_terminationHook. rewrite Hp. by destruct tb. }
  split; [done|]. split; [done|]. split; [exact Ht2|].
  intros k3 Hc3.
  destruct (Semaphore_wait_resume_value k3 t _ UnblockRequest Hc3 eq_refl eq_refl)
    as (k4 & H4 & _).
  exists k4. unfold ThreadBase_join_resume. by rewrite H4.
Qed.

(** ** Signals: agreement of the variants, order of acceptance, round trip *)

Lemma lowestSignal_unique n m x : lowestSignal n x -> lowestSignal m x -> n = m.
Proof.
  intros (Hn & Hbn & Hln) (Hm & Hbm & Hlm).
  destruct (Z.lt_trichotomy n m) as [H|[H|H]]; [|done|].
  - rewrite Hlm in Hbn by lia. discriminate.
  - rewrite Hln in Hbm by lia. discriminate.
Qed.

Lemma getCurrentThreadControlBlock_put k t tcb tcb' :
  getCurrentThreadControlBlock k = Some (t, tcb) ->
  getCurrentThreadControlBlock (putThreadControlBlock t tcb' k) = Some (t, tcb').
Proof.
  intros Hc. apply getCurrentThreadControlBlock_Some in Hc as [[rest Hr] _].
  apply getCurrentThreadControlBlock_Some. split.
  - exists rest. by rewrite getList_putThreadControlBlock.
  - apply lookup_putThreadControlBlock_eq.
Qed.

(** X10: with a wanted signal pending, the four ways to wait agree: [wait],
    [tryWait], [tryWaitUntil] with any time point and [tryWaitFor] with any
    duration return the same pair [(0, n)], [n] the lowest wanted pending
    signal, and leave the same state; none of them suspends the caller. *)
Theorem Signals_pending_all_variants (signalSet : Z) (k : Scheduler) (t : nat)
    (tcb : ThreadControlBlock) (timePoint duration : Z) :
  getCurrentThreadControlBlock k = Some (t, tcb) ->
  validSignalSet signalSet ->
  Z.land signalSet (pendingSignalSet_ tcb) <> 0 ->
  exists n k',
    lowestSignal n (Z.land signalSet (pendingSignalSet_ tcb))
    /\ Signals_tryWait signalSet k = Some (Returned (0, n), k')
    /\ Signals_wait signalSet k = Some (Returned (0, n), k')
    /\ Signals_tryWaitUntil signalSet timePoint k = Some (Returned (0, n), k')
    /\ Signals_tryWaitFor signalSet duration k = Some (Returned (0, n), k').
Proof.
  intros Hc Hv Hne.
  destruct (waitImplementation_pending signalSet true None k t tcb Hc Hv Hne)
    as (n & Hlow & H1).
  assert (Hall : forall nonBlocking tp,
            waitImplementation signalSet nonBlocking tp k
            = waitImplementation signalSet true None k).
  { intros nb tp.
    destruct (waitImplementation_pending signalSet nb tp k t tcb Hc Hv Hne)
      as (m & Hm & H2).
    rewrite H1, H2. by rewrite (lowestSignal_unique _ _ _ Hm Hlow). }
  exists n. eexists. split; [done|].
  unfold Signals_tryWait, Signals_wait, Signals_tryWaitFor, Signals_tryWaitUntil.
  rewrite (Hall false None), (Hall false (Some timePoint)), (Hall false (Some _)).
  by rewrite H1.
Qed.

(** X11: signals are accepted one at a time, in ascending order.  A
    successful [tryWait] returns a signal of the set that was pending, makes
    that signal not pending and leaves every other signal as it was; the
    next [tryWait] with the same set answers [EAGAIN] or returns a signal
    with a higher number. *)
Theorem Signals_tryWait_ascending (signalSet : Z) (k : Scheduler) (t : nat)
    (tcb : ThreadControlBlock) :
  getCurrentThreadControlBlock k = Some (t, tcb) ->
  validSignalSet signalSet ->
  Z.land signalSet (pendingSignalSet_ tcb) <> 0 ->
  exists n k' tcb',
    Signals_tryWait signalSet k = Some (Returned (0, n), k')
    /\ Z.testbit signalSet n = true
    /\ Z.testbit (pendingSignalSet_ tcb) n = true
    /\ getCurrentThreadControlBlock k' = Some (t, tcb')
    /\ Z.testbit (pendingSignalSet_ tcb') n = false
    /\ (forall m, m <> n ->
          Z.testbit (pendingSignalSet_ tcb') m = Z.testbit (pendingSignalSet_ tcb) m)
    /\ forall ret n' k'',
         Signals_tryWait signalSet k' = Some (Returned (ret, n'), k'') ->
         ret = EAGAIN \/ (ret = 0 /\ n < n').
Proof.
  intros Hc Hv Hne.
  destruct (waitImplementation_pending signalSet true None k t tcb Hc Hv Hne)
    as (n & Hlow & H1).
  set (tcb' := setPendingSignalSet (Z.clearbit (pendingSignalSet_ tcb) n) tcb) in *.
  assert (Hc' : getCurrentThreadControlBlock (putThreadControlBlock t tcb' k)
                = Some (t, tcb')) by by eapply getCurrentThreadControlBlock_put.
  pose proof Hlow as (Hn & Hbit & Hbelow).
  rewrite Z.land_spec in Hbit. apply andb_true_iff in Hbit as [Hbs Hbp].
  exists n, (putThreadControlBlock t tcb' k), tcb'.
  split; [done|]. split; [done|]. split; [done|]. split; [done|].
  split; [apply Z.clearbit_eq|].
  split; [intros m Hm; by apply Z.clearbit_neq|].
  intros ret n' k'' H2.
  destruct (decide (Z.land signalSet (pendingSignalSet_ tcb') = 0)) as [E|E].
  - left. unfold Signals_tryWait, waitImplementation in H2.
    rewrite Hc', E in H2. simpl in H2. by injection H2 as <- _ _.
  - right.
    destruct (waitImplementation_pending signalSet true None _ t tcb' Hc' Hv E)
      as (m & (Hm & Hbm & _) & H3).
    unfold Signals_tryWait in H2. rewrite H3 in H2. injection H2 as <- <- _.
    split; [done|].
    rewrite Z.land_spec in Hbm. apply andb_true_iff in Hbm as [Hms Hmp].
    simpl in Hmp. apply Z.clearbit_iff in Hmp as [Hmp Hnm].
    destruct (Z.lt_ge_cases m n) as [Hlt|Hge]; [|lia].
    specialize (Hbelow m ltac:(lia)).
    rewrite Z.land_spec, Hms, Hmp in Hbelow. discriminate.
Qed.

Lemma validSignalSet_pow2 n : 0 <= n < 32 -> validSignalSet (2 ^ n).
Proof.
  intros Hn. split; [by apply Z.pow_nonneg|].
  apply Z.pow_lt_mono_r; lia.
Qed.

Lemma clearbit_setbit p n :
  0 <= n -> Z.testbit p n = false -> Z.clearbit (Z.setbit p n) n = p.
Proof.
  intros Hn Hp. apply Z.bits_inj'. intros m Hm.
  rewrite Z.clearbit_eqb, Z.setbit_eqb by done.
  destruct (Z.eqb_spec n m) as [->|]; simpl.
  - by rewrite Hp.
  - by rewrite andb_true_r.
Qed.

(** When nothing wanted was pending, the signal that has just been generated
    is the one wanted signal pending, if it is wanted at all. *)
Lemma land_setbit_disjoint mask p n :
  Z.land mask p = 0 -> 0 <= n < 32 ->
  (Z.testbit mask n = false -> Z.land mask (Z.setbit p n) = 0)
  /\ (Z.testbit mask n = true ->
      Z.land mask (Z.setbit p n) <> 0
      /\ Z.testbit p n = false
      /\ lowestSignal n (Z.land mask (Z.setbit p n))).
Proof.
  intros H0 Hn.
  assert (Hbits : forall j, Z.testbit mask j && Z.testbit p j = false).
  { intros j. by rewrite <- Z.land_spec, H0, Z.bits_0. }
  assert (Hj : forall j, Z.testbit (Z.land mask (Z.setbit p n)) j
                         = Z.testbit mask j && (n =? j)).
  { intros j. rewrite Z.land_spec, Z.setbit_eqb by lia.
    specialize (Hbits j).
    destruct (Z.testbit mask j), (Z.testbit p j), (n =? j); simpl in *; congruence. }
  split.
  - intros Hm. apply Z.bits_inj'. intros j _.
    rewrite Hj, Z.bits_0. destruct (Z.eqb_spec n j) as [->|]; [by rewrite Hm|].
    by rewrite andb_false_r.
  - intros Hm.
    assert (Hnn : Z.testbit (Z.land mask (Z.setbit p n)) n = true)
      by by rewrite Hj, Hm, Z.eqb_refl.
    split; [|split].
    + intros E. rewrite E, Z.bits_0 in Hnn. discriminate.
    + specialize (Hbits n). rewrite Hm in Hbits. done.
    + split; [done|]. split; [done|].
      intros j Hlt. rewrite Hj.
      destruct (Z.eqb_spec n j); [lia|]. by rewrite andb_false_r.
Qed.

(** X12: generating a signal for oneself and accepting it is a round trip.
    A signal number above 31 is refused with [EINVAL] and nothing changes.
    Otherwise [generateSignal(n)] answers 0 and makes [n] pending; if [n]
    was not pending before, a [tryWait] for the set holding just [n] then
    returns [(0, n)] and the pending set is what it was before the signal
    was generated. *)
Theorem Signals_generate_accept (n : Z) (k : Scheduler) (t : nat)
    (tcb : ThreadControlBlock) :
  getCurrentThreadControlBlock k = Some (t, tcb) ->
  waitingSignalSet_ tcb = None ->
  (32 <= n -> Signals_generateSignal n k = Some (EINVAL, k))
  /\ (0 <= n < 32 -> Z.testbit (pendingSignalSet_ tcb) n = false ->
      exists k1 k2,
        Signals_generateSignal n k = Some (0, k1)
        /\ Signals_getPendingSignalSet k1 = Some (Z.setbit (pendingSignalSet_ tcb) n)
        /\ Signals_tryWait (2 ^ n) k1 = Some (Returned (0, n), k2)
        /\ Signals_getPendingSignalSet k2 = Some (pendingSignalSet_ tcb)).
Proof.
  intros Hc Hw.
  pose proof Hc as Hc0. apply getCurrentThreadControlBlock_Some in Hc0 as [_ Ht].
  split.
  - intros Hn. unfold Signals_generateSignal, ThreadControlBlock_generateSignal.
    rewrite Hc, Ht. destruct (Z.leb_spec 32 n); [done|lia].
  - intros Hn Hp.
    set (tcb1 := setPendingSignalSet (Z.setbit (pendingSignalSet_ tcb) n) tcb).
    assert (Hc1 : getCurrentThreadControlBlock (putThreadControlBlock t tcb1 k)
                  = Some (t, tcb1)) by by eapply getCurrentThreadControlBlock_put.
    assert (Hbit : Z.testbit (Z.land (2 ^ n) (pendingSignalSet_ tcb1)) n = true).
    { rewrite Z.land_spec, Z.pow2_bits_eqb, Z.eqb_refl by lia.
      simpl. apply Z.setbit_eq. lia. }
    assert (Hne : Z.land (2 ^ n) (pendingSignalSet_ tcb1) <> 0).
    { intros E. rewrite E, Z.bits_0 in Hbit. discriminate. }
    destruct (waitImplementation_pending (2 ^ n) true None _ t tcb1 Hc1
                (validSignalSet_pow2 n Hn) Hne) as (m & Hlow & H2).
    assert (m = n) as ->.
    { destruct Hlow as (_ & Hm & _).
      rewrite Z.land_spec, Z.pow2_bits_eqb in Hm by lia.
      apply andb_true_iff in Hm as [Hm _]. apply Z.eqb_eq in Hm. lia. }
    exists (putThreadControlBlock t tcb1 k). eexists.
    split; [|split; [|split; [exact H2|]]].
    + unfold Signals_generateSignal, ThreadControlBlock_generateSignal.
      rewrite Hc, Ht, Hw. destruct (Z.leb_spec 32 n); [lia|].
      by destruct (state_ tcb).
    + unfold Signals_getPendingSignalSet. by rewrite Hc1.
    + unfold Signals_getPendingSignalSet.
      erewrite getCurrentThreadControlBlock_put by exact Hc1.
      simpl. f_equal. apply clearbit_setbit; [lia|done].
Qed.

(** ** Signals: a waiting thread is woken by a wanted signal, or times out *)

Lemma Signals_wait_blocks signalSet k t tcb :
  getCurrentThreadControlBlock k = Some (t, tcb) ->
  Z.land signalSet (pendingSignalSet_ tcb) = 0 ->
  exists k1,
    Signals_wait signalSet k = Some (Blocked, k1)
    /\ threadControlBlocks k1 !! t
       = Some (signalsWaitingThreadControlBlock t signalSet tcb)
    /\ getList k1 RunnableList = eraseThread t (getList k RunnableList).
Proof.
  intros Hc E.
  set (k0 := putThreadControlBlock t (setWaitingSignalSet (Some signalSet) tcb)
               (putList (StackList t) [] k)).
  assert (Hc0 : getCurrentThreadControlBlock k0
                = Some (t, setWaitingSignalSet (Some signalSet) tcb)).
  { apply getCurrentThreadControlBlock_put with (tcb := tcb).
    apply getCurrentThreadControlBlock_Some in Hc as [[rest Hr] Ht].
    apply getCurrentThreadControlBlock_Some. split; [|done].
    exists rest. by rewrite getList_putList_ne. }
  destruct (Scheduler_block_empty
              (mkThreadControlBlockList (StackList t) WaitingForSignal)
              (Some SignalsWaitUnblockFunctor)
              (SignalsWaitFrame signalSet (pendingSignalSet_ tcb)) k0 _ _ Hc0)
    as (k1 & Hb & _ & Hr1 & Ht1); [done|apply getList_putList_eq|].
  exists k1. split; [|split; [done|]].
  - unfold Signals_wait, waitImplementation. rewrite Hc, E. simpl.
    fold k0. by rewrite Hb.
  - rewrite Hr1. unfold k0.
    by rewrite getList_putThreadControlBlock, getList_putList_ne.
Qed.

Lemma waitImplementation_resume_value k t tcb bitset copy reason :
  getCurrentThreadControlBlock k = Some (t, tcb) ->
  stack_ tcb = Some (SignalsWaitFrame bitset copy) ->
  unblockInfo_ tcb = unblockReason_ reason ->
  waitImplementation_resume k
  = Some (waitImplementation_afterBlock (blockResult reason) bitset copy t
            (setStack None tcb)
            (putSoftwareTimers (filter (fun dt => dt.2 <> t) (softwareTimers_ k))
               (putThreadControlBlock t (setStack None tcb) k))).
Proof.
  intros Hc Hs Hu.
  unfold waitImplementation_resume, Scheduler_block_resume.
  by rewrite Hc, Hs, Hu.
Qed.

(** X13: a thread waiting for signals sleeps through unwanted signals and is
    woken by a wanted one.  With no wanted signal pending, [wait] suspends
    the caller.  A signal generated for it that is not in the set is made
    pending and leaves the thread waiting; a signal [n] of the set makes the
    thread runnable, and once it runs again its [wait] returns [(0, n)], with
    the pending set the way it was when [wait] was called. *)
Theorem Signals_wait_wakeup (signalSet : Z) (k : Scheduler) (t : nat)
    (tcb : ThreadControlBlock) (n : Z) :
  getCurrentThreadControlBlock k = Some (t, tcb) ->
  validSignalSet signalSet ->
  Z.land signalSet (pendingSignalSet_ tcb) = 0 ->
  0 <= n < 32 ->
  exists k1 k2,
    Signals_wait signalSet k = Some (Blocked, k1)
    /\ ThreadControlBlock_generateSignal t n k1 = Some (0, k2)
    /\ (Z.testbit signalSet n = false ->
        threadControlBlocks k2 !! t
        = Some (setPendingSignalSet (Z.setbit (pendingSignalSet_ tcb) n)
                  (signalsWaitingThreadControlBlock t signalSet tcb))
        /\ getList k2 RunnableList = getList k1 RunnableList)
    /\ (Z.testbit signalSet n = true ->
        exists woken,
          threadControlBlocks k2 !! t = Some woken
          /\ state_ woken = Runnable
          /\ t ∈ getList k2 RunnableList
          /\ forall k3, getCurrentThreadControlBlock k3 = Some (t, woken) ->
               exists k4 tcb4,
                 waitImplementation_resume k3 = Some ((0, n), k4)
                 /\ threadControlBlocks k4 !! t = Some tcb4
                 /\ pendingSignalSet_ tcb4 = pendingSignalSet_ tcb
                 /\ waitingSignalSet_ tcb4 = None
                 /\ stack_ tcb4 = None).
Proof.
  intros Hc Hv E Hn.
  destruct (Signals_wait_blocks signalSet k t tcb Hc E) as (k1 & Hw & Ht1 & _).
  destruct (land_setbit_disjoint signalSet (pendingSignalSet_ tcb) n E Hn)
    as [Hout Hin].
  set (waiting := signalsWaitingThreadControlBlock t signalSet tcb) in *.
  set (pending := Z.setbit (pendingSignalSet_ tcb) n) in *.
  set (k1' := putThreadControlBlock t (setPendingSignalSet pending waiting) k1).
  assert (Hg : ThreadControlBlock_generateSignal t n k1
               = if Z.land signalSet pending =? 0 then Some (0, k1')
                 else Some (0, Scheduler_unblock t k1')).
  { unfold ThreadControlBlock_generateSignal. rewrite Ht1.
    destruct (Z.leb_spec 32 n); [lia|]. reflexivity. }
  destruct (Z.testbit signalSet n) eqn:Hbit.
  - destruct (Hin eq_refl) as (Hne & Hp & Hlow).
    destruct (Z.eqb_spec (Z.land signalSet pending) 0) as [|_]; [done|].
    exists k1, (Scheduler_unblock t k1').
    split; [done|]. split; [done|]. split; [done|]. intros _.
    set (woken := unblockedThreadControlBlock UnblockRequest
                    (setPendingSignalSet pending waiting)).
    exists woken. split; [|split; [done|split]].
    + apply unblockInternal_lookup_eq, lookup_putThreadControlBlock_eq.
    + eapply unblockInternal_runnable, lookup_putThreadControlBlock_eq.
    + intros k3 Hc3.
      rewrite (waitImplementation_resume_value k3 t woken signalSet pending
                 UnblockRequest Hc3 eq_refl eq_refl).
      unfold waitImplementation_afterBlock. simpl negb. cbv iota.
      match goal with
      | |- context [waitImplementation_accept _ _ _ ?c ?k0] =>
          destruct (waitImplementation_accept_lowest signalSet pending t c k0 Hv Hne)
            as (m & Hm & Ha); [by intros i Hi|]
      end.
      rewrite (lowestSignal_unique _ _ _ Hm Hlow) in Ha.
      eexists. eexists. split; [by rewrite Ha|].
      split; [apply lookup_putThreadControlBlock_eq|].
      split; [|done]. simpl. apply clearbit_setbit; [lia|done].
  - rewrite (Hout eq_refl) in Hg. simpl in Hg.
    exists k1, k1'. split; [done|]. split; [done|]. split; [|done].
    intros _. split; [apply lookup_putThreadControlBlock_eq|done].
Qed.

Lemma Scheduler_blockUntil_waiting container timePoint functor frame k t tcb :
  getCurrentThreadControlBlock k = Some (t, tcb) -> noTimerOf t k ->
  TickClock_now k < timePoint ->
  exists k1,
    Scheduler_blockUntil container timePoint functor frame k = Some (Blocked, k1)
    /\ waitingUntil t (blockedThreadControlBlock container functor frame tcb)
         timePoint (TickClock_now k) k1.
Proof.
  intros Hc Hno Hlt.
  set (k0 := putSoftwareTimers (startTimer timePoint t (softwareTimers_ k)) k).
  assert (Hc0 : getCurrentThreadControlBlock k0 = Some (t, tcb)) by exact Hc.
  destruct (Scheduler_block_current container functor frame k0 t tcb Hc0)
    as (k1 & Hb & Ht & _ & _ & Htimers & Htick).
  exists k1. split.
  - unfold Scheduler_blockUntil. rewrite Hc.
    destruct (Z.leb_spec timePoint (TickClock_now k)); [lia|].
    fold k0. by rewrite Hb.
  - repeat split; [done|done|..]; rewrite Htimers; simpl.
    + apply startTimer_elem. by left.
    + intros dt Hdt E. apply startTimer_elem in Hdt as [->|Hdt]; [done|].
      by destruct (Hno dt Hdt).
Qed.

(** X14: a timed wait for signals that never come.  With no wanted signal
    pending and a deadline that the tick counter can hold,
    [tryWaitFor(signalSet, duration)] suspends the caller, which stays
    suspended for the next [duration] ticks and is unblocked by tick
    [duration + 1]; once it runs again the call returns [(ETIMEDOUT, 0)],
    its pending set is untouched and it waits for nothing any more. *)
Theorem Signals_tryWaitFor_timeout (signalSet duration : Z) (k : Scheduler)
    (t : nat) (tcb : ThreadControlBlock) :
  getCurrentThreadControlBlock k = Some (t, tcb) -> noTimerOf t k ->
  Z.land signalSet (pendingSignalSet_ tcb) = 0 ->
  0 <= TickClock_now k -> 0 <= duration ->
  TickClock_now k + duration + 1 < 2 ^ 64 ->
  let waiting := signalsWaitingThreadControlBlock t signalSet tcb in
  let timedOut := unblockedThreadControlBlock Timeout waiting in
  exists k1,
    Signals_tryWaitFor signalSet duration k = Some (Blocked, k1)
    /\ (forall j : nat, Z.of_nat j <= duration ->
          threadControlBlocks (ticks j k1) !! t = Some waiting)
    /\ threadControlBlocks (ticks (S (Z.to_nat duration)) k1) !! t = Some timedOut
    /\ TickClock_now (ticks (S (Z.to_nat duration)) k1)
       = TickClock_now k + duration + 1
    /\ forall k3, getCurrentThreadControlBlock k3 = Some (t, timedOut) ->
         exists k4 tcb4,
           waitImplementation_resume k3 = Some ((ETIMEDOUT, 0), k4)
           /\ threadControlBlocks k4 !! t = Some tcb4
           /\ pendingSignalSet_ tcb4 = pendingSignalSet_ tcb
           /\ waitingSignalSet_ tcb4 = None
           /\ stack_ tcb4 = None.
Proof.
  intros Hc Hno E H0 Hd Hmax waiting timedOut.
  set (deadline := TickClock_now k + duration + 1) in *.
  set (k0 := putThreadControlBlock t (setWaitingSignalSet (Some signalSet) tcb)
               (putList (StackList t) [] k)).
  assert (Hc0 : getCurrentThreadControlBlock k0
                = Some (t, setWaitingSignalSet (Some signalSet) tcb)).
  { apply getCurrentThreadControlBlock_put with (tcb := tcb).
    apply getCurrentThreadControlBlock_Some in Hc as [[rest Hr] Ht].
    apply getCurrentThreadControlBlock_Some. split; [|done].
    exists rest. by rewrite getList_putList_ne. }
  destruct (Scheduler_blockUntil_waiting
              (mkThreadControlBlockList (StackList t) WaitingForSignal) deadline
              (Some SignalsWaitUnblockFunctor)
              (SignalsWaitFrame signalSet (pendingSignalSet_ tcb)) k0 t _ Hc0)
    as (k1 & Hb & Hwait);
    [exact Hno|change (TickClock_now k < deadline); unfold deadline; lia|].
  fold waiting in Hwait. change (TickClock_now k0) with (TickClock_now k) in Hwait.
  assert (Hlast :
    tickCount_ (ticks (S (Z.to_nat duration)) k1) = deadline
    /\ threadControlBlocks (ticks (S (Z.to_nat duration)) k1) !! t = Some timedOut).
  { rewrite ticks_S.
    apply tickHook_deadline with (now := TickClock_now k + Z.of_nat (Z.to_nat duration)).
    - apply ticks_before; [done|done|unfold deadline; lia|done].
    - discriminate.
    - lia.
    - unfold deadline. lia.
    - done. }
  exists k1. split; [|split; [|split; [|split]]].
  - unfold Signals_tryWaitFor, Signals_tryWaitUntil, waitImplementation.
    rewrite Hc, E. simpl.
    replace (wrapTick (wrapTick (TickClock_now k + duration) + 1)) with deadline.
    + fold k0. by rewrite Hb.
    + unfold deadline. rewrite (wrapTick_small (_ + duration)) by lia.
      by rewrite wrapTick_small by lia.
  - intros j Hj.
    by destruct (ticks_before t waiting deadline (TickClock_now k) k1 j)
      as (_ & Ht & _); [done|done|unfold deadline; lia|done|].
  - apply Hlast.
  - apply Hlast.
  - intros k3 Hc3.
    rewrite (waitImplementation_resume_value k3 t timedOut signalSet
               (pendingSignalSet_ tcb) Timeout Hc3 eq_refl eq_refl).
    eexists. eexists. split; [reflexivity|].
    split; [apply lookup_putThreadControlBlock_eq|done].
Qed.

(** ** Signals and threads: the thread lists stay consistent *)

Lemma putThreadControlBlock_invariant k t tcb tcb' :
  kernelInvariant k ->
  threadControlBlocks k !! t = Some tcb -> list_ tcb' = list_ tcb ->
  kernelInvariant (putThreadControlBlock t tcb' k).
Proof.
  intros [Hc Hd] Ht Hl. split; [|exact Hd].
  intros l u Hin. change (u ∈ getList k l) in Hin.
  destruct (Hc l u Hin) as (tcbu & Hu & Hlu).
  destruct (decide (u = t)) as [->|Hne].
  - exists tcb'. split; [apply lookup_putThreadControlBlock_eq|]. congruence.
  - exists tcbu. by rewrite lookup_putThreadControlBlock_ne.
Qed.

Lemma putList_nil_invariant k l :
  kernelInvariant k -> kernelInvariant (putList l [] k).
Proof.
  intros [Hc Hd]. split.
  - intros l' u. rewrite getList_putList. case_decide; [intros; in_nil|].
    intros Hin. exact (Hc l' u Hin).
  - intros l'. rewrite getList_putList. case_decide; [apply NoDup_nil_2|apply Hd].
Qed.

Lemma getCurrentThreadControlBlock_lookup k t tcb :
  getCurrentThreadControlBlock k = Some (t, tcb) ->
  threadControlBlocks k !! t = Some tcb.
Proof. intros Hc. by apply getCurrentThreadControlBlock_Some in Hc as [_ Ht]. Qed.

Lemma runUnblockFunctor_list f tcb : list_ (runUnblockFunctor f tcb) = list_ tcb.
Proof. destruct f. unfold runUnblockFunctor. by destruct (stack_ tcb) as [[]|]. Qed.

Lemma Scheduler_blockUntil_invariant container timePoint functor frame k o k' :
  kernelInvariant k ->
  Scheduler_blockUntil container timePoint functor frame k = Some (o, k') ->
  kernelInvariant k'.
Proof.
  intros Hk. unfold Scheduler_blockUntil.
  destruct (getCurrentThreadControlBlock k) as [[t tcb]|] eqn:Hc; [|done].
  destruct (timePoint <=? TickClock_now k).
  - destruct functor as [f|]; intros [= <- <-]; [|done].
    eapply putThreadControlBlock_invariant;
      [done|by apply getCurrentThreadControlBlock_lookup|apply runUnblockFunctor_list].
  - destruct (Scheduler_block _ _ _ _) as [k1|] eqn:Hb; [|done].
    intros [= <- <-]. eapply Scheduler_block_invariant; [|exact Hb]. exact Hk.
Qed.

Lemma Scheduler_block_resume_invariant k t tcb frame ret k' :
  kernelInvariant k ->
  Scheduler_block_resume k = Some (t, tcb, frame, ret, k') ->
  kernelInvariant k' /\ threadControlBlocks k' !! t = Some tcb.
Proof.
  intros Hk. unfold Scheduler_block_resume.
  destruct (getCurrentThreadControlBlock k) as [[t0 tcb0]|] eqn:Hc; [|done].
  destruct (stack_ tcb0) as [fr|]; [|done].
  destruct (unblockInfo_ tcb0) as [|reason]; [done|].
  intros [= <- <- <- <- <-]. split.
  - change (kernelInvariant (putThreadControlBlock t0 (setStack None tcb0) k)).
    eapply putThreadControlBlock_invariant;
      [done|by apply getCurrentThreadControlBlock_lookup|done].
  - apply lookup_putThreadControlBlock_eq.
Qed.

Lemma waitImplementation_accept_invariant bitset pending t tcb k :
  kernelInvariant k -> threadControlBlocks k !! t = Some tcb ->
  kernelInvariant (waitImplementation_accept bitset pending t tcb k).2.
Proof.
  intros Hk Ht. unfold waitImplementation_accept, acceptPendingSignal.
  destruct (_ && _); simpl;
    by eapply putThreadControlBlock_invariant.
Qed.

Lemma waitImplementation_afterBlock_invariant ret bitset pending t tcb k :
  kernelInvariant k -> threadControlBlocks k !! t = Some tcb ->
  kernelInvariant (waitImplementation_afterBlock ret bitset pending t tcb k).2.
Proof.
  intros Hk Ht. unfold waitImplementation_afterBlock.
  destruct (negb _); [done|]. by apply waitImplementation_accept_invariant.
Qed.

Lemma ThreadControlBlock_generateSignal_invariant t n k r k' :
  kernelInvariant k ->
  ThreadControlBlock_generateSignal t n k = Some (r, k') -> kernelInvariant k'.
Proof.
  intros Hk. unfold ThreadControlBlock_generateSignal.
  destruct (threadControlBlocks k !! t) as [tcb|] eqn:Ht; [|done].
  destruct (32 <=? n); [by intros [= <- <-]|].
  assert (H1 : kernelInvariant
                 (putThreadControlBlock t
                    (setPendingSignalSet (Z.setbit (pendingSignalSet_ tcb) n) tcb) k))
    by by eapply putThreadControlBlock_invariant.
  destruct (state_ tcb); try by intros [= <- <-].
  destruct (waitingSignalSet_ tcb) as [w|]; [|by intros [= <- <-]].
  destruct (_ =? 0); intros [= <- <-]; [done|].
  by apply unblockInternal_invariant.
Qed.

Lemma kernelInvariant_one_list k t l l' :
  kernelInvariant k -> t ∈ getList k l -> t ∈ getList k l' -> l = l'.
Proof.
  intros [Hc _] H1 H2.
  destruct (Hc l t H1) as (tcb & Ht & Hl).
  destruct (Hc l' t H2) as (tcb' & Ht' & Hl'). congruence.
Qed.

(** X15: the signal operations keep the thread lists consistent.  When
    every listed thread has a control block that names the list it is on and
    no list holds a thread twice, the same is true after a wait for signals
    in any of its modes, whether it returns or suspends the caller, after
    the return of a suspended wait, and after a signal is generated for any
    thread; in particular no thread is on two lists afterwards. *)
Theorem Signals_lists_consistent (k : Scheduler) :
  kernelInvariant k ->
  (forall signalSet nonBlocking timePoint o k',
     waitImplementation signalSet nonBlocking timePoint k = Some (o, k') ->
     kernelInvariant k')
  /\ (forall r k', waitImplementation_resume k = Some (r, k') -> kernelInvariant k')
  /\ (forall n r k', Signals_generateSignal n k = Some (r, k') -> kernelInvariant k')
  /\ (forall t n r k',
        ThreadControlBlock_generateSignal t n k = Some (r, k') ->
        kernelInvariant k'
        /\ forall u l l', u ∈ getList k' l -> u ∈ getList k' l' -> l = l').
Proof.
  intros Hk. split; [|split; [|split]].
  - intros signalSet nonBlocking timePoint o k'. unfold waitImplementation.
    destruct (getCurrentThreadControlBlock k) as [[t tcb]|] eqn:Hc; [|done].
    pose proof (getCurrentThreadControlBlock_lookup _ _ _ Hc) as Ht.
    cbv zeta.
    destruct (Z.land signalSet (pendingSignalSet_ tcb) =? 0).
    + destruct nonBlocking; [by intros [= <- <-]|].
      set (k1 := putThreadControlBlock t _ _).
      assert (H1 : kernelInvariant k1).
      { eapply putThreadControlBlock_invariant with (tcb := tcb);
          [by apply putList_nil_invariant|done|done]. }
      destruct timePoint as [tp|].
      * destruct (Scheduler_blockUntil _ _ _ _ k1) as [[[ret|] k2]|] eqn:Hb; [| |done].
        -- pose proof (Scheduler_blockUntil_invariant _ _ _ _ _ _ _ H1 Hb) as H2.
           destruct (threadControlBlocks k2 !! t) as [tcb2|] eqn:Ht2; [|done].
           pose proof (waitImplementation_afterBlock_invariant ret signalSet
                         (pendingSignalSet_ tcb2) t tcb2 k2 H2 Ht2) as H3.
           destruct (waitImplementation_afterBlock _ _ _ _ _ _) as [r k3].
           by intros [= <- <-].
        -- intros [= <- <-]. by eapply Scheduler_blockUntil_invariant.
      * destruct (Scheduler_block _ _ _ k1) as [k2|] eqn:Hb; [|done].
        intros [= <- <-]. by eapply Scheduler_block_invariant.
    + pose proof (waitImplementation_accept_invariant signalSet
                    (pendingSignalSet_ tcb) t tcb k Hk Ht) as H3.
      destruct (waitImplementation_accept _ _ _ _ _) as [r k3].
      by intros [= <- <-].
  - intros r k'. unfold waitImplementation_resume.
    destruct (Scheduler_block_resume k) as [[[[[t tcb] frame] ret] k1]|] eqn:Hb; [|done].
    destruct (Scheduler_block_resume_invariant _ _ _ _ _ _ Hk Hb) as [H1 Ht1].
    destruct frame as [|bitset pending]; [done|].
    pose proof (waitImplementation_afterBlock_invariant ret bitset pending
                  t tcb k1 H1 Ht1) as H3.
    destruct (waitImplementation_afterBlock _ _ _ _ _ _) as [r' k3].
    by intros [= <- <-].
  - intros n r k'. unfold Signals_generateSignal.
    destruct (getCurrentThreadControlBlock k) as [[t tcb]|]; [|done].
    by apply ThreadControlBlock_generateSignal_invariant.
  - intros t n r k' Hg.
    pose proof (ThreadControlBlock_generateSignal_invariant _ _ _ _ _ Hk Hg) as H.
    split; [done|]. intros u l l'. by apply kernelInvariant_one_list.
Qed.

Lemma ThreadBase_join_loop_invariant fuel tb k o tb' k' :
  kernelInvariant k ->
  ThreadBase_join_loop fuel tb k = Some (o, tb', k') -> kernelInvariant k'.
Proof.
  revert tb k. induction fuel as [|fuel IH]; intros tb k Hk; [done|].
  simpl.
  destruct (Semaphore_wait (joinSemaphore_ tb) k) as [[[[ret|] s1] k1]|] eqn:Hw; [| |done].
  - pose proof (Semaphore_wait_invariant _ _ _ _ _ Hk Hw) as H1.
    destruct (ret =? EINTR); [by apply IH|]. by intros [= <- <- <-].
  - intros [= <- <- <-]. by eapply Semaphore_wait_invariant.
Qed.

(** X16: starting, joining and terminating a thread keep the thread lists
    consistent.  When every listed thread has a control block that names the
    list it is on and no list holds a thread twice, the same is true after
    [join], whether it returns or suspends the caller, after the return of a
    suspended [join], after [terminationHook], and after [start] of a thread
    that is on no list while it is new. *)
Theorem ThreadBase_lists_consistent (tb : ThreadBase) (k : Scheduler) :
  kernelInvariant k ->
  (forall fuel o tb' k',
     ThreadBase_join fuel tb k = Some (o, tb', k') -> kernelInvariant k')
  /\ (forall fuel o tb' k',
        ThreadBase_join_resume fuel tb k = Some (o, tb', k') -> kernelInvariant k')
  /\ kernelInvariant (ThreadBase_terminationHook tb k).2
  /\ (forall r k',
        (forall tcb, threadControlBlocks k !! threadControlBlock_ tb = Some tcb ->
                     state_ tcb = New -> list_ tcb = None) ->
        ThreadBase_start tb k = Some (r, k') -> kernelInvariant k').
Proof.
  intros Hk. split; [|split; [|split]].
  - intros fuel o tb' k'. unfold ThreadBase_join.
    destruct (getCurrentThreadControlBlock k) as [[t tcb]|]; [|done].
    destruct (Nat.eqb _ _); [by intros [= <- <- <-]|].
    by apply ThreadBase_join_loop_invariant.
  - intros fuel o tb' k'. unfold ThreadBase_join_resume, Semaphore_wait_resume.
    destruct (Scheduler_block_resume k) as [[[[[t tcb] frame] ret] k1]|] eqn:Hb; [|done].
    destruct (Scheduler_block_resume_invariant _ _ _ _ _ _ Hk Hb) as [H1 _].
    destruct frame; [|done].
    destruct (ret =? EINTR); [by apply ThreadBase_join_loop_invariant|].
    by intros [= <- <- <-].
  - unfold ThreadBase_terminationHook.
    pose proof (Semaphore_post_invariant (joinSemaphore_ tb) k Hk) as H.
    by destruct (Semaphore_post (joinSemaphore_ tb) k) as [[ret s1] k1].
  - intros r k' Hnew. unfold ThreadBase_start.
    destruct (threadControlBlocks k !! threadControlBlock_ tb) as [tcb|] eqn:Ht; [|done].
    case_decide as Hs; intros [= <- <-]; [|done].
    eapply Scheduler_add_invariant; [done|exact Ht|by apply Hnew].
Qed.

(** ** The further properties on the example states *)

Lemma exampleRunning_invariant : kernelInvariant exampleRunning.
Proof.
  split.
  - intros l t H. unfold getList, exampleRunning in H. simpl in H.
    rewrite lookup_insert in H. case_decide as E.
    + simpl in H. in_nil.
    + rewrite lookup_singleton in H. case_decide as E'.
      * subst l. simpl in H. rewrite !elem_of_cons, elem_of_nil in H.
        destruct H as [->|[->|[]]]; eexists; split; reflexivity.
      * simpl in H. in_nil.
  - intros l. unfold getList, exampleRunning. simpl.
    rewrite lookup_insert. case_decide; [apply NoDup_nil_2|].
    rewrite lookup_singleton. case_decide; [|apply NoDup_nil_2].
    simpl. apply NoDup_cons. split; [|apply NoDup_cons; split; [|apply NoDup_nil_2]].
    + rewrite elem_of_cons, elem_of_nil. intros [|[]]; done.
    + apply not_elem_of_nil.
Qed.

Lemma Semaphore_available_witness :
  0 < value_ (exampleSemaphore 1) <= UINT_MAX
  /\ Semaphore_tryWait (exampleSemaphore 1) exampleRunning
     = (0, exampleSemaphore 0, exampleRunning)
  /\ Semaphore_wait (exampleSemaphore 1) exampleRunning
     = Some (Returned 0, exampleSemaphore 0, exampleRunning)
  /\ Semaphore_tryWaitUntil (exampleSemaphore 1) 0 exampleRunning
     = Some (Returned 0, exampleSemaphore 0, exampleRunning)
  /\ Semaphore_tryWaitFor (exampleSemaphore 1) 10 exampleRunning
     = Some (Returned 0, exampleSemaphore 0, exampleRunning).
Proof.
  assert (H : 0 < value_ (exampleSemaphore 1) <= UINT_MAX)
    by (simpl; unfold UINT_MAX; lia).
  split; [exact H|].
  exact (Semaphore_available (exampleSemaphore 1) exampleRunning 0 10 H).
Defined.

Lemma Semaphore_posts_saturate_witness :
  let s := mkSemaphore (mkThreadControlBlockList (ObjectList 100) BlockedOnSemaphore) 1 3 in
  valueBounded s
  /\ blockedThreads s exampleRunning = []
  /\ value_ s + Z.of_nat 2 = maxValue_ s
  /\ Semaphore_posts (2 + 3) s exampleRunning
     = ([0; 0; EOVERFLOW; EOVERFLOW; EOVERFLOW], setValue 3 s, exampleRunning).
Proof.
  intros s.
  assert (Hb : valueBounded s) by (unfold valueBounded, UINT_MAX; simpl; lia).
  assert (Hv : value_ s + Z.of_nat 2 = maxValue_ s) by reflexivity.
  split; [exact Hb|]. split; [reflexivity|]. split; [exact Hv|].
  exact (Semaphore_posts_saturate 2 3 s exampleRunning Hb eq_refl Hv).
Defined.

Lemma Semaphore_tryWaits_drain_witness :
  0 <= value_ (exampleSemaphore 3) <= UINT_MAX
  /\ Semaphore_tryWaits (Z.to_nat (value_ (exampleSemaphore 3)) + 2)
       (exampleSemaphore 3) exampleRunning
     = ([0; 0; 0; EAGAIN; EAGAIN], exampleSemaphore 0, exampleRunning).
Proof.
  assert (H : 0 <= value_ (exampleSemaphore 3) <= UINT_MAX)
    by (simpl; unfold UINT_MAX; lia).
  split; [exact H|].
  exact (Semaphore_tryWaits_drain 2 (exampleSemaphore 3) exampleRunning H).
Defined.

Lemma Semaphore_calls_balance_witness :
  valueBounded (exampleSemaphore 0)
  /\ blockedThreads (exampleSemaphore 0) exampleRunning = []
  /\ exists log s',
       Semaphore_calls [CallPost; CallTryWait; CallTryWait] (exampleSemaphore 0)
         exampleRunning = (log, s', exampleRunning)
       /\ valueBounded s'
       /\ length log = 3%nat
       /\ value_ s' + successfulCalls false log = 0 + successfulCalls true log.
Proof.
  assert (Hb : valueBounded (exampleSemaphore 0))
    by (apply exampleSemaphore_bounded; unfold UINT_MAX; lia).
  split; [exact Hb|]. split; [reflexivity|].
  exact (Semaphore_calls_balance [CallPost; CallTryWait; CallTryWait]
           (exampleSemaphore 0) exampleRunning Hb eq_refl).
Defined.

Lemma Semaphore_wait_post_handshake_witness :
  value_ (exampleSemaphore 0) = 0
  /\ ownList (exampleSemaphore 0)
  /\ blockedThreads (exampleSemaphore 0) exampleRunning = []
  /\ getCurrentThreadControlBlock exampleRunning = Some (1%nat, runnableThread 1 160)
  /\ getList exampleRunning RunnableList = [1%nat; 0%nat]
  /\ maxValue_ (exampleSemaphore 0) <> 0
  /\ exists k1 k2 woken,
       Semaphore_wait (exampleSemaphore 0) exampleRunning
       = Some (Blocked, exampleSemaphore 0, k1)
       /\ blockedThreads (exampleSemaphore 0) k1 = [1%nat]
       /\ getList k1 RunnableList = [0%nat]
       /\ Semaphore_post (exampleSemaphore 0) k1 = (0, exampleSemaphore 0, k2)
       /\ blockedThreads (exampleSemaphore 0) k2 = []
       /\ 1%nat ∈ getList k2 RunnableList
       /\ threadControlBlocks k2 !! 1%nat = Some woken
       /\ state_ woken = Runnable
       /\ forall k3, getCurrentThreadControlBlock k3 = Some (1%nat, woken) ->
            exists k4, Semaphore_wait_resume k3 = Some (0, k4).
Proof.
  assert (Hm : maxValue_ (exampleSemaphore 0) <> 0) by discriminate.
  split; [reflexivity|].
  split; [apply exampleSemaphore_ownList|]. split; [reflexivity|].
  split; [reflexivity|]. split; [reflexivity|]. split; [exact Hm|].
  destruct (Semaphore_wait_post_handshake (exampleSemaphore 0) exampleRunning 1%nat
              (runnableThread 1 160) [0%nat] eq_refl (exampleSemaphore_ownList 0)
              eq_refl exampleRunning_current eq_refl)
    as (k1 & Hw & Hl1 & Hr1 & Hpost & _).
  destruct (Hpost Hm) as (k2 & woken & H).
  exists k1, k2, woken. split; [exact Hw|]. split; [exact Hl1|].
  split; [exact Hr1|exact H].
Defined.

Lemma ThreadBase_start_once_witness :
  threadControlBlocks exampleRunning
    !! threadControlBlock_ (mkThreadBase 2 (exampleSemaphore 0)) = Some (newThread 2)
  /\ state_ (newThread 2) = New
  /\ exists k',
       ThreadBase_start (mkThreadBase 2 (exampleSemaphore 0)) exampleRunning
       = Some (0, k')
       /\ threadControlBlocks k' !! 2%nat
          = Some (setState Runnable (setList (Some RunnableList) (newThread 2)))
       /\ 2%nat ∈ getList k' RunnableList
       /\ ThreadBase_start (mkThreadBase 2 (exampleSemaphore 0)) k' = Some (EINVAL, k').
Proof.
  split; [reflexivity|]. split; [reflexivity|].
  exact (proj2 (ThreadBase_start_once (mkThreadBase 2 (exampleSemaphore 0))
                  exampleRunning (newThread 2) eq_refl) eq_refl).
Defined.

Lemma ThreadBase_join_other_witness :
  getCurrentThreadControlBlock exampleRunning = Some (1%nat, runnableThread 1 160)
  /\ 1%nat <> threadControlBlock_ (mkThreadBase 2 (exampleSemaphore 0))
  /\ 0 <= value_ (joinSemaphore_ (mkThreadBase 2 (exampleSemaphore 0))) <= UINT_MAX
  /\ value_ (joinSemaphore_ (mkThreadBase 2 (exampleSemaphore 0))) = 0
  /\ exists k',
       ThreadBase_join 1 (mkThreadBase 2 (exampleSemaphore 0)) exampleRunning
       = Some (Blocked, mkThreadBase 2 (exampleSemaphore 0), k')
       /\ threadControlBlocks k' !! 1%nat
          = Some (blockedThreadControlBlock (blockedList_ (exampleSemaphore 0))
                    None SemaphoreWaitFrame (runnableThread 1 160))
       /\ 1%nat ∈ blockedThreads (exampleSemaphore 0) k'.
Proof.
  assert (Hne : 1%nat <> threadControlBlock_ (mkThreadBase 2 (exampleSemaphore 0)))
    by discriminate.
  assert (Hr : 0 <= value_ (joinSemaphore_ (mkThreadBase 2 (exampleSemaphore 0)))
               <= UINT_MAX) by (simpl; unfold UINT_MAX; lia).
  split; [reflexivity|]. split; [exact Hne|]. split; [exact Hr|].
  split; [reflexivity|].
  exact (proj2 (ThreadBase_join_other 0 (mkThreadBase 2 (exampleSemaphore 0))
                  exampleRunning 1%nat (runnableThread 1 160)
                  exampleRunning_current Hne Hr) eq_refl).
Defined.

Lemma ThreadBase_terminate_then_join_witness :
  value_ (joinSemaphore_ (mkThreadBase 2 (exampleSemaphore 0))) = 0
  /\ 0 < maxValue_ (joinSemaphore_ (mkThreadBase 2 (exampleSemaphore 0))) <= UINT_MAX
  /\ blockedThreads (joinSemaphore_ (mkThreadBase 2 (exampleSemaphore 0)))
       exampleRunning = []
  /\ getCurrentThreadControlBlock exampleRunning = Some (1%nat, runnableThread 1 160)
  /\ 1%nat <> threadControlBlock_ (mkThreadBase 2 (exampleSemaphore 0))
  /\ exists tb',
       ThreadBase_terminationHook (mkThreadBase 2 (exampleSemaphore 0)) exampleRunning
       = (tb', exampleRunning)
       /\ value_ (joinSemaphore_ tb') = 1
       /\ ThreadBase_join 1 tb' exampleRunning
          = Some (Returned 0, mkThreadBase 2 (exampleSemaphore 0), exampleRunning).
Proof.
  assert (Hne : 1%nat <> threadControlBlock_ (mkThreadBase 2 (exampleSemaphore 0)))
    by discriminate.
  assert (Hm : 0 < maxValue_ (joinSemaphore_ (mkThreadBase 2 (exampleSemaphore 0)))
               <= UINT_MAX) by (simpl; unfold UINT_MAX; lia).
  split; [reflexivity|]. split; [exact Hm|]. split; [reflexivity|].
  split; [reflexivity|]. split; [exact Hne|].
  exact (ThreadBase_terminate_then_join 0 (mkThreadBase 2 (exampleSemaphore 0))
           exampleRunning 1%nat (runnableThread 1 160) eq_refl Hm eq_refl
           exampleRunning_current Hne).
Defined.

Lemma ThreadBase_join_then_terminate_witness :
  value_ (joinSemaphore_ (mkThreadBase 2 (exampleSemaphore 0))) = 0
  /\ maxValue_ (joinSemaphore_ (mkThreadBase 2 (exampleSemaphore 0))) <> 0
  /\ ownList (joinSemaphore_ (mkThreadBase 2 (exampleSemaphore 0)))
  /\ blockedThreads (joinSemaphore_ (mkThreadBase 2 (exampleSemaphore 0)))
       exampleRunning = []
  /\ getCurrentThreadControlBlock exampleRunning = Some (1%nat, runnableThread 1 160)
  /\ 1%nat <> threadControlBlock_ (mkThreadBase 2 (exampleSemaphore 0))
  /\ exists k1 k2 woken,
       ThreadBase_join 1 (mkThreadBase 2 (exampleSemaphore 0)) exampleRunning
       = Some (Blocked, mkThreadBase 2 (exampleSemaphore 0), k1)
       /\ blockedThreads (exampleSemaphore 0) k1 = [1%nat]
       /\ ThreadBase_terminationHook (mkThreadBase 2 (exampleSemaphore 0)) k1
          = (mkThreadBase 2 (exampleSemaphore 0), k2)
       /\ blockedThreads (exampleSemaphore 0) k2 = []
       /\ 1%nat ∈ getList k2 RunnableList
       /\ threadControlBlocks k2 !! 1%nat = Some woken
       /\ forall k3, getCurrentThreadControlBlock k3 = Some (1%nat, woken) ->
            exists k4,
              ThreadBase_join_resume 1 (mkThreadBase 2 (exampleSemaphore 0)) k3
              = Some (Returned 0, mkThreadBase 2 (exampleSemaphore 0), k4).
Proof.
  assert (Hne : 1%nat <> threadControlBlock_ (mkThreadBase 2 (exampleSemaphore 0)))
    by discriminate.
  assert (Hm : maxValue_ (joinSemaphore_ (mkThreadBase 2 (exampleSemaphore 0))) <> 0)
    by discriminate.
  split; [reflexivity|]. split; [exact Hm|].
  split; [apply exampleSemaphore_ownList|]. split; [reflexivity|].
  split; [reflexivity|]. split; [exact Hne|].
  exact (ThreadBase_join_then_terminate 0 1 (mkThreadBase 2 (exampleSemaphore 0))
           exampleRunning 1%nat (runnableThread 1 160) eq_refl Hm
           (exampleSemaphore_ownList 0) eq_refl exampleRunning_current Hne).
Defined.

Lemma Signals_pending_all_variants_witness :
  getCurrentThreadControlBlock exampleRunning = Some (1%nat, runnableThread 1 160)
  /\ validSignalSet 136
  /\ Z.land 136 (pendingSignalSet_ (runnableThread 1 160)) <> 0
  /\ exists n k',
       lowestSignal n (Z.land 136 (pendingSignalSet_ (runnableThread 1 160)))
       /\ Signals_tryWait 136 exampleRunning = Some (Returned (0, n), k')
       /\ Signals_wait 136 exampleRunning = Some (Returned (0, n), k')
       /\ Signals_tryWaitUntil 136 0 exampleRunning = Some (Returned (0, n), k')
       /\ Signals_tryWaitFor 136 10 exampleRunning = Some (Returned (0, n), k').
Proof.
  assert (Hne : Z.land 136 (pendingSignalSet_ (runnableThread 1 160)) <> 0)
    by discriminate.
  split; [reflexivity|]. split; [apply validSignalSet_136|]. split; [exact Hne|].
  exact (Signals_pending_all_variants 136 exampleRunning 1%nat (runnableThread 1 160)
           0 10 exampleRunning_current validSignalSet_136 Hne).
Defined.

Lemma Signals_tryWait_ascending_witness :
  getCurrentThreadControlBlock exampleRunning = Some (1%nat, runnableThread 1 160)
  /\ validSignalSet 160
  /\ Z.land 160 (pendingSignalSet_ (runnableThread 1 160)) <> 0
  /\ exists n k' tcb',
       Signals_tryWait 160 exampleRunning = Some (Returned (0, n), k')
       /\ Z.testbit 160 n = true
       /\ Z.testbit (pendingSignalSet_ (runnableThread 1 160)) n = true
       /\ getCurrentThreadControlBlock k' = Some (1%nat, tcb')
       /\ Z.testbit (pendingSignalSet_ tcb') n = false
       /\ (forall m, m <> n ->
             Z.testbit (pendingSignalSet_ tcb') m
             = Z.testbit (pendingSignalSet_ (runnableThread 1 160)) m)
       /\ forall ret n' k'',
            Signals_tryWait 160 k' = Some (Returned (ret, n'), k'') ->
            ret = EAGAIN \/ (ret = 0 /\ n < n').
Proof.
  assert (Hv : validSignalSet 160) by (unfold validSignalSet; lia).
  assert (Hne : Z.land 160 (pendingSignalSet_ (runnableThread 1 160)) <> 0)
    by discriminate.
  split; [reflexivity|]. split; [exact Hv|]. split; [exact Hne|].
  exact (Signals_tryWait_ascending 160 exampleRunning 1%nat (runnableThread 1 160)
           exampleRunning_current Hv Hne).
Defined.

Lemma Signals_generate_accept_witness :
  getCurrentThreadControlBlock exampleRunning = Some (1%nat, runnableThread 1 160)
  /\ waitingSignalSet_ (runnableThread 1 160) = None
  /\ 0 <= 3 < 32
  /\ Z.testbit (pendingSignalSet_ (runnableThread 1 160)) 3 = false
  /\ exists k1 k2,
       Signals_generateSignal 3 exampleRunning = Some (0, k1)
       /\ Signals_getPendingSignalSet k1 = Some 168
       /\ Signals_tryWait (2 ^ 3) k1 = Some (Returned (0, 3), k2)
       /\ Signals_getPendingSignalSet k2 = Some 160.
Proof.
  assert (Hn : 0 <= 3 < 32) by lia.
  split; [reflexivity|]. split; [reflexivity|]. split; [exact Hn|].
  split; [reflexivity|].
  exact (proj2 (Signals_generate_accept 3 exampleRunning 1%nat (runnableThread 1 160)
                  exampleRunning_current eq_refl) Hn eq_refl).
Defined.

Lemma Signals_wait_wakeup_witness :
  getCurrentThreadControlBlock exampleQuiet = Some (1%nat, runnableThread 1 0)
  /\ validSignalSet 136
  /\ Z.land 136 (pendingSignalSet_ (runnableThread 1 0)) = 0
  /\ 0 <= 7 < 32
  /\ Z.testbit 136 7 = true
  /\ exists k1 k2 woken,
       Signals_wait 136 exampleQuiet = Some (Blocked, k1)
       /\ ThreadControlBlock_generateSignal 1 7 k1 = Some (0, k2)
       /\ threadControlBlocks k2 !! 1%nat = Some woken
       /\ state_ woken = Runnable
       /\ 1%nat ∈ getList k2 RunnableList
       /\ forall k3, getCurrentThreadControlBlock k3 = Some (1%nat, woken) ->
            exists k4 tcb4,
              waitImplementation_resume k3 = Some ((0, 7), k4)
              /\ threadControlBlocks k4 !! 1%nat = Some tcb4
              /\ pendingSignalSet_ tcb4 = 0
              /\ waitingSignalSet_ tcb4 = None
              /\ stack_ tcb4 = None.
Proof.
  assert (Hn : 0 <= 7 < 32) by lia.
  split; [reflexivity|]. split; [apply validSignalSet_136|]. split; [reflexivity|].
  split; [exact Hn|]. split; [reflexivity|].
  destruct (Signals_wait_wakeup 136 exampleQuiet 1%nat (runnableThread 1 0) 7
              eq_refl validSignalSet_136 eq_refl Hn)
    as (k1 & k2 & Hw & Hg & _ & Hin).
  destruct (Hin eq_refl) as (woken & H).
  exists k1, k2, woken. split; [exact Hw|]. split; [exact Hg|]. exact H.
Defined.

Lemma Signals_tryWaitFor_timeout_witness :
  getCurrentThreadControlBlock exampleRunning = Some (1%nat, runnableThread 1 160)
  /\ noTimerOf 1 exampleRunning
  /\ Z.land 8 (pendingSignalSet_ (runnableThread 1 160)) = 0
  /\ 0 <= TickClock_now exampleRunning
  /\ 0 <= 10
  /\ TickClock_now exampleRunning + 10 + 1 < 2 ^ 64
  /\ let waiting := signalsWaitingThreadControlBlock 1 8 (runnableThread 1 160) in
     let timedOut := unblockedThreadControlBlock Timeout waiting in
     exists k1,
       Signals_tryWaitFor 8 10 exampleRunning = Some (Blocked, k1)
       /\ (forall j : nat, Z.of_nat j <= 10 ->
             threadControlBlocks (ticks j k1) !! 1%nat = Some waiting)
       /\ threadControlBlocks (ticks (S (Z.to_nat 10)) k1) !! 1%nat = Some timedOut
       /\ TickClock_now (ticks (S (Z.to_nat 10)) k1)
          = TickClock_now exampleRunning + 10 + 1
       /\ forall k3, getCurrentThreadControlBlock k3 = Some (1%nat, timedOut) ->
            exists k4 tcb4,
              waitImplementation_resume k3 = Some ((ETIMEDOUT, 0), k4)
              /\ threadControlBlocks k4 !! 1%nat = Some tcb4
              /\ pendingSignalSet_ tcb4 = pendingSignalSet_ (runnableThread 1 160)
              /\ waitingSignalSet_ tcb4 = None
              /\ stack_ tcb4 = None.
Proof.
  assert (H0 : 0 <= TickClock_now exampleRunning) by (simpl; lia).
  assert (Hd : 0 <= 10) by lia.
  assert (Hmax : TickClock_now exampleRunning + 10 + 1 < 2 ^ 64) by (simpl; lia).
  split; [reflexivity|]. split; [apply exampleRunning_noTimer|].
  split; [reflexivity|]. split; [exact H0|]. split; [exact Hd|]. split; [exact Hmax|].
  exact (Signals_tryWaitFor_timeout 8 10 exampleRunning 1%nat (runnableThread 1 160)
           exampleRunning_current exampleRunning_noTimer eq_refl H0 Hd Hmax).
Defined.

Lemma Signals_lists_consistent_witness :
  kernelInvariant exampleRunning
  /\ exists k', Signals_wait 8 exampleRunning = Some (Blocked, k')
       /\ kernelInvariant k'.
Proof.
  split; [apply exampleRunning_invariant|].
  destruct (Signals_wait_blocks 8 exampleRunning 1%nat (runnableThread 1 160)
              exampleRunning_current eq_refl) as (k' & Hw & _).
  exists k'. split; [exact Hw|].
  exact (proj1 (Signals_lists_consistent exampleRunning exampleRunning_invariant)
           8 false None Blocked k' Hw).
Defined.

Lemma ThreadBase_lists_consistent_witness :
  kernelInvariant exampleRunning
  /\ kernelInvariant
       (ThreadBase_terminationHook (mkThreadBase 2 (exampleSemaphore 0))
          exampleRunning).2.
Proof.
  split; [apply exampleRunning_invariant|].
  exact (proj1 (proj2 (proj2 (ThreadBase_lists_consistent
                                (mkThreadBase 2 (exampleSemaphore 0)) exampleRunning
                                exampleRunning_invariant)))).
Defined.

(** ** Semaphore: the order in which waiters are served *)








































